(** * cocofs: a shallow embedding of the CoCo DOS disk-image engine

    The development follows [cocofs.c]: the image is one flat byte buffer,
    the Granule Map and the directory are views into it at fixed offsets,
    and the free-granule counter is a C [unsigned int] kept next to it. *)

From Stdlib Require Import ZArith Lia Bool.
From Stdlib Require Import Strings.Byte.
From stdpp Require Import base option list.

Local Open Scope Z_scope.

(* ===================================================================== *)
(** * Part I: the embedding                                               *)
(* ===================================================================== *)

(** ** Bytes and machine integers *)

#[global] Instance byte_eq_decision : EqDecision byte := Byte.byte_eq_dec.

(** The numeric value of a [uint8_t]. *)
Definition val (b : byte) : Z := Z.of_N (Byte.to_N b).

(** The cast [(uint8_t) z]. *)
Definition u8 (z : Z) : byte :=
  match Byte.of_N (Z.to_N (z mod 256)) with
  | Some b => b
  | None => x00
  end.

(** Arithmetic on [unsigned int] wraps modulo [2^32]. *)
Definition UINT_MOD : Z := 2 ^ 32.
Definition u32 (z : Z) : Z := z mod UINT_MOD.

(** ** Disk geometry (the [#define]s of the source) *)

Definition COCOFS_TRACKS : Z := 35.
Definition COCOFS_SEC_PER_TRACK : Z := 18.
Definition COCOFS_SEC_PER_GRANULE : Z := 9.
Definition COCOFS_BYTES_PER_SEC : Z := 256.
Definition COCOFS_BYTES_PER_TRACK : Z :=
  COCOFS_SEC_PER_TRACK * COCOFS_BYTES_PER_SEC.
Definition COCOFS_BYTES_PER_GRANULE : Z :=
  COCOFS_SEC_PER_GRANULE * COCOFS_BYTES_PER_SEC.
Definition COCOFS_TOTALSIZE : Z :=
  COCOFS_TRACKS * COCOFS_SEC_PER_TRACK * COCOFS_BYTES_PER_SEC.
Definition COCOFS_DIR_TRACK : Z := 17.
Definition COCOFS_GRANULES_PER_TRACK : Z :=
  COCOFS_SEC_PER_TRACK / COCOFS_SEC_PER_GRANULE.
Definition COCOFS_NGRANULES : Z :=
  (COCOFS_TRACKS - 1) * COCOFS_GRANULES_PER_TRACK.

Definition cocofs_track_to_offset (track : Z) : Z :=
  track * (COCOFS_SEC_PER_TRACK * COCOFS_BYTES_PER_SEC).

(** Sectors are numbered 1 - 18. *)
Definition cocofs_sector_to_offset (sector : Z) : Z :=
  (sector - 1) * COCOFS_BYTES_PER_SEC.

Definition cocofs_granule_to_track (granule : Z) : Z :=
  let track := granule / COCOFS_GRANULES_PER_TRACK in
  if COCOFS_DIR_TRACK <=? track then track + 1 else track.

Definition cocofs_granule_to_offset (granule : Z) : Z :=
  let track := cocofs_granule_to_track granule in
  let offset := cocofs_track_to_offset track in
  if Z.land granule 1 =? 0 then offset
  else offset + COCOFS_BYTES_PER_GRANULE.

(** ** The Granule Map codec *)

Definition GMAP_SECTOR : Z := 2.
Definition GMAP_FREE : Z := 0xff.
Definition GMAP_ALLOCATED : Z := 0xfe.
Definition GMAP_LAST : Z := 0xc0.
Definition GMAP_IS_LAST (v : Z) : bool := Z.land v GMAP_LAST =? GMAP_LAST.
Definition GMAP_LAST_NSEC (v : Z) : Z := Z.land v 0x0f.

Definition gmap_entry_is_valid (v : byte) : bool :=
  (val v <=? COCOFS_NGRANULES) ||
  ((0xc0 <=? val v) && (val v <=? 0xc9)) ||
  (val v =? GMAP_FREE).

(** ** Directory entries: [struct cocofs_dirent], 32 bytes *)

Definition D_NAME : Z := 0.
Definition D_EXT : Z := 8.
Definition D_TYPE : Z := 11.
Definition D_ENCODING : Z := 12.
Definition D_FIRST_GRANULE : Z := 13.
Definition D_LAST_BYTES : Z := 14.
Definition D_UNUSED : Z := 16.
Definition SIZEOF_DIRENT : Z := 32.

Definition COCOFS_DIRENT_TYPE_BASIC : Z := 0x00.
Definition COCOFS_DIRENT_TYPE_DATA : Z := 0x01.
Definition COCOFS_DIRENT_TYPE_CODE : Z := 0x02.
Definition COCOFS_DIRENT_TYPE_TEXT : Z := 0x03.
Definition COCOFS_DIRENT_TYPE_FREE : Z := 0xff.
Definition COCOFS_DIRENT_ENC_BINARY : Z := 0x00.
Definition COCOFS_DIRENT_ENC_ASCII : Z := 0xff.

Definition COCOFS_DIR_TRACK_FIRST_SEC : Z := 3.
Definition COCOFS_DIR_TRACK_LAST_SEC : Z := 11.
Definition COCOFS_DIR_TRACK_NSEC : Z := 9.
Definition COCOFS_DIR_TRACK_NENTRIES : Z :=
  (COCOFS_DIR_TRACK_NSEC * COCOFS_BYTES_PER_SEC) / SIZEOF_DIRENT.

(** ** The image buffer

    [uint8_t *image_data] is a buffer of [COCOFS_TOTALSIZE] bytes; every
    access of the source is an offset into it. *)

Abbreviation image := (list byte) (only parsing).

Definition mem_get (img : image) (off : Z) : byte :=
  default x00 (img !! Z.to_nat off).

Definition mem_set (img : image) (off : Z) (b : byte) : image :=
  <[Z.to_nat off := b]> img.

(** [n] bytes starting at [off]. *)
Definition mem_read (img : image) (off n : Z) : list byte :=
  take (Z.to_nat n) (drop (Z.to_nat off) img).

(** [memcpy(img + off, data, length data)]. *)
Definition mem_write (img : image) (off : Z) (data : list byte) : image :=
  list_inserts (Z.to_nat off) data img.

(** [memset(img + off, b, n)]. *)
Definition memset (img : image) (off : Z) (b : byte) (n : Z) : image :=
  mem_write img off (replicate (Z.to_nat n) b).

(** In-memory representation of a CoCo DOS file system.  The cached
    pointers [granule_map] and [directory] of the source are the offsets
    [granule_map_off] and [directory_off] computed as in [cocofs_alloc]. *)
Record cocofs : Type := mkfs {
  image_data : image;
  free_granules : Z
}.

Definition directory_track_off : Z := cocofs_track_to_offset COCOFS_DIR_TRACK.
Definition granule_map_off : Z :=
  directory_track_off + cocofs_sector_to_offset GMAP_SECTOR.
Definition directory_off : Z :=
  directory_track_off + cocofs_sector_to_offset COCOFS_DIR_TRACK_FIRST_SEC.

(** [granule_map[g]] and [granule_map[g] = b]. *)
Definition gmap_get (img : image) (g : Z) : byte :=
  mem_get img (granule_map_off + g).
Definition gmap_set (img : image) (g : Z) (b : byte) : image :=
  mem_set img (granule_map_off + g) b.

(** [&directory[i]] as an offset; a [struct cocofs_dirent *] is modelled by
    the slot index [i]. *)
Definition dirent_off (i : Z) : Z := directory_off + i * SIZEOF_DIRENT.

Definition d_name (img : image) (i : Z) : list byte :=
  mem_read img (dirent_off i + D_NAME) 8.
Definition d_ext (img : image) (i : Z) : list byte :=
  mem_read img (dirent_off i + D_EXT) 3.
Definition d_type (img : image) (i : Z) : byte :=
  mem_get img (dirent_off i + D_TYPE).
Definition d_encoding (img : image) (i : Z) : byte :=
  mem_get img (dirent_off i + D_ENCODING).
Definition d_first_granule (img : image) (i : Z) : byte :=
  mem_get img (dirent_off i + D_FIRST_GRANULE).
Definition d_last_bytes (img : image) (i : Z) : list byte :=
  mem_read img (dirent_off i + D_LAST_BYTES) 2.

(** The whole 32-byte slot, the whole directory and the whole map. *)
Definition dirent_bytes (img : image) (i : Z) : list byte :=
  mem_read img (dirent_off i) SIZEOF_DIRENT.
Definition directory_bytes (img : image) : list byte :=
  mem_read img directory_off (COCOFS_DIR_TRACK_NENTRIES * SIZEOF_DIRENT).
Definition granule_map_bytes (img : image) : list byte :=
  mem_read img granule_map_off COCOFS_NGRANULES.

Definition cocofs_dir_lastbytes (lastbytes : list byte) : Z :=
  Z.lor (Z.shiftl (val (default x00 (lastbytes !! 0%nat))) 8)
        (val (default x00 (lastbytes !! 1%nat))).

(** [cocofs_dir_set_lastbytes]: the two bytes stored, high byte first. *)
Definition cocofs_dir_set_lastbytes (cnt : Z) : list byte :=
  [u8 (Z.shiftr cnt 8); u8 cnt].

(** ** Formatting and loading *)

Definition cocofs_format : cocofs :=
  {| image_data := replicate (Z.to_nat COCOFS_TOTALSIZE) xff;
     free_granules := COCOFS_NGRANULES |}.

(** The counting loop of [cocofs_load], from granule [i] on, [n] granules. *)
Fixpoint load_count (n : nat) (img : image) (i : Z) (free : Z) : Z :=
  match n with
  | O => free
  | S n' =>
      load_count n' img (i + 1)
        (if val (gmap_get img i) =? GMAP_FREE then u32 (free + 1) else free)
  end.

(** [cocofs_load] on a successful read of [data]: the buffer was zeroed by
    [calloc], the bytes read overwrite its head (a short read leaves the
    tail zero), and the free granules are counted. *)
Definition cocofs_load (data : list byte) : cocofs :=
  let img := mem_write (replicate (Z.to_nat COCOFS_TOTALSIZE) x00) 0
                       (take (Z.to_nat COCOFS_TOTALSIZE) data) in
  {| image_data := img;
     free_granules := load_count (Z.to_nat COCOFS_NGRANULES) img 0 0 |}.

(** ** Directory lookup *)

(** [memcmp(field, arg, n) == 0] where [field] already has [n] bytes. *)
Definition memcmp_eq (field arg : list byte) (n : nat) : bool :=
  bool_decide (field = take n arg).

(** The scan of [cocofs_lookup_raw] from slot [i], [n] slots left. *)
Fixpoint lookup_raw_from (n : nat) (img : image) (i : Z)
         (name ext : list byte) : option Z :=
  match n with
  | O => None
  | S n' =>
      if val (d_type img i) =? COCOFS_DIRENT_TYPE_FREE then
        lookup_raw_from n' img (i + 1) name ext
      else if negb (memcmp_eq (d_name img i) name 8) then
        lookup_raw_from n' img (i + 1) name ext
      else if negb (memcmp_eq (d_ext img i) ext 3) then
        lookup_raw_from n' img (i + 1) name ext
      else Some i
  end.

Definition cocofs_lookup_raw (fs : cocofs) (name ext : list byte) : option Z :=
  lookup_raw_from (Z.to_nat COCOFS_DIR_TRACK_NENTRIES) (image_data fs) 0
                  name ext.

(** ** stat(2)-like information: [cocofs_stat] *)

Record struct_cocofs_stat : Type := mkstat {
  st_size : Z;
  st_name : list byte;
  st_ext : list byte;
  st_type : byte;
  st_encoding : byte
}.

(** The chain loop of [cocofs_stat]: [n] is the number of iterations the
    guard [loopcnt <= COCOFS_NGRANULES] still allows.  The result is the
    final [(size, last_nsec, loopcnt)]. *)
Fixpoint stat_loop (n : nat) (img : image) (loopcnt : Z) (g : byte)
         (size : Z) : Z * Z * Z :=
  match n with
  | O => (size, 0, loopcnt)
  | S n' =>
      let gn := gmap_get img (val g) in
      if negb (gmap_entry_is_valid gn) || (val gn =? GMAP_FREE) then
        (size, 0, loopcnt)
      else if GMAP_IS_LAST (val gn) then
        (size, GMAP_LAST_NSEC (val gn), loopcnt)
      else
        stat_loop n' img (loopcnt + 1) gn
          (u32 (size + COCOFS_SEC_PER_GRANULE * COCOFS_BYTES_PER_SEC))
  end.

(** Trailing blanks of a name field become NULs. *)
Fixpoint strip_leading_spaces (l : list byte) : list byte :=
  match l with
  | b :: l' => if val b =? 32 then x00 :: strip_leading_spaces l' else l
  | [] => []
  end.
Definition strip_trailing_spaces (l : list byte) : list byte :=
  reverse (strip_leading_spaces (reverse l)).

Definition stat_size (img : image) (dir : Z) : Z :=
  let '(size, last_nsec, _) :=
    stat_loop (Z.to_nat (COCOFS_NGRANULES + 1)) img 0
              (d_first_granule img dir) 0 in
  if last_nsec =? 0 then size
  else
    let size := u32 (size + last_nsec * COCOFS_BYTES_PER_SEC) in
    let lastsec_bytes := cocofs_dir_lastbytes (d_last_bytes img dir) in
    let lastsec_bytes :=
      if COCOFS_BYTES_PER_SEC <? lastsec_bytes then COCOFS_BYTES_PER_SEC
      else lastsec_bytes in
    u32 (size - (COCOFS_BYTES_PER_SEC - lastsec_bytes)).

Definition cocofs_stat (fs : cocofs) (dir : Z) : struct_cocofs_stat :=
  let img := image_data fs in
  {| st_size := stat_size img dir;
     st_name := strip_trailing_spaces (d_name img dir) ++ [x00];
     st_ext := strip_trailing_spaces (d_ext img dir) ++ [x00];
     st_type := d_type img dir;
     st_encoding := d_encoding img dir |}.

(** ** Directory listing: the slot loop of [cocofs_enumerate_directory]

    Only the listing is modelled (the files shown and their stat data); the
    shadow-map diagnostics of the dump mode print and change nothing. *)
Fixpoint enumerate_from (n : nat) (fs : cocofs) (di : Z)
  : list (Z * struct_cocofs_stat) :=
  match n with
  | O => []
  | S n' =>
      if COCOFS_DIRENT_TYPE_TEXT <? val (d_type (image_data fs) di) then
        enumerate_from n' fs (di + 1)
      else (di, cocofs_stat fs di) :: enumerate_from n' fs (di + 1)
  end.

Definition cocofs_enumerate_directory (fs : cocofs)
  : list (Z * struct_cocofs_stat) :=
  enumerate_from (Z.to_nat COCOFS_DIR_TRACK_NENTRIES) fs 0.

(** ** Removing a file: [cocofs_rm] *)

Inductive rm_error : Type :=
| RM_INVALID_GRANULE      (* "INVALID GRANULE #%d: %d" *)
| RM_INVALID_GMAP_ENTRY.  (* "INVALID GRANULE MAP ENTRY ..." *)

(** The [for (;;)] loop of [cocofs_rm].  It has no bound of its own, so the
    model takes fuel; [None] means the fuel ran out. *)
Fixpoint rm_loop (fuel : nat) (fs : cocofs) (g : byte)
  : option (option rm_error * cocofs) :=
  match fuel with
  | O => None
  | S fuel' =>
      if COCOFS_NGRANULES <=? val g then Some (Some RM_INVALID_GRANULE, fs)
      else
        let gn := gmap_get (image_data fs) (val g) in
        if negb (gmap_entry_is_valid gn) || (val gn =? GMAP_FREE) then
          Some (Some RM_INVALID_GMAP_ENTRY, fs)
        else
          let fs' := {| image_data :=
                          gmap_set (image_data fs) (val g) (u8 GMAP_FREE);
                        free_granules := u32 (free_granules fs + 1) |} in
          if GMAP_IS_LAST (val gn) then Some (None, fs')
          else rm_loop fuel' fs' gn
  end.

(** [cocofs_rm]: [(None, fs')] is the [true] return, [(Some e, fs')] the
    [false] return after diagnostic [e]. *)
Definition cocofs_rm (fuel : nat) (fs : cocofs) (dir : Z)
  : option (option rm_error * cocofs) :=
  match rm_loop fuel fs (d_first_granule (image_data fs) dir) with
  | Some (None, fs') =>
      Some (None,
            {| image_data :=
                 memset (image_data fs') (dirent_off dir) xff SIZEOF_DIRENT;
               free_granules := free_granules fs' |})
  | r => r
  end.

(** ** Copying a file out: [cocofs_copyout] *)

(** The output file: [out_open] tells whether [open] succeeds, [out_data]
    is what has been written, [out_room] how many more bytes the device
    takes ([None]: no limit). *)
Record outfile : Type := mkout {
  out_open : bool;
  out_data : list byte;
  out_room : option Z
}.

(** [write(2)]: the new file and the return value. *)
Definition sys_write (o : outfile) (data : list byte) : outfile * Z :=
  match out_room o with
  | None =>
      ({| out_open := out_open o; out_data := out_data o ++ data;
          out_room := None |}, Z.of_nat (length data))
  | Some room =>
      let k := Z.min (Z.max room 0) (Z.of_nat (length data)) in
      ({| out_open := out_open o;
          out_data := out_data o ++ take (Z.to_nat k) data;
          out_room := Some (room - k) |}, k)
  end.

Inductive copyout_error : Type :=
| CO_OPEN             (* "unable to open output file" *)
| CO_CYCLE            (* "GRANULE MAP CYCLE DETECTED" *)
| CO_INVALID_GRANULE  (* "INVALID GRANULE #%d: %d" *)
| CO_INVALID_GMAP_ENTRY (* "INVALID GRANULE MAP ENTRY ..." *)
| CO_WRITE            (* "error writing" *)
| CO_LAST_NSEC.       (* "UNEXPECTED LAST_NSEC" *)

(** How the chain loop of [cocofs_copyout] is left. *)
Inductive copyout_exit : Type :=
| CO_Break (last_nsec : Z) (g : byte) (o : outfile)
| CO_Bad (e : copyout_error) (o : outfile).

(** The [for (;;)] loop of [cocofs_copyout]; [loopcnt] is passed along
    exactly as the source does: it is tested, and no statement of the
    loop changes it.  [None] means the fuel ran out. *)
Fixpoint copyout_loop (fuel : nat) (img : image) (o : outfile)
         (g : byte) (loopcnt : Z) : option copyout_exit :=
  match fuel with
  | O => None
  | S fuel' =>
      if COCOFS_NGRANULES <? loopcnt then Some (CO_Bad CO_CYCLE o)
      else if COCOFS_NGRANULES <=? val g then
        Some (CO_Bad CO_INVALID_GRANULE o)
      else
        let gn := gmap_get img (val g) in
        if negb (gmap_entry_is_valid gn) || (val gn =? GMAP_FREE) then
          Some (CO_Bad CO_INVALID_GMAP_ENTRY o)
        else if GMAP_IS_LAST (val gn) then
          Some (CO_Break (GMAP_LAST_NSEC (val gn)) g o)
        else
          let offset := cocofs_granule_to_offset (val g) in
          let '(o', rv) :=
            sys_write o (mem_read img offset COCOFS_BYTES_PER_GRANULE) in
          if negb (rv =? COCOFS_BYTES_PER_GRANULE) then
            Some (CO_Bad CO_WRITE o')
          else copyout_loop fuel' img o' gn loopcnt
  end.

(** [cocofs_copyout]: [(None, o)] is the [true] return. *)
Definition cocofs_copyout (fuel : nat) (fs : cocofs) (dir : Z) (o : outfile)
  : option (option copyout_error * outfile) :=
  let img := image_data fs in
  if negb (out_open o) then Some (Some CO_OPEN, o)
  else
    match copyout_loop fuel img o (d_first_granule img dir) 0 with
    | None => None
    | Some (CO_Bad e o') => Some (Some e, o')
    | Some (CO_Break last_nsec g o') =>
        if (last_nsec <? 1) || (COCOFS_SEC_PER_GRANULE <? last_nsec) then
          Some (Some CO_LAST_NSEC, o')
        else
          let last_nbytes := cocofs_dir_lastbytes (d_last_bytes img dir) in
          let last_nbytes :=
            if COCOFS_BYTES_PER_SEC <? last_nbytes then COCOFS_BYTES_PER_SEC
            else last_nbytes in
          let last_nbytes :=
            u32 (last_nsec * COCOFS_BYTES_PER_SEC
                 - (COCOFS_BYTES_PER_SEC - last_nbytes)) in
          let offset := cocofs_granule_to_offset (val g) in
          let '(o'', rv) := sys_write o' (mem_read img offset last_nbytes) in
          if negb (rv =? last_nbytes) then Some (Some CO_WRITE, o'')
          else Some (None, o'')
    end.

(** ** Granule allocation: [cocofs_galloc] *)

(** The probing loop; [n] is the number of iterations the guard
    [loopcnt <= COCOFS_NGRANULES] still allows.  [None] is the [abort()]
    behind the loop. *)
Fixpoint galloc_loop (n : nat) (fs : cocofs) (g : Z) : option (cocofs * Z) :=
  match n with
  | O => None
  | S n' =>
      if val (gmap_get (image_data fs) g) =? GMAP_FREE then
        Some ({| image_data :=
                   gmap_set (image_data fs) g (u8 GMAP_ALLOCATED);
                 free_granules := u32 (free_granules fs - 1) |}, g)
      else
        let next := u32 (g + 1) in
        let next := if next =? COCOFS_NGRANULES then 0 else next in
        galloc_loop n' fs next
  end.

Definition cocofs_galloc (fs : cocofs) (last : Z) : option (cocofs * Z) :=
  galloc_loop (Z.to_nat (COCOFS_NGRANULES + 1)) fs last.

(** ** Copying a file in: [cocofs_copyin] *)

(** The source file as the operation sees it: whether [open] succeeds,
    what [fstat] reports as [st_size] ([None]: it fails), and what a
    [pread] of [nbyte] bytes at [offset] delivers ([None]: it returns -1;
    fewer bytes than asked: a short read). *)
Record infile : Type := mkin {
  in_open : bool;
  in_fstat : option Z;
  in_pread : Z -> Z -> option (list byte)
}.

(** A file that holds [content] and reads without error. *)
Definition regular_file (content : list byte) : infile :=
  {| in_open := true;
     in_fstat := Some (Z.of_nat (length content));
     in_pread := fun nbyte offset =>
                   Some (take (Z.to_nat nbyte) (drop (Z.to_nat offset) content))
  |}.

(** [cocofs_pread(infd, img + buf, nbyte, offset)]: the buffer afterwards
    and the return value. *)
Definition cocofs_pread (f : infile) (img : image) (buf nbyte offset : Z)
  : image * Z :=
  match in_pread f nbyte offset with
  | None => (img, -1)
  | Some data =>
      let data := take (Z.to_nat nbyte) data in
      (mem_write img buf data, Z.of_nat (length data))
  end.

Inductive copyin_error : Type :=
| CI_OPEN    (* "unable to open" *)
| CI_STAT    (* "unable to stat" *)
| CI_NOSPC   (* strerror(ENOSPC) *)
| CI_NODIR   (* "No directory entries available" *)
| CI_READ.   (* "failed to read" *)

(** What a call of [cocofs_copyin] comes to: it returns ([None]: [true];
    [Some e]: [false] after diagnostic [e]) leaving a file system behind,
    or the process dies in [abort()] or a failed [assert]. *)
Inductive copyin_outcome : Type :=
| Returned (r : option copyin_error) (fs : cocofs)
| Crashed.

(** [uint8_t glist[COCOFS_NGRANULES]]. *)
Definition glist_get (glist : list byte) (i : Z) : byte :=
  default x00 (glist !! Z.to_nat i).

(** The search for a free directory entry. *)
Fixpoint find_free_dirent (n : nat) (img : image) (i : Z) : option Z :=
  match n with
  | O => None
  | S n' =>
      if val (d_type img i) =? COCOFS_DIRENT_TYPE_FREE then Some i
      else find_free_dirent n' img (i + 1)
  end.

(** The allocation loop, [n] granules still to get. *)
Fixpoint alloc_loop (n : nat) (fs : cocofs) (last : Z) (glist : list byte)
         (gi : Z) : option (cocofs * list byte) :=
  match n with
  | O => Some (fs, glist)
  | S n' =>
      match cocofs_galloc fs last with
      | None => None
      | Some (fs', g) =>
          alloc_loop n' fs' g (<[Z.to_nat gi := u8 g]> glist) (gi + 1)
      end
  end.

(** "Set the directory entry." *)
Definition set_dirent (img : image) (dir : Z) (name ext : list byte)
           (type enc first : byte) (lastbytes : Z) : image :=
  let img := mem_write img (dirent_off dir + D_NAME) (take 8 name) in
  let img := mem_write img (dirent_off dir + D_EXT) (take 3 ext) in
  let img := mem_set img (dirent_off dir + D_TYPE) type in
  let img := mem_set img (dirent_off dir + D_ENCODING) enc in
  let img := mem_set img (dirent_off dir + D_FIRST_GRANULE) first in
  mem_write img (dirent_off dir + D_LAST_BYTES)
            (cocofs_dir_set_lastbytes lastbytes).

Inductive write_exit : Type :=
| WL_Done (img : image)
| WL_ReadFailed (img : image)
| WL_Crashed.

(** How one pass through the body of the data loop ends: it falls through
    to the loop's increment, leaves by [goto bad], or dies in an [assert]. *)
Inductive body_exit : Type :=
| WB_Next (img : image)
| WB_ReadFailed (img : image)
| WB_Crashed.

Definition ceil_div (a b : Z) : Z :=
  a / b + (if a mod b =? 0 then 0 else 1).

(** [cursz = resid; if (cursz > COCOFS_BYTES_PER_GRANULE) cursz = ...]. *)
Definition cursz_of (resid : Z) : Z :=
  if COCOFS_BYTES_PER_GRANULE <? resid then COCOFS_BYTES_PER_GRANULE
  else resid.

(** The body of the data loop, for granule number [gi] of the file with
    [resid] bytes still to copy. *)
Definition write_body (f : infile) (img : image) (glist : list byte)
           (dir : Z) (name ext : list byte) (type enc : byte)
           (granules_needed gi resid : Z) : body_exit :=
  let cursz := cursz_of resid in
  let g := val (glist_get glist gi) in
  if negb (val (gmap_get img g) =? GMAP_ALLOCATED) then WB_Crashed
  else
    let buf := cocofs_granule_to_offset g in
    let '(img, rv) :=
      cocofs_pread f img buf cursz (gi * COCOFS_BYTES_PER_GRANULE) in
    if negb (rv =? cursz) then WB_ReadFailed img
    else if resid <=? COCOFS_BYTES_PER_GRANULE then
      (* This is the last granule of the file. *)
      let nsec := val (u8 (ceil_div resid COCOFS_BYTES_PER_SEC)) in
      if negb (gi + 1 =? granules_needed) then WB_Crashed
      else if negb (nsec <=? COCOFS_SEC_PER_GRANULE) then WB_Crashed
      else
        let img := gmap_set img g (u8 (Z.lor GMAP_LAST nsec)) in
        let lastbytes := resid mod COCOFS_BYTES_PER_SEC in
        let lastbytes :=
          if lastbytes =? 0 then COCOFS_BYTES_PER_SEC else lastbytes in
        (* Zero out the remainder of the granule. *)
        let trailing := COCOFS_BYTES_PER_GRANULE - resid in
        let img :=
          if trailing =? 0 then img
          else memset img (buf + resid) x00 trailing in
        if negb (lastbytes <=? COCOFS_BYTES_PER_SEC) then WB_Crashed
        else
          WB_Next (set_dirent img dir name ext type enc
                              (glist_get glist 0) lastbytes)
    else
      (* Point the current Granule Map entry at the next granule. *)
      if negb (gi + 1 <? granules_needed) then WB_Crashed
      else WB_Next (gmap_set img g (glist_get glist (gi + 1))).

(** The data loop [for (gi = 0, resid = st_size; resid != 0;
    gi++, resid -= cursz)].  [n] counts the entries of [glist] not yet
    used, so running out of them is the read past the end of the array. *)
Fixpoint write_loop (n : nat) (f : infile) (img : image) (glist : list byte)
         (dir : Z) (name ext : list byte) (type enc : byte)
         (granules_needed gi resid : Z) : write_exit :=
  if resid =? 0 then WL_Done img
  else
    match n with
    | O => WL_Crashed
    | S n' =>
        match write_body f img glist dir name ext type enc
                         granules_needed gi resid with
        | WB_Next img =>
            write_loop n' f img glist dir name ext type enc
                       granules_needed (gi + 1) (resid - cursz_of resid)
        | WB_ReadFailed img => WL_ReadFailed img
        | WB_Crashed => WL_Crashed
        end
    end.

(** The [bad:] exit: "Back out changes to the directory and granule map." *)
Definition rollback (img : image) (dir : option Z) (orig_gmap : list byte)
           (orig_free_granules : Z) : cocofs :=
  let img :=
    match dir with
    | Some i => memset img (dirent_off i) xff SIZEOF_DIRENT
    | None => img
    end in
  {| image_data := mem_write img granule_map_off orig_gmap;
     free_granules := orig_free_granules |}.

Definition cocofs_copyin (fs : cocofs) (f : infile) (name ext : list byte)
           (type enc : byte) : copyin_outcome :=
  let orig_gmap := mem_read (image_data fs) granule_map_off COCOFS_NGRANULES in
  let orig_free_granules := free_granules fs in
  let glist := replicate (Z.to_nat COCOFS_NGRANULES) xff in
  let bad img dir e :=
    Returned (Some e) (rollback img dir orig_gmap orig_free_granules) in
  if negb (in_open f) then Returned (Some CI_OPEN) fs
  else
    match in_fstat f with
    | None => bad (image_data fs) None CI_STAT
    | Some st_size =>
        if u32 (free_granules fs * COCOFS_BYTES_PER_GRANULE)
             <? st_size mod 2 ^ 64
        then bad (image_data fs) None CI_NOSPC
        else
          let granules_needed :=
            u32 (ceil_div st_size COCOFS_BYTES_PER_GRANULE) in
          if negb (granules_needed <=? free_granules fs) then Crashed
          else
            match find_free_dirent (Z.to_nat COCOFS_DIR_TRACK_NENTRIES)
                                   (image_data fs) 0 with
            | None => bad (image_data fs) None CI_NODIR
            | Some dir =>
                match alloc_loop (Z.to_nat granules_needed) fs
                                 (COCOFS_NGRANULES / 2) glist 0 with
                | None => Crashed
                | Some (fs1, glist) =>
                    match write_loop (Z.to_nat COCOFS_NGRANULES) f
                            (image_data fs1) glist dir name ext type enc
                            granules_needed 0 (u32 st_size) with
                    | WL_Done img =>
                        Returned None
                          {| image_data := img;
                             free_granules := free_granules fs1 |}
                    | WL_ReadFailed img => bad img (Some dir) CI_READ
                    | WL_Crashed => Crashed
                    end
                end
            end
    end.

(** ** File names: [cocofs_mapchar], [cocofs_conv_name], [cocofs_lookup]

    A C string is modelled by the list of its bytes before the
    terminating NUL. *)

Definition cocofs_mapchar (c : byte) : byte :=
  if (val "a"%byte <=? val c) && (val c <=? val "z"%byte)
  then u8 (val "A"%byte + (val c - val "a"%byte))
  else c.

(** The first loop of [cocofs_conv_name]: [i] bytes of the name are
    written.  [None] is [return false]; otherwise the loop is left with
    the name and what remains of [full]. *)
Fixpoint conv_name_base (full : list byte) (i : nat) (name : list byte)
  : option (list byte * list byte) :=
  match full with
  | [] => Some (name, [])
  | c :: full' =>
      if bool_decide (c = "."%byte) then Some (name, full')
      else if (i =? 8)%nat then None
      else conv_name_base full' (S i) (<[i := cocofs_mapchar c]> name)
  end.

(** The second loop, over what follows the first dot. *)
Fixpoint conv_name_ext (full : list byte) (i : nat) (ext : list byte)
  : option (list byte) :=
  match full with
  | [] => Some ext
  | c :: full' =>
      if (i =? 3)%nat then None
      else conv_name_ext full' (S i) (<[i := cocofs_mapchar c]> ext)
  end.

(** [cocofs_conv_name]: [Some (name, ext)] is the [true] return with the
    two arrays filled; after [return false] no caller reads them. *)
Definition cocofs_conv_name (full : list byte)
  : option (list byte * list byte) :=
  match conv_name_base full 0 (replicate 8 " "%byte) with
  | None => None
  | Some (name, full') =>
      match conv_name_ext full' 0 (replicate 3 " "%byte) with
      | None => None
      | Some ext => Some (name, ext)
      end
  end.

Definition cocofs_lookup (fs : cocofs) (lookup : list byte) : option Z :=
  match cocofs_conv_name lookup with
  | None => None
  | Some (name, ext) => cocofs_lookup_raw fs name ext
  end.

(** ** Name tables: [struct str2val] *)

Record str2val : Type := mk_str2val {
  s2v_str : list byte;
  s2v_val : Z
}.

(** A table is the list of its entries before the [{ NULL }] sentinel. *)
Fixpoint str2val_lookup_val (tab : list str2val) (v : byte)
  : option str2val :=
  match tab with
  | [] => None
  | e :: tab' =>
      if s2v_val e =? val v then Some e else str2val_lookup_val tab' v
  end.

(** [tolower] and [strcasecmp(s1, s2) == 0] in the C locale, the one the
    program runs in. *)
Definition tolower (c : byte) : byte :=
  if (val "A"%byte <=? val c) && (val c <=? val "Z"%byte)
  then u8 (val c + 32)
  else c.

Definition strcasecmp_eq (s1 s2 : list byte) : bool :=
  bool_decide (map tolower s1 = map tolower s2).

Fixpoint str2val_lookup_str (tab : list str2val) (str : list byte)
  : option str2val :=
  match tab with
  | [] => None
  | e :: tab' =>
      if strcasecmp_eq (s2v_str e) str then Some e
      else str2val_lookup_str tab' str
  end.

Definition cocofs_default_types_and_encodings : list str2val :=
  [ mk_str2val ["A"; "S"; "M"]%byte
      (Z.lor (Z.shiftl COCOFS_DIRENT_TYPE_DATA 8) COCOFS_DIRENT_ENC_ASCII);
    mk_str2val ["B"; "A"; "S"]%byte
      (Z.lor (Z.shiftl COCOFS_DIRENT_TYPE_BASIC 8) COCOFS_DIRENT_ENC_BINARY);
    mk_str2val ["B"; "I"; "N"]%byte
      (Z.lor (Z.shiftl COCOFS_DIRENT_TYPE_CODE 8) COCOFS_DIRENT_ENC_BINARY);
    mk_str2val ["D"; "A"; "T"]%byte
      (Z.lor (Z.shiftl COCOFS_DIRENT_TYPE_DATA 8) COCOFS_DIRENT_ENC_BINARY);
    mk_str2val ["T"; "X"; "T"]%byte
      (Z.lor (Z.shiftl COCOFS_DIRENT_TYPE_TEXT 8) COCOFS_DIRENT_ENC_ASCII);
    mk_str2val ["C"]%byte
      (Z.lor (Z.shiftl COCOFS_DIRENT_TYPE_DATA 8) COCOFS_DIRENT_ENC_ASCII);
    mk_str2val ["H"]%byte
      (Z.lor (Z.shiftl COCOFS_DIRENT_TYPE_DATA 8) COCOFS_DIRENT_ENC_ASCII) ].

Definition cocofs_dir_types : list str2val :=
  [ mk_str2val ["B"; "a"; "s"; "i"; "c"]%byte COCOFS_DIRENT_TYPE_BASIC;
    mk_str2val ["D"; "a"; "t"; "a"]%byte COCOFS_DIRENT_TYPE_DATA;
    mk_str2val ["C"; "o"; "d"; "e"]%byte COCOFS_DIRENT_TYPE_CODE;
    mk_str2val ["T"; "e"; "x"; "t"]%byte COCOFS_DIRENT_TYPE_TEXT ].

Definition cocofs_dir_encodings : list str2val :=
  [ mk_str2val ["B"; "i"; "n"; "a"; "r"; "y"]%byte COCOFS_DIRENT_ENC_BINARY;
    mk_str2val ["A"; "S"; "C"; "I"; "I"]%byte COCOFS_DIRENT_ENC_ASCII ].

(** The two digits of [%02x]. *)
Definition hex_digit (n : Z) : byte :=
  if n <? 10 then u8 (val "0"%byte + n) else u8 (val "a"%byte + (n - 10)).
Definition fmt_02x (b : byte) : list byte :=
  [hex_digit (val b / 16); hex_digit (val b mod 16)].

Definition cocofs_dir_type (t : byte) : list byte :=
  match str2val_lookup_val cocofs_dir_types t with
  | Some tab => s2v_str tab
  | None =>
      ["<"; "t"; "y"; "p"; "e"; " "; "0"; "x"]%byte ++ fmt_02x t ++ [">"%byte]
  end.

Definition cocofs_dir_encoding (e : byte) : list byte :=
  match str2val_lookup_val cocofs_dir_encodings e with
  | Some tab => s2v_str tab
  | None =>
      ["<"; "e"; "n"; "c"; "o"; "d"; "i"; "n"; "g"; " "; "0"; "x"]%byte
        ++ fmt_02x e ++ [">"%byte]
  end.

(** [cocofs_default_type_and_encoding]: the pair [( *typep, *encp )]. *)
Definition cocofs_default_type_and_encoding (ext : list byte) : byte * byte :=
  match str2val_lookup_str cocofs_default_types_and_encodings ext with
  | Some tab => (u8 (Z.shiftr (s2v_val tab) 8), u8 (Z.land (s2v_val tab) 0xff))
  | None => (u8 COCOFS_DIRENT_TYPE_DATA, u8 COCOFS_DIRENT_ENC_BINARY)
  end.

(** ** Parsing a command-line file name: [cocofs_parse_fname] *)

(** [strchr(s, c)] and [strrchr(s, c)] as the index found. *)
Fixpoint strchr (s : list byte) (c : byte) : option nat :=
  match s with
  | [] => None
  | b :: s' =>
      if bool_decide (b = c) then Some 0%nat
      else match strchr s' c with Some k => Some (S k) | None => None end
  end.

Fixpoint strrchr (s : list byte) (c : byte) : option nat :=
  match s with
  | [] => None
  | b :: s' =>
      match strrchr s' c with
      | Some k => Some (S k)
      | None => if bool_decide (b = c) then Some 0%nat else None
      end
  end.

(** The scan [for (cp1 = cp2; cp1 > fname; cp1--)] for an opening bracket,
    with pointers as indices into [fname]; index 0 is never looked at. *)
Fixpoint find_bracket (fname : list byte) (cp1 : nat) : nat :=
  match cp1 with
  | O => O
  | S k =>
      if bool_decide (fname !! cp1 = Some "["%byte) then cp1
      else find_bracket fname k
  end.

Inductive parse_error : Type :=
| PF_MULTIPLE_TYPES      (* "multiple types specified" *)
| PF_MULTIPLE_ENCODINGS  (* "multiple encodings specified" *)
| PF_UNKNOWN_QUALIFIER   (* "unknown type/encoding qualifier" *)
| PF_INVALID_NAME.       (* "invalid file name" *)

(** What a call of [cocofs_parse_fname] comes to: [true] with the outputs
    (and [fname] as the call leaves it, cut before the qualifiers),
    [false] after a diagnostic, or a read before the start of an empty
    [fname]. *)
Inductive parse_outcome : Type :=
| Parsed (fname name ext : list byte) (type enc : byte)
| Rejected (e : parse_error)
| ReadBeforeStart.

Record qualifiers : Type := mk_qualifiers {
  q_type : byte;
  q_enc : byte;
  have_type : bool;
  have_enc : bool
}.

(** One pass through the body of the qualifier loop. *)
Definition parse_qualifier (st : qualifiers) (cp1 : list byte)
  : parse_error + qualifiers :=
  match str2val_lookup_str cocofs_dir_types cp1 with
  | Some tab =>
      if have_type st then inl PF_MULTIPLE_TYPES
      else inr {| q_type := u8 (s2v_val tab); q_enc := q_enc st;
                  have_type := true; have_enc := have_enc st |}
  | None =>
      match str2val_lookup_str cocofs_dir_encodings cp1 with
      | Some tab =>
          if have_enc st then inl PF_MULTIPLE_ENCODINGS
          else inr {| q_type := q_type st; q_enc := u8 (s2v_val tab);
                      have_type := have_type st; have_enc := true |}
      | None => inl PF_UNKNOWN_QUALIFIER
      end
  end.

(** The qualifier loop: [qual1], then [qual2] when there is one. *)
Fixpoint parse_qualifiers (st : qualifiers) (quals : list (list byte))
  : parse_error + qualifiers :=
  match quals with
  | [] => inr st
  | cp1 :: quals' =>
      match parse_qualifier st cp1 with
      | inl e => inl e
      | inr st' => parse_qualifiers st' quals'
      end
  end.

(** "Check for qualifiers, separate them from the file name and
    separators": the file name left in [fname] and the qualifiers found. *)
Definition split_qualifiers (fname : list byte)
  : list byte * list (list byte) :=
  let cp2 := (length fname - 1)%nat in
  if bool_decide (fname !! cp2 = Some "]"%byte) then
    let cp1 := find_bracket fname cp2 in
    if (0 <? cp1)%nat then
      let quals := take (cp2 - S cp1) (drop (S cp1) fname) in
      match strchr quals ","%byte with
      | Some k => (take cp1 fname, [take k quals; drop (S k) quals])
      | None => (take cp1 fname, [quals])
      end
    else (fname, [])
  else (fname, []).

(** The initial values of [type], [enc], [have_type] and [have_enc]. *)
Definition no_qualifiers : qualifiers :=
  {| q_type := u8 COCOFS_DIRENT_TYPE_DATA;
     q_enc := u8 COCOFS_DIRENT_ENC_BINARY;
     have_type := false; have_enc := false |}.

Definition cocofs_parse_fname (fname : list byte) : parse_outcome :=
  match fname with
  | [] => ReadBeforeStart
  | _ =>
      let '(fname, quals) := split_qualifiers fname in
      match parse_qualifiers no_qualifiers quals with
      | inl e => Rejected e
      | inr st =>
          (* Look only at the final path component. *)
          let cp1 :=
            match strrchr fname "/"%byte with
            | Some k => drop (S k) fname
            | None => fname
            end in
          match cocofs_conv_name cp1 with
          | None => Rejected PF_INVALID_NAME
          | Some (name, ext) =>
              let '(type, enc) :=
                if negb (have_type st) && negb (have_enc st) then
                  match strchr cp1 "."%byte with
                  | Some k =>
                      cocofs_default_type_and_encoding (drop (S k) cp1)
                  | None => (q_type st, q_enc st)
                  end
                else (q_type st, q_enc st) in
              Parsed fname name ext type enc
          end
      end
  end.

(** ** Writing the image back: [cocofs_pwrite], [cocofs_save] *)

(** The image file behind [fs->fd]: the bytes it holds, whether [lseek]
    succeeds, and what [write] returns when asked for [n] bytes (-1: an
    error; fewer than [n]: a short write). *)
Record imagefile : Type := mkimagefile {
  if_data : list byte;
  if_seek : bool;
  if_write : Z -> Z
}.

(** [cocofs_pwrite(d, buf, nbyte, offset)]: the file afterwards and the
    return value. *)
Definition cocofs_pwrite (d : imagefile) (buf : list byte) (nbyte offset : Z)
  : imagefile * Z :=
  if negb (if_seek d) then (d, -1)
  else
    let rv := if_write d nbyte in
    let k := Z.to_nat (Z.min rv nbyte) in
    ({| if_data := take (Z.to_nat offset) (if_data d) ++ take k buf
                     ++ drop (Z.to_nat offset + k) (if_data d);
        if_seek := if_seek d;
        if_write := if_write d |}, rv).

(** [cocofs_save]: the return value and the file afterwards. *)
Definition cocofs_save (fs : cocofs) (d : imagefile) : bool * imagefile :=
  let '(d', rv) := cocofs_pwrite d (image_data fs) COCOFS_TOTALSIZE 0 in
  (rv =? COCOFS_TOTALSIZE, d').

(** ** Vocabulary of the statements *)

(** Slot [i] is one [cocofs_lookup_raw] stops at: it is not skipped as
    free, and its name and extension fields equal the arguments. *)
Definition lookup_matches (img : image) (name ext : list byte) (i : Z) : Prop :=
  val (d_type img i) <> COCOFS_DIRENT_TYPE_FREE /\
  d_name img i = take 8 name /\
  d_ext img i = take 3 ext.

(** The buffer has the size [cocofs_alloc] gives it. *)
Definition image_ok (img : image) : Prop :=
  length img = Z.to_nat COCOFS_TOTALSIZE.

(** The number of Free entries among the 68 entries of the Granule Map. *)
Definition count_free (img : image) : Z :=
  Z.of_nat (length (filter (fun b => val b = GMAP_FREE)
                           (granule_map_bytes img))).

(** The free-granule counter agrees with the map, as it does after
    [cocofs_format] and [cocofs_load]. *)
Definition counter_consistent (fs : cocofs) : Prop :=
  free_granules fs = count_free (image_data fs).

(** What the allocation loop has done once it has filled the entries
    [lo .. hi-1] of [glist], taking the image from [img] to [img1]: the
    granules listed are in range, pairwise different, were Free and are now
    marked allocated, and no other byte of the image has changed. *)
Definition alloc_post (img img1 : image) (glist : list byte) (lo hi : Z)
  : Prop :=
  image_ok img1 /\ length glist = 68%nat /\
  (forall j, lo <= j < hi ->
     0 <= val (glist_get glist j) < 68 /\
     val (gmap_get img (val (glist_get glist j))) = GMAP_FREE /\
     val (gmap_get img1 (val (glist_get glist j))) = GMAP_ALLOCATED) /\
  (forall i j, lo <= i < hi -> lo <= j < hi ->
     glist_get glist i = glist_get glist j -> i = j) /\
  (forall off, 0 <= off ->
     (forall j, lo <= j < hi ->
        off <> granule_map_off + val (glist_get glist j)) ->
     mem_get img1 off = mem_get img off).

(** A state the C program can hold: the buffer has its size and the
    counter is an [unsigned int]. *)
Definition fs_ok (fs : cocofs) : Prop :=
  image_ok (image_data fs) /\ 0 <= free_granules fs < UINT_MOD.

(** The map entry of granule number [j] in a chain of [k] granules listed
    in [glist] whose last granule uses [nsec] sectors. *)
Definition chain_entry (glist : list byte) (k nsec j : Z) : byte :=
  if j + 1 <? k then glist_get glist (j + 1)
  else u8 (Z.lor GMAP_LAST nsec).

(** [fstat] reports an [off_t]. *)
Definition infile_ok (f : infile) : Prop :=
  forall L, in_fstat f = Some L -> - 2 ^ 63 <= L < 2 ^ 63.

(** The state [fs'] left by a successful add of [L] bytes from [f] to the
    state [fs]: it used directory slot [dir] and the [k = ceil(L / 2304)]
    granules listed in [glist], which were Free before, are pairwise
    different, and now form the chain of the file and hold its bytes. *)
Definition copyin_post (fs fs' : cocofs) (f : infile) (dir : Z)
           (glist : list byte) (L : Z) : Prop :=
  let k := ceil_div L 2304 in
  let img := image_data fs in
  let img' := image_data fs' in
  in_fstat f = Some L /\ 0 <= L /\ 0 <= k <= 68 /\ k <= free_granules fs /\
  find_free_dirent (Z.to_nat COCOFS_DIR_TRACK_NENTRIES) img 0 = Some dir /\
  image_ok img' /\
  free_granules fs' = free_granules fs - k /\
  (forall j, 0 <= j < k ->
     0 <= val (glist_get glist j) < 68 /\
     val (gmap_get img (val (glist_get glist j))) = GMAP_FREE) /\
  (forall i j, 0 <= i < k -> 0 <= j < k ->
     glist_get glist i = glist_get glist j -> i = j) /\
  (forall j, 0 <= j < k ->
     gmap_get img' (val (glist_get glist j))
     = chain_entry glist k (ceil_div (L - (k - 1) * 2304) 256) j /\
     exists d,
       in_pread f (cursz_of (L - j * 2304)) (j * 2304) = Some d /\
       (Z.to_nat (cursz_of (L - j * 2304)) <= length d)%nat /\
       mem_read img' (cocofs_granule_to_offset (val (glist_get glist j)))
                (cursz_of (L - j * 2304))
       = take (Z.to_nat (cursz_of (L - j * 2304))) d) /\
  (0 < L ->
     d_first_granule img' dir = glist_get glist 0 /\
     d_last_bytes img' dir =
       cocofs_dir_set_lastbytes
         (if (L - (k - 1) * 2304) mod 256 =? 0 then 256
          else (L - (k - 1) * 2304) mod 256)).

(** The first step of a chain walk from granule [g] is already invalid:
    the index is out of range, or its map entry is invalid or Free. *)
Definition head_invalid (img : image) (g : byte) : Prop :=
  COCOFS_NGRANULES <= val g \/
  gmap_entry_is_valid (gmap_get img (val g)) = false \/
  val (gmap_get img (val g)) = GMAP_FREE.


(** [s] padded with blanks to [n] bytes, as a name field holds it. *)
Definition pad (n : nat) (s : list byte) : list byte :=
  s ++ replicate (n - length s) " "%byte.

(** A byte [cocofs_mapchar] leaves alone: anything but a lower-case
    letter. *)
Definition upper_only (c : byte) : Prop := cocofs_mapchar c = c.

(** A type and an encoding the directory format knows. *)
Definition qualifiers_ok (t c : byte) : Prop :=
  val t <= COCOFS_DIRENT_TYPE_TEXT /\
  (val c = COCOFS_DIRENT_ENC_BINARY \/ val c = COCOFS_DIRENT_ENC_ASCII).

(** [img'] holds every granule that is in use in [img] as [img] does: the
    same map entry and the same data. *)
Definition granules_kept (img img' : image) : Prop :=
  forall g, 0 <= g < COCOFS_NGRANULES ->
    val (gmap_get img g) <> GMAP_FREE ->
    gmap_get img' g = gmap_get img g /\
    forall off, cocofs_granule_to_offset g <= off
                < cocofs_granule_to_offset g + COCOFS_BYTES_PER_GRANULE ->
                mem_get img' off = mem_get img off.

(** ** Concrete states used in the examples *)

(** A formatted image in which slot 0 is free (type byte 0xFF) but its
    first name byte is 0x00, as in an image written by other software. *)
Definition stale_slot_fs : cocofs :=
  {| image_data := mem_set (image_data cocofs_format) (dirent_off 0 + D_NAME) x00;
     free_granules := COCOFS_NGRANULES |}.

(** A source that opens, reports one byte, and cannot be read. *)
Definition unreadable_file : infile :=
  {| in_open := true; in_fstat := Some 1; in_pread := fun _ _ => None |}.


(** Slot 0 names a file whose head is granule 0, and granule 0 links to
    itself: a cycle of length one. *)
Definition cyclic_fs : cocofs :=
  let img := image_data cocofs_format in
  let img := mem_set img (dirent_off 0 + D_TYPE) x01 in
  let img := mem_set img (dirent_off 0 + D_FIRST_GRANULE) x00 in
  {| image_data := gmap_set img 0 x00;
     free_granules := COCOFS_NGRANULES - 1 |}.

(** The name ["A       "] and the blank extension ["   "]. *)
Definition name_A : list byte := [x41; x20; x20; x20; x20; x20; x20; x20].
Definition ext_blank : list byte := [x20; x20; x20].

(** Slot 0 holds an entry named ["A       "."   "] whose type byte is 0x04. *)
Definition odd_type_fs : cocofs :=
  let img := image_data cocofs_format in
  let img := mem_write img (dirent_off 0 + D_NAME) name_A in
  let img := mem_write img (dirent_off 0 + D_EXT) ext_blank in
  {| image_data := mem_set img (dirent_off 0 + D_TYPE) x04;
     free_granules := COCOFS_NGRANULES |}.

(** Source contents: one full granule and one byte more, and the 5000
    bytes of a three-granule file. *)
Definition one_granule_plus_one : list byte :=
  replicate (Z.to_nat (COCOFS_BYTES_PER_GRANULE + 1)) x41.
Definition five_thousand_bytes : list byte :=
  replicate (Z.to_nat 5000) x2a.

(** A new output file on a device with room. *)
Definition fresh_output : outfile :=
  {| out_open := true; out_data := []; out_room := None |}.

(** An image file that takes every write, and the two bytes of a small
    source file. *)
Definition empty_imagefile : imagefile :=
  {| if_data := []; if_seek := true; if_write := fun n => n |}.
Definition two_bytes : list byte := [x48; x49].

(** The name ["B       "]. *)
Definition name_B : list byte := [x42; x20; x20; x20; x20; x20; x20; x20].

(* ===================================================================== *)
(** * Part II: properties                                                 *)
(* ===================================================================== *)

(** ** Bytes *)

Lemma val_range (b : byte) : 0 <= val b <= 255.
Proof.
  unfold val. pose proof (Byte.to_N_bounded b). lia.
Qed.

Lemma val_inj (a b : byte) : val a = val b -> a = b.
Proof.
  unfold val. intros H. apply N2Z.inj in H.
  pose proof (Byte.of_to_N a) as Ha. pose proof (Byte.of_to_N b) as Hb.
  rewrite H in Ha. congruence.
Qed.

Lemma val_u8 (z : Z) : val (u8 z) = z mod 256.
Proof.
  unfold val, u8.
  assert (Hr : 0 <= z mod 256 < 256) by (apply Z.mod_pos_bound; lia).
  destruct (Byte.of_N (Z.to_N (z mod 256))) as [b|] eqn:E.
  - apply Byte.to_of_N in E. rewrite E. lia.
  - apply Byte.of_N_None_iff in E. lia.
Qed.

Lemma val_u8_small (z : Z) : 0 <= z < 256 -> val (u8 z) = z.
Proof. intros H. rewrite val_u8. apply Z.mod_small. exact H. Qed.

Lemma u8_val (b : byte) : u8 (val b) = b.
Proof.
  apply val_inj. rewrite val_u8_small; [reflexivity|].
  pose proof (val_range b). lia.
Qed.

Lemma u32_small (z : Z) : 0 <= z < 2 ^ 32 -> u32 z = z.
Proof. intros H. unfold u32, UINT_MOD. apply Z.mod_small. exact H. Qed.

(** ** The small functions on sample values *)

Example granule_0_offset : cocofs_granule_to_offset 0 = 0.
Proof. reflexivity. Qed.

Example granule_33_offset : cocofs_granule_to_offset 33 = 16 * 4608 + 2304.
Proof. reflexivity. Qed.

(** Granule 34 is the first one behind the directory track. *)
Example granule_34_offset : cocofs_granule_to_offset 34 = 18 * 4608.
Proof. reflexivity. Qed.

Example granule_67_offset :
  cocofs_granule_to_offset 67 + COCOFS_BYTES_PER_GRANULE = COCOFS_TOTALSIZE.
Proof. reflexivity. Qed.

Example valid_entries :
  map gmap_entry_is_valid [x00; x43; x44; x45; xbf; xc0; xc9; xca; xfe; xff]
  = [true; true; true; false; false; true; true; false; false; true].
Proof. reflexivity. Qed.

Example lastbytes_sample : cocofs_dir_lastbytes [x01; x00] = 256.
Proof. reflexivity. Qed.

Example set_lastbytes_sample : cocofs_dir_set_lastbytes 136 = [x00; x88].
Proof. reflexivity. Qed.

(** A file of 5000 bytes needs three granules; its last granule holds
    392 bytes in two sectors, 136 of them in the last sector. *)
Example ceil_div_5000 :
  ceil_div 5000 COCOFS_BYTES_PER_GRANULE = 3 /\
  ceil_div (5000 - 2 * 2304) COCOFS_BYTES_PER_SEC = 2 /\
  (5000 - 2 * 2304) mod COCOFS_BYTES_PER_SEC = 136.
Proof. repeat split. Qed.

Example terminal_sample :
  u8 (Z.lor GMAP_LAST 2) = xc2 /\ GMAP_IS_LAST (val xc2) = true /\
  GMAP_LAST_NSEC (val xc2) = 2.
Proof. repeat split. Qed.

Example strip_sample :
  strip_trailing_spaces [x41; x20; x42; x20; x20] = [x41; x20; x42; x00; x00].
Proof. reflexivity. Qed.

(** ** The validity predicate of the Granule Map *)

Lemma gmap_entry_is_valid_iff (b : byte) :
  gmap_entry_is_valid b = true <->
  val b <= 68 \/ 0xc0 <= val b <= 0xc9 \/ val b = 0xff.
Proof.
  unfold gmap_entry_is_valid, COCOFS_NGRANULES, COCOFS_GRANULES_PER_TRACK,
    COCOFS_TRACKS, COCOFS_SEC_PER_TRACK, COCOFS_SEC_PER_GRANULE, GMAP_FREE.
  change ((35 - 1) * (18 / 9)) with 68.
  rewrite !orb_true_iff, andb_true_iff, !Z.leb_le, Z.eqb_eq. tauto.
Qed.

(** C3.  The validity predicate accepts the byte 68 (0x44), which is neither
    the Free sentinel, nor a Terminal tag, nor one of the granule indices
    0..67: the source compares with [<= COCOFS_NGRANULES] where its own
    format comment gives 0 - 67 as the link values. *)
Theorem gmap_entry_is_valid_accepts_68 :
  gmap_entry_is_valid x44 = true /\
  val x44 = 68 /\
  ~ (val x44 = 0xff \/ 0xc0 <= val x44 <= 0xc9 \/ 0 <= val x44 <= 67).
Proof.
  split; [reflexivity|]. split; [reflexivity|].
  change (val x44) with 68. lia.
Qed.

(** ** Geometry, evaluated *)

Lemma NGRANULES_eq : COCOFS_NGRANULES = 68.
Proof. reflexivity. Qed.
Lemma BYTES_PER_GRANULE_eq : COCOFS_BYTES_PER_GRANULE = 2304.
Proof. reflexivity. Qed.
Lemma TOTALSIZE_eq : COCOFS_TOTALSIZE = 161280.
Proof. reflexivity. Qed.
Lemma NENTRIES_eq : COCOFS_DIR_TRACK_NENTRIES = 72.
Proof. reflexivity. Qed.
Lemma granule_map_off_eq : granule_map_off = 78592.
Proof. reflexivity. Qed.
Lemma directory_off_eq : directory_off = 78848.
Proof. reflexivity. Qed.

Ltac geom :=
  change COCOFS_NGRANULES with 68 in *;
  change COCOFS_BYTES_PER_GRANULE with 2304 in *;
  change COCOFS_BYTES_PER_SEC with 256 in *;
  change COCOFS_SEC_PER_GRANULE with 9 in *;
  change COCOFS_TOTALSIZE with 161280 in *;
  change COCOFS_DIR_TRACK_NENTRIES with 72 in *;
  change SIZEOF_DIRENT with 32 in *;
  change granule_map_off with 78592 in *;
  change directory_off with 78848 in *;
  change GMAP_FREE with 255 in *;
  change GMAP_ALLOCATED with 254 in *;
  change GMAP_LAST with 192 in *;
  change COCOFS_DIRENT_TYPE_FREE with 255 in *;
  change COCOFS_DIRENT_TYPE_TEXT with 3 in *;
  change D_NAME with 0 in *; change D_EXT with 8 in *;
  change D_TYPE with 11 in *; change D_ENCODING with 12 in *;
  change D_FIRST_GRANULE with 13 in *; change D_LAST_BYTES with 14 in *.

(** Granule [g] of the data area starts at [2304 * g], two granules later
    once the directory track has been passed. *)
Lemma granule_to_offset_eq (g : Z) :
  0 <= g ->
  cocofs_granule_to_offset g = 2304 * (if 34 <=? g then g + 2 else g).
Proof.
  intros Hg.
  unfold cocofs_granule_to_offset, cocofs_granule_to_track,
    cocofs_track_to_offset, COCOFS_GRANULES_PER_TRACK, COCOFS_DIR_TRACK,
    COCOFS_SEC_PER_TRACK, COCOFS_SEC_PER_GRANULE.
  geom. change (18 / 9) with 2. change (18 * 256) with 4608.
  change 1 with (Z.ones 1) at 1. rewrite Z.land_ones by lia.
  change (2 ^ 1) with 2.
  pose proof (Z.div_mod g 2 ltac:(lia)) as Hdm.
  pose proof (Z.mod_pos_bound g 2 ltac:(lia)) as Hm.
  destruct (Z.leb_spec 17 (g / 2)); destruct (Z.leb_spec 34 g);
    destruct (Z.eqb_spec (g mod 2) 0); lia.
Qed.

(** ** The image buffer: reads after writes *)

Lemma length_mem_set img off b : length (mem_set img off b) = length img.
Proof. apply length_insert. Qed.

Lemma length_mem_write img off data :
  length (mem_write img off data) = length img.
Proof. apply length_inserts. Qed.

Lemma length_memset img off b n : length (memset img off b n) = length img.
Proof. apply length_mem_write. Qed.

Lemma mem_get_set_eq img off b :
  0 <= off -> (Z.to_nat off < length img)%nat ->
  mem_get (mem_set img off b) off = b.
Proof.
  intros _ H. unfold mem_get, mem_set.
  rewrite list_lookup_insert_eq by exact H. reflexivity.
Qed.

Lemma mem_get_set_ne img off off' b :
  0 <= off -> 0 <= off' -> off <> off' ->
  mem_get (mem_set img off b) off' = mem_get img off'.
Proof.
  intros H1 H2 H3. unfold mem_get, mem_set.
  rewrite list_lookup_insert_ne by lia. reflexivity.
Qed.

Lemma mem_get_write_out img off data off' :
  0 <= off -> 0 <= off' ->
  off' < off \/ off + Z.of_nat (length data) <= off' ->
  mem_get (mem_write img off data) off' = mem_get img off'.
Proof.
  intros H1 H2 [H3|H3]; unfold mem_get, mem_write.
  - rewrite list_lookup_inserts_lt by lia. reflexivity.
  - rewrite list_lookup_inserts_ge by lia. reflexivity.
Qed.

Lemma mem_get_write_in img off data off' :
  0 <= off -> off <= off' < off + Z.of_nat (length data) ->
  (Z.to_nat off + length data <= length img)%nat ->
  mem_get (mem_write img off data) off' =
  default x00 (data !! Z.to_nat (off' - off)).
Proof.
  intros H1 H2 H3. unfold mem_get, mem_write.
  rewrite list_lookup_inserts by lia.
  replace (Z.to_nat off' - Z.to_nat off)%nat with (Z.to_nat (off' - off))
    by lia.
  reflexivity.
Qed.

Lemma mem_read_lookup img off n (i : nat) :
  mem_read img off n !! i =
  if decide (i < Z.to_nat n)%nat then img !! (Z.to_nat off + i)%nat else None.
Proof.
  unfold mem_read. destruct (decide (i < Z.to_nat n)%nat).
  - rewrite lookup_take_lt by assumption. apply lookup_drop.
  - apply lookup_take_ge. lia.
Qed.

Lemma length_mem_read img off n :
  0 <= off -> 0 <= n -> (Z.to_nat (off + n) <= length img)%nat ->
  length (mem_read img off n) = Z.to_nat n.
Proof.
  intros H1 H2 H3. unfold mem_read. rewrite length_take, length_drop. lia.
Qed.

(** Two buffers of one length that agree on a range read the same there. *)
Lemma mem_read_ext img img' off n :
  0 <= off -> length img = length img' ->
  (forall k, off <= k < off + n -> mem_get img k = mem_get img' k) ->
  mem_read img off n = mem_read img' off n.
Proof.
  intros Hoff Hlen Hk. apply list_eq. intros i.
  rewrite !mem_read_lookup. destruct (decide (i < Z.to_nat n)%nat); [|reflexivity].
  specialize (Hk (off + Z.of_nat i)). unfold mem_get in Hk.
  replace (Z.to_nat (off + Z.of_nat i)) with (Z.to_nat off + i)%nat in Hk by lia.
  destruct (decide (Z.to_nat off + i < length img)%nat) as [Hin|Hout].
  - destruct (lookup_lt_is_Some_2 img _ Hin) as [x Hx].
    assert (Hin' : (Z.to_nat off + i < length img')%nat) by lia.
    destruct (lookup_lt_is_Some_2 img' _ Hin') as [y Hy].
    rewrite Hx, Hy in *. simpl in Hk. f_equal. apply Hk. lia.
  - rewrite (lookup_ge_None_2 img) by lia.
    rewrite (lookup_ge_None_2 img') by lia. reflexivity.
Qed.

Lemma mem_read_write_eq img off data :
  0 <= off -> (Z.to_nat off + length data <= length img)%nat ->
  mem_read (mem_write img off data) off (Z.of_nat (length data)) = data.
Proof.
  intros H1 H2. apply list_eq. intros i. rewrite mem_read_lookup.
  unfold mem_write. rewrite Nat2Z.id.
  destruct (decide (i < length data)%nat).
  - rewrite list_lookup_inserts by lia. f_equal. lia.
  - symmetry. apply lookup_ge_None_2. lia.
Qed.

(** Writing back what was read changes nothing. *)
Lemma mem_write_read_id img off n :
  0 <= off -> mem_write img off (mem_read img off n) = img.
Proof.
  intros H. apply list_eq. intros i. unfold mem_write.
  destruct (decide (i < Z.to_nat off)%nat).
  { rewrite list_lookup_inserts_lt by lia. reflexivity. }
  destruct (decide (Z.to_nat off + length (mem_read img off n) <= i)%nat).
  { rewrite list_lookup_inserts_ge by lia. reflexivity. }
  assert (Hlen : (length (mem_read img off n) <= length img - Z.to_nat off)%nat).
  { unfold mem_read. rewrite length_take, length_drop. lia. }
  rewrite list_lookup_inserts by lia.
  rewrite mem_read_lookup.
  assert (Hl : (length (mem_read img off n) <= Z.to_nat n)%nat).
  { unfold mem_read. rewrite length_take. lia. }
  destruct (decide (i - Z.to_nat off < Z.to_nat n)%nat); [|lia].
  f_equal. lia.
Qed.

(** ** Directory lookup and listing *)

Lemma lookup_raw_from_Some n img i0 name ext i :
  lookup_raw_from n img i0 name ext = Some i <->
  (i0 <= i < i0 + Z.of_nat n /\ lookup_matches img name ext i /\
   forall j, i0 <= j < i -> ~ lookup_matches img name ext j).
Proof.
  revert i0. induction n as [|n IH]; intros i0.
  - simpl. split; [discriminate|]. lia.
  - cbn [lookup_raw_from]. unfold memcmp_eq.
    assert (Hskip : ~ lookup_matches img name ext i0 ->
      (lookup_raw_from n img (i0 + 1) name ext = Some i <->
       i0 <= i < i0 + Z.of_nat (S n) /\ lookup_matches img name ext i /\
       (forall j, i0 <= j < i -> ~ lookup_matches img name ext j))).
    { intros Hno. rewrite IH. split.
      - intros (Hr & Hm & Hf). split; [lia|]. split; [exact Hm|].
        intros j Hj. destruct (decide (j = i0)) as [->|]; [exact Hno|].
        apply Hf. lia.
      - intros (Hr & Hm & Hf).
        assert (i <> i0) by (intros ->; contradiction).
        split; [lia|]. split; [exact Hm|]. intros j Hj. apply Hf. lia. }
    destruct (Z.eqb_spec (val (d_type img i0)) COCOFS_DIRENT_TYPE_FREE) as [Ht|Ht].
    { apply Hskip. intros (H & _). contradiction. }
    destruct (bool_decide_reflect (d_name img i0 = take 8 name)) as [Hn|Hn];
      cbn [negb].
    2:{ apply Hskip. intros (_ & H & _). contradiction. }
    destruct (bool_decide_reflect (d_ext img i0 = take 3 ext)) as [He|He];
      cbn [negb].
    2:{ apply Hskip. intros (_ & _ & H). contradiction. }
    assert (Hm0 : lookup_matches img name ext i0) by (repeat split; assumption).
    split.
    + intros [= <-]. split; [lia|]. split; [exact Hm0|]. intros j Hj. lia.
    + intros (Hr & Hm & Hf). f_equal.
      destruct (decide (i = i0)) as [->|]; [reflexivity|].
      exfalso. apply (Hf i0); [lia|exact Hm0].
Qed.

Lemma lookup_raw_from_None n img i0 name ext :
  lookup_raw_from n img i0 name ext = None <->
  forall j, i0 <= j < i0 + Z.of_nat n -> ~ lookup_matches img name ext j.
Proof.
  revert i0. induction n as [|n IH]; intros i0.
  - simpl. split; [intros _ j Hj; lia|reflexivity].
  - destruct (lookup_raw_from (S n) img i0 name ext) as [i|] eqn:E.
    + apply lookup_raw_from_Some in E as (Hr & Hm & _).
      split; [discriminate|]. intros H. exfalso. exact (H i Hr Hm).
    + split; [|reflexivity]. intros _ j Hj Hm.
      assert (Hex : exists k, i0 <= k <= j /\ lookup_matches img name ext k /\
                 forall j', i0 <= j' < k -> ~ lookup_matches img name ext j').
      { clear E IH.
        assert (Hgen : forall m : nat, forall j0, i0 <= j0 -> j0 - i0 = Z.of_nat m ->
                  lookup_matches img name ext j0 ->
                  exists k, i0 <= k <= j0 /\ lookup_matches img name ext k /\
                    forall j', i0 <= j' < k -> ~ lookup_matches img name ext j').
        { induction m as [m IHm] using lt_wf_ind. intros j0 Hj0 Hd Hm0.
          destruct (lookup_raw_from (Z.to_nat (j0 - i0)) img i0 name ext)
            as [k|] eqn:Ek.
          - apply lookup_raw_from_Some in Ek as (Hr & Hmk & Hf).
            exists k. split; [lia|]. split; assumption.
          - exists j0. split; [lia|]. split; [exact Hm0|].
            intros j' Hj' Hm'.
            destruct (IHm (Z.to_nat (j' - i0)) ltac:(lia) j' ltac:(lia)
                        ltac:(lia) Hm') as (k & Hk & Hmk & Hfk).
            assert (Hs : lookup_raw_from (Z.to_nat (j0 - i0)) img i0 name ext
                         = Some k).
            { apply lookup_raw_from_Some. split; [lia|]. split; assumption. }
            congruence. }
        apply (Hgen (Z.to_nat (j - i0)) j); [lia|lia|exact Hm]. }
      destruct Hex as (k & Hk & Hmk & Hfk).
      assert (Hs : lookup_raw_from (S n) img i0 name ext = Some k).
      { apply lookup_raw_from_Some. split; [lia|]. split; assumption. }
      congruence.
Qed.

Lemma enumerate_from_elem n fs i0 i s :
  (i, s) ∈ enumerate_from n fs i0 ->
  i0 <= i < i0 + Z.of_nat n /\
  val (d_type (image_data fs) i) <= COCOFS_DIRENT_TYPE_TEXT.
Proof.
  revert i0. induction n as [|n IH]; intros i0; cbn [enumerate_from].
  - intros H. apply elem_of_nil in H. contradiction.
  - destruct (Z.ltb_spec COCOFS_DIRENT_TYPE_TEXT
                         (val (d_type (image_data fs) i0))) as [Hlt|Hge].
    + intros H. apply IH in H. lia.
    + intros H. apply elem_of_cons in H as [[= -> ->]|H].
      * split; [lia|exact Hge].
      * apply IH in H. lia.
Qed.

(** C10.  [cocofs_lookup_raw] returns slot [i] exactly when [i] is the
    lowest slot that is not skipped (type byte different from 0xFF) and
    whose name and extension bytes equal the arguments, and nothing when
    there is no such slot; a matching slot whose type byte is above 0x03
    (hence none of Basic, Data, Code, Text) still makes the lookup succeed,
    at that slot or a lower matching one, although the directory listing
    never shows that slot. *)
Theorem cocofs_lookup_raw_spec (fs : cocofs) (name ext : list byte) :
  (forall i, cocofs_lookup_raw fs name ext = Some i <->
     (0 <= i < COCOFS_DIR_TRACK_NENTRIES /\
      lookup_matches (image_data fs) name ext i /\
      forall j, 0 <= j < i -> ~ lookup_matches (image_data fs) name ext j)) /\
  (cocofs_lookup_raw fs name ext = None <->
     forall j, 0 <= j < COCOFS_DIR_TRACK_NENTRIES ->
               ~ lookup_matches (image_data fs) name ext j) /\
  (forall i, 0 <= i < COCOFS_DIR_TRACK_NENTRIES ->
     lookup_matches (image_data fs) name ext i ->
     COCOFS_DIRENT_TYPE_TEXT < val (d_type (image_data fs) i) ->
     (exists j, 0 <= j <= i /\ cocofs_lookup_raw fs name ext = Some j) /\
     forall s, (i, s) ∉ cocofs_enumerate_directory fs).
Proof.
  unfold cocofs_lookup_raw. split; [|split].
  - intros i. rewrite lookup_raw_from_Some. geom.
    change (Z.of_nat (Z.to_nat 72)) with 72. tauto.
  - rewrite lookup_raw_from_None. geom.
    change (Z.of_nat (Z.to_nat 72)) with 72. tauto.
  - intros i Hi Hm Ht. split.
    + destruct (lookup_raw_from (Z.to_nat COCOFS_DIR_TRACK_NENTRIES)
                  (image_data fs) 0 name ext) as [j|] eqn:E.
      * exists j. split; [|reflexivity].
        apply lookup_raw_from_Some in E as (Hr & Hmj & Hf).
        destruct (Z.le_gt_cases j i) as [Hle|Hgt]; [lia|].
        exfalso. apply (Hf i); [lia|exact Hm].
      * exfalso. rewrite lookup_raw_from_None in E. apply (E i); [|exact Hm].
        geom. change (Z.of_nat (Z.to_nat 72)) with 72. lia.
    + intros s Hin. apply enumerate_from_elem in Hin as (_ & Hle). lia.
Qed.

(** ** Counting free granules *)

Lemma granule_map_bytes_lookup img (i : nat) :
  image_ok img -> (i < 68)%nat ->
  granule_map_bytes img !! i = Some (gmap_get img (Z.of_nat i)).
Proof.
  unfold image_ok. geom. intros Hlen Hi.
  unfold granule_map_bytes, gmap_get, mem_get. geom.
  rewrite mem_read_lookup. destruct (decide (i < Z.to_nat 68)%nat); [|lia].
  replace (Z.to_nat (78592 + Z.of_nat i)) with (Z.to_nat 78592 + i)%nat by lia.
  destruct (lookup_lt_is_Some_2 img (Z.to_nat 78592 + i)) as [x Hx]; [lia|].
  rewrite Hx. reflexivity.
Qed.

Lemma length_granule_map_bytes img :
  image_ok img -> length (granule_map_bytes img) = 68%nat.
Proof.
  unfold image_ok, granule_map_bytes. geom. intros Hlen.
  rewrite length_mem_read; lia.
Qed.

Lemma granule_map_bytes_set img g b :
  image_ok img -> 0 <= g < 68 ->
  granule_map_bytes (gmap_set img g b) =
  <[Z.to_nat g := b]> (granule_map_bytes img).
Proof.
  intros Hlen Hg. apply list_eq. intros i.
  assert (Hlen' : image_ok (gmap_set img g b)).
  { unfold image_ok, gmap_set. rewrite length_mem_set. exact Hlen. }
  destruct (decide (i < 68)%nat) as [Hi|Hi].
  - rewrite granule_map_bytes_lookup by assumption.
    destruct (decide (i = Z.to_nat g)) as [->|Hne].
    + rewrite list_lookup_insert_eq
        by (rewrite length_granule_map_bytes by assumption; lia).
      f_equal. unfold gmap_get, gmap_set. rewrite Z2Nat.id by lia.
      apply mem_get_set_eq; unfold image_ok in Hlen; geom; lia.
    + rewrite list_lookup_insert_ne by lia.
      rewrite granule_map_bytes_lookup by assumption. f_equal.
      unfold gmap_get, gmap_set. geom. apply mem_get_set_ne; lia.
  - rewrite !lookup_ge_None_2; [reflexivity| |].
    + rewrite length_insert, length_granule_map_bytes by assumption. lia.
    + rewrite length_granule_map_bytes by assumption. lia.
Qed.

Lemma filter_length_insert {A} (P : A -> Prop) `{!forall x, Decision (P x)}
      (l : list A) (i : nat) (x y : A) :
  l !! i = Some x -> P x -> ~ P y ->
  (length (filter P (<[i := y]> l)) + 1 = length (filter P l))%nat.
Proof.
  revert i. induction l as [|a l IH]; intros i Hi Hx Hy; [discriminate|].
  destruct i as [|i]; simpl in *.
  - injection Hi as ->. rewrite (filter_cons_True P x l Hx).
    rewrite (filter_cons_False P y l Hy). simpl. lia.
  - specialize (IH i Hi Hx Hy).
    destruct (decide (P a)) as [Ha|Ha].
    + rewrite !(filter_cons_True P a _ Ha). simpl. lia.
    + rewrite !(filter_cons_False P a _ Ha). exact IH.
Qed.

Lemma count_free_range img : image_ok img -> 0 <= count_free img <= 68.
Proof.
  intros Hlen. unfold count_free.
  pose proof (length_filter (fun b => val b = GMAP_FREE) (granule_map_bytes img)).
  rewrite length_granule_map_bytes in H by assumption. lia.
Qed.

Lemma count_free_alloc img g b :
  image_ok img -> 0 <= g < 68 ->
  val (gmap_get img g) = GMAP_FREE -> val b <> GMAP_FREE ->
  count_free (gmap_set img g b) = count_free img - 1.
Proof.
  intros Hlen Hg Hfree Hb. unfold count_free.
  rewrite granule_map_bytes_set by assumption.
  pose proof (filter_length_insert (fun b => val b = GMAP_FREE)
    (granule_map_bytes img) (Z.to_nat g) (gmap_get img g) b) as H.
  rewrite granule_map_bytes_lookup in H by (assumption || lia).
  rewrite Z2Nat.id in H by lia. specialize (H eq_refl Hfree Hb). lia.
Qed.

Lemma count_free_pos img :
  image_ok img -> 0 < count_free img ->
  exists g, 0 <= g < 68 /\ val (gmap_get img g) = GMAP_FREE.
Proof.
  intros Hlen Hpos. unfold count_free in Hpos.
  destruct (filter (fun b => val b = GMAP_FREE) (granule_map_bytes img))
    as [|b l] eqn:E; [simpl in Hpos; lia|].
  assert (Hin : b ∈ filter (fun b => val b = GMAP_FREE) (granule_map_bytes img))
    by (rewrite E; apply elem_of_cons; left; reflexivity).
  apply list_elem_of_filter in Hin as [Hb Hin].
  apply list_elem_of_lookup in Hin as [i Hi].
  assert (Hi68 : (i < 68)%nat).
  { apply lookup_lt_Some in Hi.
    rewrite length_granule_map_bytes in Hi by assumption. exact Hi. }
  rewrite granule_map_bytes_lookup in Hi by assumption.
  injection Hi as <-. exists (Z.of_nat i). split; [lia|exact Hb].
Qed.

(** ** Granule allocation *)

Lemma least_index (P : nat -> Prop) (dec : forall n, {P n} + {~ P n}) (n : nat) :
  (forall j, (j < n)%nat -> ~ P j) \/
  (exists k, (k < n)%nat /\ P k /\ forall j, (j < k)%nat -> ~ P j).
Proof.
  induction n as [|n [IH|IH]].
  - left. intros j Hj. lia.
  - destruct (dec n) as [Hn|Hn].
    + right. exists n. split; [lia|]. split; assumption.
    + left. intros j Hj. destruct (decide (j = n)) as [->|]; [exact Hn|].
      apply IH. lia.
  - right. destruct IH as (k & Hk & HP & Hf). exists k.
    split; [lia|]. split; assumption.
Qed.

Lemma galloc_loop_first (n : nat) (fs : cocofs) (g : Z) (k : nat) :
  0 <= g < 68 -> (k < n)%nat ->
  val (gmap_get (image_data fs) ((g + Z.of_nat k) mod 68)) = GMAP_FREE ->
  (forall j, (j < k)%nat ->
     val (gmap_get (image_data fs) ((g + Z.of_nat j) mod 68)) <> GMAP_FREE) ->
  galloc_loop n fs g =
  Some ({| image_data := gmap_set (image_data fs) ((g + Z.of_nat k) mod 68)
                                  (u8 GMAP_ALLOCATED);
           free_granules := u32 (free_granules fs - 1) |},
        (g + Z.of_nat k) mod 68).
Proof.
  revert g k. induction n as [|n IH]; intros g k Hg Hk Hfree Hbefore; [lia|].
  cbn [galloc_loop]. destruct k as [|k].
  - rewrite Z.add_0_r, Z.mod_small in * by lia.
    rewrite Hfree, Z.eqb_refl. reflexivity.
  - pose proof (Hbefore 0%nat ltac:(lia)) as H0.
    rewrite Z.add_0_r, Z.mod_small in H0 by lia.
    destruct (Z.eqb_spec (val (gmap_get (image_data fs) g)) GMAP_FREE);
      [contradiction|].
    rewrite u32_small by lia. geom.
    assert (Hnext : (if g + 1 =? 68 then 0 else g + 1) = (g + 1) mod 68).
    { destruct (Z.eqb_spec (g + 1) 68) as [->|]; [reflexivity|].
      rewrite Z.mod_small; lia. }
    rewrite Hnext.
    assert (Hshift : forall j : nat,
              ((g + 1) mod 68 + Z.of_nat j) mod 68 = (g + Z.of_nat (S j)) mod 68).
    { intros j. rewrite Z.add_mod_idemp_l by lia. f_equal. lia. }
    rewrite <- (Hshift k). apply IH.
    + apply Z.mod_pos_bound. lia.
    + lia.
    + rewrite Hshift. exact Hfree.
    + intros j Hj. rewrite Hshift. apply Hbefore. lia.
Qed.

(** With a Free entry somewhere in the map, the scan finds the first one
    at or after [last] (cyclically) within 68 probes. *)
Lemma cocofs_galloc_finds (fs : cocofs) (last : Z) :
  0 <= last < 68 ->
  (exists g0, 0 <= g0 < 68 /\ val (gmap_get (image_data fs) g0) = GMAP_FREE) ->
  exists k, 0 <= k < 68 /\
    (forall j, 0 <= j < k ->
       val (gmap_get (image_data fs) ((last + j) mod 68)) <> GMAP_FREE) /\
    val (gmap_get (image_data fs) ((last + k) mod 68)) = GMAP_FREE /\
    cocofs_galloc fs last =
    Some ({| image_data := gmap_set (image_data fs) ((last + k) mod 68)
                                    (u8 GMAP_ALLOCATED);
             free_granules := u32 (free_granules fs - 1) |},
          (last + k) mod 68).
Proof.
  intros Hlast (g0 & Hg0 & Hfree0).
  set (P := fun j : nat =>
              val (gmap_get (image_data fs) ((last + Z.of_nat j) mod 68))
              = GMAP_FREE).
  destruct (least_index P (fun j => Z.eq_dec _ _) 68) as [Hnone|(k & Hk & HP & Hf)].
  - exfalso. apply (Hnone (Z.to_nat ((g0 - last) mod 68))).
    + pose proof (Z.mod_pos_bound (g0 - last) 68 ltac:(lia)). lia.
    + unfold P. rewrite Z2Nat.id by (apply Z.mod_pos_bound; lia).
      rewrite Z.add_mod_idemp_r by lia.
      replace (last + (g0 - last)) with g0 by lia.
      rewrite Z.mod_small by lia. exact Hfree0.
  - exists (Z.of_nat k). split; [lia|]. split; [|split; [exact HP|]].
    + intros j Hj. specialize (Hf (Z.to_nat j) ltac:(lia)). unfold P in Hf.
      rewrite Z2Nat.id in Hf by lia. exact Hf.
    + unfold cocofs_galloc. apply galloc_loop_first; try assumption.
      geom. lia.
Qed.

Lemma galloc_loop_Some (n : nat) (fs : cocofs) (g0 : Z) fs' g :
  0 <= g0 < 68 ->
  galloc_loop n fs g0 = Some (fs', g) ->
  0 <= g < 68 /\ val (gmap_get (image_data fs) g) = GMAP_FREE /\
  fs' = {| image_data := gmap_set (image_data fs) g (u8 GMAP_ALLOCATED);
           free_granules := u32 (free_granules fs - 1) |}.
Proof.
  revert g0. induction n as [|n IH]; intros g0 Hg0; [discriminate|].
  cbn [galloc_loop].
  destruct (Z.eqb_spec (val (gmap_get (image_data fs) g0)) GMAP_FREE) as [Hf|Hf].
  - intros [= <- <-]. auto.
  - apply IH. rewrite u32_small by lia. geom.
    destruct (Z.eqb_spec (g0 + 1) 68); lia.
Qed.

Lemma u32_pred_idemp (a : Z) : u32 (u32 a - 1) = u32 (a - 1).
Proof. unfold u32. apply Zminus_mod_idemp_l. Qed.

Lemma u32_succ_idemp (a : Z) : u32 (u32 a + 1) = u32 (a + 1).
Proof. unfold u32. apply Zplus_mod_idemp_l. Qed.

Lemma glist_get_insert_eq (glist : list byte) (i : Z) (b : byte) :
  0 <= i -> (Z.to_nat i < length glist)%nat ->
  glist_get (<[Z.to_nat i := b]> glist) i = b.
Proof.
  intros _ H. unfold glist_get. rewrite list_lookup_insert_eq by exact H.
  reflexivity.
Qed.

Lemma glist_get_insert_ne (glist : list byte) (i j : Z) (b : byte) :
  0 <= i -> 0 <= j -> i <> j ->
  glist_get (<[Z.to_nat i := b]> glist) j = glist_get glist j.
Proof.
  intros H1 H2 H3. unfold glist_get. rewrite list_lookup_insert_ne by lia.
  reflexivity.
Qed.

Lemma gmap_get_set_eq img g b :
  image_ok img -> 0 <= g < 68 -> gmap_get (gmap_set img g b) g = b.
Proof.
  unfold image_ok, gmap_get, gmap_set. geom. intros Hlen Hg.
  apply mem_get_set_eq; lia.
Qed.

Lemma image_ok_gmap_set img g b : image_ok img -> image_ok (gmap_set img g b).
Proof. unfold image_ok, gmap_set. rewrite length_mem_set. auto. Qed.

Lemma alloc_loop_spec (n : nat) : forall fs last glist gi fs1 glist1,
  fs_ok fs -> 0 <= last < 68 -> 0 <= gi ->
  gi + Z.of_nat n <= 68 -> length glist = 68%nat ->
  alloc_loop n fs last glist gi = Some (fs1, glist1) ->
  alloc_post (image_data fs) (image_data fs1) glist1 gi (gi + Z.of_nat n) /\
  free_granules fs1 = u32 (free_granules fs - Z.of_nat n) /\
  (forall j, 0 <= j -> ~ (gi <= j < gi + Z.of_nat n) ->
     glist_get glist1 j = glist_get glist j).
Proof.
  induction n as [|n IH]; intros fs last glist gi fs1 glist1
    [Hok Hcnt] Hlast Hgi Hbound Hlen Hrun.
  - cbn [alloc_loop] in Hrun. injection Hrun as <- <-.
    split; [|split].
    + unfold alloc_post. split; [exact Hok|]. split; [exact Hlen|].
      split; [intros j Hj; lia|]. split; [intros i j Hi; lia|]. auto.
    + rewrite Z.sub_0_r. unfold UINT_MOD in Hcnt. rewrite u32_small; lia.
    + auto.
  - cbn [alloc_loop] in Hrun.
    destruct (cocofs_galloc fs last) as [[fs' g]|] eqn:Eg; [|discriminate].
    unfold cocofs_galloc in Eg.
    apply galloc_loop_Some in Eg as (Hg & Hfree & ->); [|exact Hlast].
    set (img' := gmap_set (image_data fs) g (u8 GMAP_ALLOCATED)) in *.
    assert (Hok' : image_ok img') by (apply image_ok_gmap_set; exact Hok).
    assert (Hg' : val (gmap_get img' g) = GMAP_ALLOCATED).
    { unfold img'. rewrite gmap_get_set_eq by assumption.
      apply val_u8_small. geom. lia. }
    apply IH in Hrun as ((Hok1 & Hlen1 & Hgr & Hinj & Hframe) & Hfree1 & Hkeep);
      cbn [image_data free_granules] in *;
      [ | split; [exact Hok'|]; unfold u32, UINT_MOD;
          apply Z.mod_pos_bound; lia
        | lia | lia | lia | rewrite length_insert; exact Hlen ].
    assert (Hat : glist_get glist1 gi = u8 g).
    { rewrite Hkeep by lia. apply glist_get_insert_eq; lia. }
    assert (Hvat : val (glist_get glist1 gi) = g).
    { rewrite Hat. apply val_u8_small. lia. }
    assert (Hother : forall j, gi + 1 <= j < gi + 1 + Z.of_nat n ->
                       val (glist_get glist1 j) <> g).
    { intros j Hj Heq. destruct (Hgr j Hj) as (_ & Hfj & _).
      rewrite Heq, Hg' in Hfj. geom. lia. }
    split; [|split].
    + unfold alloc_post. split; [exact Hok1|]. split; [exact Hlen1|].
      split; [|split].
      * intros j Hj. destruct (decide (j = gi)) as [->|Hne].
        -- rewrite Hvat. split; [exact Hg|]. split; [exact Hfree|].
           rewrite <- Hg'. f_equal. unfold gmap_get. apply Hframe.
           ++ geom. lia.
           ++ intros j Hj'. specialize (Hother j Hj'). lia.
        -- destruct (Hgr j ltac:(lia)) as (Hr & Hfj & Haj).
           split; [exact Hr|]. split; [|exact Haj].
           rewrite <- Hfj. f_equal. unfold img', gmap_get, gmap_set.
           symmetry. apply mem_get_set_ne; geom; try lia.
           specialize (Hother j ltac:(lia)). lia.
      * intros i j Hi Hj Heq.
        destruct (decide (i = gi)) as [->|Hi'];
          destruct (decide (j = gi)) as [->|Hj']; try reflexivity.
        -- exfalso. apply (Hother j); [lia|]. rewrite <- Heq. exact Hvat.
        -- exfalso. apply (Hother i); [lia|]. rewrite Heq. exact Hvat.
        -- apply Hinj; [lia|lia|exact Heq].
      * intros off Hoff Hne. rewrite Hframe.
        -- unfold img', gmap_set. apply mem_get_set_ne; geom; try lia.
           specialize (Hne gi ltac:(lia)). rewrite Hvat in Hne. lia.
        -- exact Hoff.
        -- intros j Hj. apply Hne. lia.
    + rewrite Hfree1. unfold u32.
      rewrite Zminus_mod_idemp_l. f_equal. lia.
    + intros j Hj Hout. rewrite Hkeep by lia.
      apply glist_get_insert_ne; lia.
Qed.

Lemma alloc_loop_succeeds (n : nat) : forall fs last glist gi,
  image_ok (image_data fs) -> 0 <= last < 68 ->
  Z.of_nat n <= count_free (image_data fs) ->
  exists fs1 glist1, alloc_loop n fs last glist gi = Some (fs1, glist1).
Proof.
  induction n as [|n IH]; intros fs last glist gi Hok Hlast Hn.
  - cbn [alloc_loop]. eauto.
  - cbn [alloc_loop].
    destruct (count_free_pos (image_data fs) Hok ltac:(lia)) as (g0 & Hg0 & Hf0).
    destruct (cocofs_galloc_finds fs last Hlast (ex_intro _ g0 (conj Hg0 Hf0)))
      as (k & Hk & _ & Hfree & ->).
    assert (Hg : 0 <= (last + k) mod 68 < 68) by (apply Z.mod_pos_bound; lia).
    apply IH; cbn [image_data].
    + apply image_ok_gmap_set. exact Hok.
    + exact Hg.
    + rewrite count_free_alloc; try assumption; [lia|].
      rewrite val_u8_small; geom; lia.
Qed.

Lemma ceil_div_bounds (a f : Z) :
  0 <= a <= f * 2304 -> 0 <= ceil_div a 2304 <= f.
Proof.
  intros H. unfold ceil_div.
  pose proof (Z.div_mod a 2304 ltac:(lia)).
  pose proof (Z.mod_pos_bound a 2304 ltac:(lia)).
  destruct (Z.eqb_spec (a mod 2304) 0); lia.
Qed.

Lemma ceil_div_gt (a f : Z) :
  0 <= a -> 0 <= f -> (f < ceil_div a 2304 <-> f * 2304 < a).
Proof.
  intros Ha Hf. unfold ceil_div.
  pose proof (Z.div_mod a 2304 ltac:(lia)).
  pose proof (Z.mod_pos_bound a 2304 ltac:(lia)).
  destruct (Z.eqb_spec (a mod 2304) 0); lia.
Qed.

(** C6.  With a Free entry in the map, [cocofs_galloc] started at any
    index 0..67 returns after [k + 1 <= 68] probes the first index at or
    after [last] (cyclically) whose entry is Free, marks exactly that entry
    allocated and decrements the counter; the [abort()] is not reached.
    Hence, when the counter agrees with the map, every allocation of an
    add that passed the capacity check succeeds. *)
Theorem cocofs_galloc_succeeds (fs : cocofs) (last : Z) :
  image_ok (image_data fs) ->
  0 <= last < COCOFS_NGRANULES ->
  (exists g0, 0 <= g0 < COCOFS_NGRANULES /\
              val (gmap_get (image_data fs) g0) = GMAP_FREE) ->
  (exists k g fs',
      0 <= k /\ k + 1 <= COCOFS_NGRANULES /\
      g = (last + k) mod COCOFS_NGRANULES /\
      (forall j, 0 <= j < k ->
         val (gmap_get (image_data fs) ((last + j) mod COCOFS_NGRANULES))
         <> GMAP_FREE) /\
      cocofs_galloc fs last = Some (fs', g) /\
      0 <= g < COCOFS_NGRANULES /\
      val (gmap_get (image_data fs) g) = GMAP_FREE /\
      val (gmap_get (image_data fs') g) = GMAP_ALLOCATED /\
      (forall off, 0 <= off -> off <> granule_map_off + g ->
         mem_get (image_data fs') off = mem_get (image_data fs) off) /\
      free_granules fs' = u32 (free_granules fs - 1)) /\
  (counter_consistent fs ->
   forall st_size, - 2 ^ 63 <= st_size < 2 ^ 63 ->
     (u32 (free_granules fs * COCOFS_BYTES_PER_GRANULE) <? st_size mod 2 ^ 64)
     = false ->
     exists fs1 glist1,
       alloc_loop (Z.to_nat (u32 (ceil_div st_size COCOFS_BYTES_PER_GRANULE)))
                  fs (COCOFS_NGRANULES / 2)
                  (replicate (Z.to_nat COCOFS_NGRANULES) xff) 0
       = Some (fs1, glist1)).
Proof.
  intros Hok Hlast Hex. split.
  - destruct (cocofs_galloc_finds fs last Hlast Hex) as (k & Hk & Hbefore & Hfree & Hrun).
    geom. assert (Hg : 0 <= (last + k) mod 68 < 68) by (apply Z.mod_pos_bound; lia).
    exists k, ((last + k) mod 68). eexists.
    split; [lia|]. split; [lia|]. split; [reflexivity|].
    split; [exact Hbefore|]. split; [exact Hrun|]. split; [exact Hg|].
    split; [exact Hfree|]. cbn [image_data free_granules].
    split; [|split; [|reflexivity]].
    + rewrite gmap_get_set_eq by assumption. apply val_u8_small. lia.
    + intros off Hoff Hne. unfold gmap_set. geom. apply mem_get_set_ne; lia.
  - intros Hcons st_size Hrange Hcheck.
    pose proof (count_free_range _ Hok) as Hcf. unfold counter_consistent in Hcons.
    geom. rewrite u32_small in Hcheck by lia.
    apply Z.ltb_ge in Hcheck.
    assert (Hst : 0 <= st_size).
    { destruct (Z.le_gt_cases 0 st_size) as [|Hneg]; [assumption|].
      exfalso.
      assert (st_size mod 2 ^ 64 = st_size + 2 ^ 64).
      { symmetry. apply (Z.mod_unique _ _ (-1)); lia. }
      lia. }
    rewrite Z.mod_small in Hcheck by lia.
    pose proof (ceil_div_bounds st_size (free_granules fs) ltac:(lia)).
    rewrite u32_small by lia.
    apply alloc_loop_succeeds; [exact Hok|change (68 / 2) with 34; lia|lia].
Qed.

(** ** The add-file operation: the steps before allocation *)

Lemma find_free_dirent_Some n img i0 i :
  find_free_dirent n img i0 = Some i ->
  i0 <= i < i0 + Z.of_nat n /\
  val (d_type img i) = COCOFS_DIRENT_TYPE_FREE /\
  forall j, i0 <= j < i -> val (d_type img j) <> COCOFS_DIRENT_TYPE_FREE.
Proof.
  revert i0. induction n as [|n IH]; intros i0; cbn [find_free_dirent];
    [discriminate|].
  destruct (Z.eqb_spec (val (d_type img i0)) COCOFS_DIRENT_TYPE_FREE) as [Hf|Hf].
  - intros [= <-]. split; [lia|]. split; [exact Hf|]. intros j Hj. lia.
  - intros H. apply IH in H as (Hr & Hfree & Hbefore).
    split; [lia|]. split; [exact Hfree|]. intros j Hj.
    destruct (decide (j = i0)) as [->|]; [exact Hf|]. apply Hbefore. lia.
Qed.

Lemma find_free_dirent_None n img i0 :
  find_free_dirent n img i0 = None ->
  forall j, i0 <= j < i0 + Z.of_nat n ->
            val (d_type img j) <> COCOFS_DIRENT_TYPE_FREE.
Proof.
  revert i0. induction n as [|n IH]; intros i0; cbn [find_free_dirent].
  - intros _ j Hj. lia.
  - destruct (Z.eqb_spec (val (d_type img i0)) COCOFS_DIRENT_TYPE_FREE) as [Hf|Hf];
      [discriminate|].
    intros H j Hj. destruct (decide (j = i0)) as [->|]; [exact Hf|].
    apply (IH _ H). lia.
Qed.

Lemma find_free_dirent_exists n img i0 i :
  i0 <= i < i0 + Z.of_nat n ->
  val (d_type img i) = COCOFS_DIRENT_TYPE_FREE ->
  exists k, find_free_dirent n img i0 = Some k.
Proof.
  intros Hi Hf. destruct (find_free_dirent n img i0) as [k|] eqn:E; [eauto|].
  exfalso. exact (find_free_dirent_None _ _ _ E i Hi Hf).
Qed.

(** The [bad:] exit taken before anything was changed restores the state. *)
Lemma rollback_unchanged (fs : cocofs) :
  rollback (image_data fs) None
           (mem_read (image_data fs) granule_map_off COCOFS_NGRANULES)
           (free_granules fs) = fs.
Proof.
  unfold rollback. rewrite mem_write_read_id by (geom; lia).
  destruct fs; reflexivity.
Qed.

(** C7.  With the source opened and [fstat] reporting length [L], the add
    fails with the capacity error exactly when [ceil(L / 2304)] exceeds the
    free-granule count [f], equivalently when [L > f * 2304]; and then the
    state is left exactly as it was: no granule allocated, no directory
    slot modified.  [f] ranges over every counter value whose product with
    2304 is an [unsigned int], which includes all of 0..68. *)
Theorem cocofs_copyin_capacity (fs : cocofs) (f : infile)
        (name ext : list byte) (type enc : byte) (L : Z) :
  0 <= free_granules fs ->
  free_granules fs * COCOFS_BYTES_PER_GRANULE < UINT_MOD ->
  in_open f = true -> in_fstat f = Some L -> 0 <= L < 2 ^ 63 ->
  ((exists fs', cocofs_copyin fs f name ext type enc
                = Returned (Some CI_NOSPC) fs') <->
   free_granules fs < ceil_div L COCOFS_BYTES_PER_GRANULE) /\
  (free_granules fs < ceil_div L COCOFS_BYTES_PER_GRANULE <->
   free_granules fs * COCOFS_BYTES_PER_GRANULE < L) /\
  (forall fs', cocofs_copyin fs f name ext type enc
               = Returned (Some CI_NOSPC) fs' -> fs' = fs).
Proof.
  intros Hfree Hnoovf Hopen Hstat HL. unfold UINT_MOD in Hnoovf. geom.
  assert (Hiff : free_granules fs < ceil_div L 2304 <-> free_granules fs * 2304 < L)
    by (apply ceil_div_gt; lia).
  assert (Hrun : forall fs', cocofs_copyin fs f name ext type enc
                   = Returned (Some CI_NOSPC) fs' ->
                 fs' = fs /\ free_granules fs * 2304 < L).
  { intros fs'. unfold cocofs_copyin. rewrite Hopen, Hstat. cbn [negb]. geom.
    rewrite u32_small by lia. rewrite (Z.mod_small L) by lia.
    destruct (Z.ltb_spec (free_granules fs * 2304) L) as [Hlt|Hge].
    - intros [= <-]. split; [apply rollback_unchanged|exact Hlt].
    - destruct (negb _); [discriminate|].
      destruct (find_free_dirent _ _ _); [|discriminate].
      destruct (alloc_loop _ _ _ _ _) as [[fs1 gl]|]; [|discriminate].
      destruct (write_loop _ _ _ _ _ _ _ _ _ _ _ _); discriminate. }
  split; [|split; [exact Hiff|]].
  - split.
    + intros (fs' & H). apply Hrun in H. tauto.
    + intros Hlt. exists fs. unfold cocofs_copyin.
      rewrite Hopen, Hstat. cbn [negb]. geom.
      rewrite u32_small by lia. rewrite (Z.mod_small L) by lia.
      destruct (Z.ltb_spec (free_granules fs * 2304) L) as [_|Hge]; [|lia].
      f_equal. apply rollback_unchanged.
  - intros fs' H. apply Hrun in H. tauto.
Qed.

(** C9.  For a source of length zero and a directory with a free slot,
    the add returns success and leaves the whole state as it was: no
    granule is taken, the counter keeps its value, and the free slot it
    found is not written, so no entry for the file exists afterwards. *)
Theorem cocofs_copyin_empty_file (fs : cocofs) (f : infile)
        (name ext : list byte) (type enc : byte) :
  0 <= free_granules fs ->
  in_open f = true -> in_fstat f = Some 0 ->
  (exists i, 0 <= i < COCOFS_DIR_TRACK_NENTRIES /\
             val (d_type (image_data fs) i) = COCOFS_DIRENT_TYPE_FREE) ->
  cocofs_copyin fs f name ext type enc = Returned None fs.
Proof.
  intros Hfree Hopen Hstat (i & Hi & Hslot).
  unfold cocofs_copyin. rewrite Hopen, Hstat. cbn [negb].
  assert (Hu : 0 <= u32 (free_granules fs * COCOFS_BYTES_PER_GRANULE)).
  { unfold u32, UINT_MOD. apply Z.mod_pos_bound. lia. }
  change (0 mod 2 ^ 64) with 0.
  destruct (Z.ltb_spec (u32 (free_granules fs * COCOFS_BYTES_PER_GRANULE)) 0);
    [lia|].
  change (u32 (ceil_div 0 COCOFS_BYTES_PER_GRANULE)) with 0.
  destruct (Z.leb_spec 0 (free_granules fs)); [|lia]. cbn [negb].
  destruct (find_free_dirent_exists (Z.to_nat COCOFS_DIR_TRACK_NENTRIES)
              (image_data fs) 0 i ltac:(geom; lia) Hslot) as (k & ->).
  change (Z.to_nat 0) with 0%nat. cbn [alloc_loop].
  change (u32 0) with 0.
  change (Z.to_nat COCOFS_NGRANULES) with 68%nat.
  cbn [write_loop Z.eqb]. destruct fs; reflexivity.
Qed.

(** With a full directory the same call fails, again without any change. *)
Lemma cocofs_copyin_empty_dir_full (fs : cocofs) (f : infile)
      (name ext : list byte) (type enc : byte) :
  0 <= free_granules fs ->
  in_open f = true -> in_fstat f = Some 0 ->
  (forall i, 0 <= i < COCOFS_DIR_TRACK_NENTRIES ->
             val (d_type (image_data fs) i) <> COCOFS_DIRENT_TYPE_FREE) ->
  cocofs_copyin fs f name ext type enc = Returned (Some CI_NODIR) fs.
Proof.
  intros Hfree Hopen Hstat Hfull.
  unfold cocofs_copyin. rewrite Hopen, Hstat. cbn [negb].
  assert (Hu : 0 <= u32 (free_granules fs * COCOFS_BYTES_PER_GRANULE)).
  { unfold u32, UINT_MOD. apply Z.mod_pos_bound. lia. }
  change (0 mod 2 ^ 64) with 0.
  destruct (Z.ltb_spec (u32 (free_granules fs * COCOFS_BYTES_PER_GRANULE)) 0);
    [lia|].
  change (u32 (ceil_div 0 COCOFS_BYTES_PER_GRANULE)) with 0.
  destruct (Z.leb_spec 0 (free_granules fs)); [|lia]. cbn [negb].
  destruct (find_free_dirent (Z.to_nat COCOFS_DIR_TRACK_NENTRIES)
              (image_data fs) 0) as [k|] eqn:E.
  - apply find_free_dirent_Some in E as (Hk & Hf & _). exfalso.
    apply (Hfull k); [geom; lia|exact Hf].
  - f_equal. apply rollback_unchanged.
Qed.

(** ** Where granules lie, and what map entries look like *)

Lemma granule_region (g : Z) :
  0 <= g < 68 ->
  (0 <= cocofs_granule_to_offset g /\
   cocofs_granule_to_offset g + 2304 <= 78336) \/
  (82944 <= cocofs_granule_to_offset g /\
   cocofs_granule_to_offset g + 2304 <= 161280).
Proof.
  intros Hg. rewrite granule_to_offset_eq by lia.
  destruct (Z.leb_spec 34 g); lia.
Qed.

Lemma granule_disjoint (g g' : Z) :
  0 <= g < 68 -> 0 <= g' < 68 -> g <> g' ->
  cocofs_granule_to_offset g + 2304 <= cocofs_granule_to_offset g' \/
  cocofs_granule_to_offset g' + 2304 <= cocofs_granule_to_offset g.
Proof.
  intros Hg Hg' Hne. rewrite !granule_to_offset_eq by lia.
  destruct (Z.leb_spec 34 g); destruct (Z.leb_spec 34 g'); lia.
Qed.

(** A byte below 68 is a Link: valid, not Free, not a Terminal. *)
Lemma link_byte (b : byte) :
  val b < 68 ->
  gmap_entry_is_valid b = true /\ (val b =? GMAP_FREE) = false /\
  GMAP_IS_LAST (val b) = false.
Proof.
  destruct b; intros H; vm_compute in H; first [discriminate H | repeat split].
Qed.

(** The byte stored for the last granule, [GMAP_LAST | nsec]. *)
Lemma terminal_byte (nsec : Z) :
  1 <= nsec <= 9 ->
  let b := u8 (Z.lor GMAP_LAST nsec) in
  gmap_entry_is_valid b = true /\ (val b =? GMAP_FREE) = false /\
  GMAP_IS_LAST (val b) = true /\ GMAP_LAST_NSEC (val b) = nsec.
Proof.
  intros H.
  assert (Hc : nsec = 1 \/ nsec = 2 \/ nsec = 3 \/ nsec = 4 \/ nsec = 5 \/
               nsec = 6 \/ nsec = 7 \/ nsec = 8 \/ nsec = 9) by lia.
  destruct Hc as [->|[->|[->|[->|[->|[->|[->|[->| ->]]]]]]]];
    vm_compute; repeat split.
Qed.

Lemma lastbytes_roundtrip (cnt : Z) :
  0 <= cnt <= 256 ->
  cocofs_dir_lastbytes (cocofs_dir_set_lastbytes cnt) = cnt.
Proof.
  intros H. unfold cocofs_dir_lastbytes, cocofs_dir_set_lastbytes.
  cbn [lookup list_lookup from_option id]. rewrite !val_u8.
  rewrite Z.shiftr_div_pow2 by lia. rewrite Z.shiftl_mul_pow2 by lia.
  change (2 ^ 8) with 256.
  destruct (decide (cnt = 256)) as [->|Hne]; [reflexivity|].
  rewrite (Z.div_small cnt 256) by lia.
  rewrite (Z.mod_small cnt 256) by lia. reflexivity.
Qed.

Lemma cursz_of_spec (resid : Z) :
  0 < resid ->
  0 < cursz_of resid <= 2304 /\ cursz_of resid <= resid /\
  (resid <= 2304 -> cursz_of resid = resid) /\
  (2304 < resid -> cursz_of resid = 2304).
Proof.
  intros H. unfold cursz_of. geom. destruct (Z.ltb_spec 2304 resid); lia.
Qed.

Lemma nsec_bounds (resid : Z) :
  0 < resid <= 2304 -> 1 <= ceil_div resid 256 <= 9.
Proof.
  intros H. unfold ceil_div.
  pose proof (Z.div_mod resid 256 ltac:(lia)).
  pose proof (Z.mod_pos_bound resid 256 ltac:(lia)).
  destruct (Z.eqb_spec (resid mod 256) 0); lia.
Qed.

(** Where the loop stands: with [resid = L - gi * 2304] bytes left, granule
    [gi] is one of the [ceil(L / 2304)] needed, and it is the last one
    exactly when what is left fits into it. *)
Lemma granule_position (L gi resid : Z) :
  0 <= gi -> resid = L - gi * 2304 -> 0 < resid ->
  gi < ceil_div L 2304 /\ (resid <= 2304 <-> gi + 1 = ceil_div L 2304).
Proof.
  intros Hgi -> Hres. unfold ceil_div.
  pose proof (Z.div_mod L 2304 ltac:(lia)).
  pose proof (Z.mod_pos_bound L 2304 ltac:(lia)).
  destruct (Z.eqb_spec (L mod 2304) 0); lia.
Qed.

(** ** Writing a directory entry *)

Lemma image_ok_mem_write img off data :
  image_ok img -> image_ok (mem_write img off data).
Proof. unfold image_ok. rewrite length_mem_write. auto. Qed.

Lemma image_ok_mem_set img off b : image_ok img -> image_ok (mem_set img off b).
Proof. unfold image_ok. rewrite length_mem_set. auto. Qed.

Lemma image_ok_memset img off b n : image_ok img -> image_ok (memset img off b n).
Proof. unfold image_ok. rewrite length_memset. auto. Qed.

Lemma image_ok_set_dirent img dir name ext type enc first lb :
  image_ok img -> image_ok (set_dirent img dir name ext type enc first lb).
Proof.
  intros H. unfold set_dirent.
  repeat first [apply image_ok_mem_write | apply image_ok_mem_set]. exact H.
Qed.

Lemma mem_get_memset_out img off b n off' :
  0 <= off -> 0 <= off' -> 0 <= n ->
  off' < off \/ off + n <= off' ->
  mem_get (memset img off b n) off' = mem_get img off'.
Proof.
  intros H1 H2 H3 H4. unfold memset. apply mem_get_write_out; try lia.
  rewrite length_replicate. lia.
Qed.

Lemma set_dirent_frame img dir name ext type enc first lb off :
  0 <= dir -> 0 <= off ->
  off < dirent_off dir \/ dirent_off dir + 16 <= off ->
  mem_get (set_dirent img dir name ext type enc first lb) off = mem_get img off.
Proof.
  intros Hdir Hoff Hout. unfold set_dirent, dirent_off in *. geom.
  rewrite mem_get_write_out
    by (unfold cocofs_dir_set_lastbytes; cbn [length]; lia).
  rewrite !mem_get_set_ne by lia.
  rewrite !mem_get_write_out by (rewrite ?length_take; lia).
  reflexivity.
Qed.

Lemma set_dirent_fields img dir name ext type enc first lb :
  image_ok img -> 0 <= dir < 72 ->
  let img' := set_dirent img dir name ext type enc first lb in
  d_type img' dir = type /\ d_encoding img' dir = enc /\
  d_first_granule img' dir = first /\
  d_last_bytes img' dir = cocofs_dir_set_lastbytes lb.
Proof.
  intros Hok Hdir img'. unfold img', set_dirent, d_type, d_encoding,
    d_first_granule, d_last_bytes.
  set (i1 := mem_write img (dirent_off dir + D_NAME) (take 8 name)).
  set (i2 := mem_write i1 (dirent_off dir + D_EXT) (take 3 ext)).
  set (i3 := mem_set i2 (dirent_off dir + D_TYPE) type).
  set (i4 := mem_set i3 (dirent_off dir + D_ENCODING) enc).
  set (i5 := mem_set i4 (dirent_off dir + D_FIRST_GRANULE) first).
  assert (H1 : image_ok i1) by (apply image_ok_mem_write; exact Hok).
  assert (H2 : image_ok i2) by (apply image_ok_mem_write; exact H1).
  assert (H3 : image_ok i3) by (apply image_ok_mem_set; exact H2).
  assert (H4 : image_ok i4) by (apply image_ok_mem_set; exact H3).
  assert (H5 : image_ok i5) by (apply image_ok_mem_set; exact H4).
  unfold image_ok, dirent_off in *. geom.
  assert (Hl : length (cocofs_dir_set_lastbytes lb) = 2%nat) by reflexivity.
  repeat split.
  - rewrite mem_get_write_out by lia. unfold i5, i4.
    rewrite !mem_get_set_ne by lia. apply mem_get_set_eq; lia.
  - rewrite mem_get_write_out by lia. unfold i5.
    rewrite !mem_get_set_ne by lia. apply mem_get_set_eq; lia.
  - rewrite mem_get_write_out by lia. apply mem_get_set_eq; lia.
  - pose proof (mem_read_write_eq i5 (78848 + dir * 32 + 14)
                  (cocofs_dir_set_lastbytes lb) ltac:(lia) ltac:(lia)) as Hrw.
    rewrite Hl in Hrw. exact Hrw.
Qed.

(** ** The data loop of the add-file operation *)

Lemma cocofs_pread_inv f img buf n off img1 rv :
  cocofs_pread f img buf n off = (img1, rv) -> 0 <= n ->
  exists data,
    img1 = mem_write img buf data /\ (length data <= Z.to_nat n)%nat /\
    (rv = n -> exists d, in_pread f n off = Some d /\
                         data = take (Z.to_nat n) d /\
                         length data = Z.to_nat n).
Proof.
  unfold cocofs_pread. intros H Hn.
  destruct (in_pread f n off) as [d|] eqn:E; injection H as <- <-.
  - exists (take (Z.to_nat n) d). split; [reflexivity|].
    split; [rewrite length_take; lia|]. intros Hrv. exists d.
    split; [reflexivity|]. split; [reflexivity|]. lia.
  - exists []. split; [reflexivity|]. split; [simpl; lia|]. lia.
Qed.

Section DataLoop.

Variable f : infile.
Variable glist : list byte.
Variable dir : Z.
Variables name ext : list byte.
Variables type enc : byte.
Variable L : Z.

Hypothesis Hdir : 0 <= dir < 72.
Hypothesis Hgl : forall j, 0 <= j < ceil_div L 2304 ->
                           0 <= val (glist_get glist j) < 68.
Hypothesis Hinj : forall i j,
    0 <= i < ceil_div L 2304 -> 0 <= j < ceil_div L 2304 ->
    glist_get glist i = glist_get glist j -> i = j.

(** Granule number [j] of the file and where its data start. *)
Local Abbreviation gr j := (val (glist_get glist j)).
Local Abbreviation goff j := (cocofs_granule_to_offset (val (glist_get glist j))).

Lemma write_body_ReadFailed img gi resid img' :
  image_ok img -> 0 <= gi -> resid = L - gi * 2304 -> 0 < resid ->
  write_body f img glist dir name ext type enc (ceil_div L 2304) gi resid
  = WB_ReadFailed img' ->
  image_ok img' /\
  forall off, 0 <= off -> ~ (goff gi <= off < goff gi + 2304) ->
              mem_get img' off = mem_get img off.
Proof.
  intros Hok Hgi Hres Hpos. unfold write_body.
  destruct (granule_position L gi resid Hgi Hres Hpos) as (Hlt & Hlast).
  pose proof (Hgl gi ltac:(lia)) as Hg.
  pose proof (granule_region _ Hg) as Hreg.
  pose proof (cursz_of_spec resid Hpos) as (Hc1 & Hc2 & Hc3 & Hc4).
  destruct (negb _); [discriminate|].
  destruct (cocofs_pread _ _ _ _ _) as [img1 rv] eqn:Epr.
  apply cocofs_pread_inv in Epr as (data & -> & Hlen & _); [|geom; lia].
  destruct (negb (rv =? _)).
  - intros [= <-]. split; [apply image_ok_mem_write; exact Hok|].
    intros off Hoff Hout. apply mem_get_write_out; lia.
  - geom. destruct (resid <=? 2304).
    + repeat (destruct (negb _); [discriminate|]). discriminate.
    + destruct (negb _); discriminate.
Qed.

Lemma write_body_Next img gi resid img' :
  image_ok img -> 0 <= gi -> resid = L - gi * 2304 -> 0 < resid ->
  write_body f img glist dir name ext type enc (ceil_div L 2304) gi resid
  = WB_Next img' ->
  image_ok img' /\
  (forall off, 0 <= off -> ~ (goff gi <= off < goff gi + 2304) ->
     off <> granule_map_off + gr gi ->
     (resid <= 2304 ->
      ~ (dirent_off dir <= off < dirent_off dir + 16)) ->
     mem_get img' off = mem_get img off) /\
  gmap_get img' (gr gi) =
    (if resid <=? 2304 then u8 (Z.lor GMAP_LAST (ceil_div resid 256))
     else glist_get glist (gi + 1)) /\
  (exists d, in_pread f (cursz_of resid) (gi * 2304) = Some d /\
             (Z.to_nat (cursz_of resid) <= length d)%nat /\
             mem_read img' (goff gi) (cursz_of resid)
             = take (Z.to_nat (cursz_of resid)) d) /\
  (resid <= 2304 ->
     d_type img' dir = type /\
     d_first_granule img' dir = glist_get glist 0 /\
     d_last_bytes img' dir =
       cocofs_dir_set_lastbytes
         (if resid mod 256 =? 0 then 256 else resid mod 256)).
Proof.
  intros Hok Hgi Hres Hpos. unfold write_body.
  destruct (granule_position L gi resid Hgi Hres Hpos) as (Hlt & Hlast).
  pose proof (Hgl gi ltac:(lia)) as Hg.
  pose proof (granule_region _ Hg) as Hreg.
  pose proof (cursz_of_spec resid Hpos) as (Hc1 & Hc2 & Hc3 & Hc4).
  destruct (negb _); [discriminate|].
  destruct (cocofs_pread _ _ _ _ _) as [img1 rv] eqn:Epr.
  apply cocofs_pread_inv in Epr as (data & -> & Hlen & Hfull); [|geom; lia].
  geom.
  destruct (Z.eqb_spec rv (cursz_of resid)) as [Hrv|Hrv]; cbn [negb];
    [|discriminate].
  destruct (Hfull Hrv) as (d & Hd & Hdata & Hlen').
  set (img1 := mem_write img (goff gi) data) in *.
  assert (Hok1 : image_ok img1) by (apply image_ok_mem_write; exact Hok).
  assert (Hread1 : mem_read img1 (goff gi) (cursz_of resid) = data).
  { pose proof (mem_read_write_eq img (goff gi) data ltac:(lia)) as Hrw.
    rewrite Hlen', Z2Nat.id in Hrw by lia. apply Hrw.
    unfold image_ok in Hok. geom. lia. }
  assert (Hdlen : (Z.to_nat (cursz_of resid) <= length d)%nat).
  { rewrite Hdata, length_take in Hlen'. lia. }
  destruct (Z.leb_spec resid 2304) as [Hle|Hgt].
  - (* the last granule *)
    pose proof (nsec_bounds resid ltac:(lia)) as Hnsec.
    rewrite (val_u8_small (ceil_div resid 256)) by lia.
    repeat (destruct (negb _); [discriminate|]).
    intros [= <-].
    set (img2 := gmap_set img1 (gr gi) (u8 (Z.lor 192 (ceil_div resid 256)))).
    set (img3 := if 2304 - resid =? 0 then img2
                 else memset img2 (goff gi + resid) x00 (2304 - resid)).
    assert (Hok2 : image_ok img2) by (apply image_ok_gmap_set; exact Hok1).
    assert (Hok3 : image_ok img3).
    { unfold img3. destruct (_ =? _); [exact Hok2|].
      apply image_ok_memset. exact Hok2. }
    assert (Hfr3 : forall off, 0 <= off ->
              ~ (goff gi + resid <= off < goff gi + 2304) ->
              mem_get img3 off = mem_get img2 off).
    { intros off Hoff Hout. unfold img3. destruct (_ =? _); [reflexivity|].
      apply mem_get_memset_out; lia. }
    assert (Hfr2 : forall off, 0 <= off -> off <> 78592 + gr gi ->
              mem_get img2 off = mem_get img1 off).
    { intros off Hoff Hne. unfold img2, gmap_set. geom.
      apply mem_get_set_ne; lia. }
    assert (Hdoff : 78848 <= dirent_off dir /\ dirent_off dir + 32 <= 81152)
      by (unfold dirent_off; geom; lia).
    split; [apply image_ok_set_dirent; exact Hok3|].
    split; [|split; [|split]].
    + intros off Hoff Hout Hne Hdirent.
      rewrite set_dirent_frame by lia.
      rewrite Hfr3 by lia. rewrite Hfr2 by lia.
      unfold img1. apply mem_get_write_out; lia.
    + unfold gmap_get. geom. rewrite set_dirent_frame by lia.
      rewrite Hfr3 by lia. unfold img2.
      apply gmap_get_set_eq; assumption.
    + exists d. split; [exact Hd|]. split; [exact Hdlen|].
      rewrite <- Hdata, <- Hread1.
      apply mem_read_ext; [lia| |].
      { transitivity (Z.to_nat 161280);
          [apply image_ok_set_dirent; exact Hok3|symmetry; exact Hok1]. }
      intros k Hk. rewrite set_dirent_frame by lia.
      rewrite Hfr3 by lia. apply Hfr2; lia.
    + intros _. pose proof (set_dirent_fields img3 dir name ext type enc
                  (glist_get glist 0)
                  (if resid mod 256 =? 0 then 256 else resid mod 256)
                  Hok3 Hdir) as Hf.
      cbv zeta in Hf. tauto.
  - (* a full granule, linked to the next *)
    destruct (negb _); [discriminate|]. intros [= <-].
    split; [apply image_ok_gmap_set; exact Hok1|].
    split; [|split; [|split]].
    + intros off Hoff Hout Hne _. unfold gmap_set. geom.
      rewrite mem_get_set_ne by lia. unfold img1.
      apply mem_get_write_out; lia.
    + apply gmap_get_set_eq; assumption.
    + exists d. split; [exact Hd|]. split; [exact Hdlen|].
      rewrite <- Hdata, <- Hread1.
      apply mem_read_ext; [lia| |].
      { transitivity (Z.to_nat 161280);
          [apply image_ok_gmap_set; exact Hok1|symmetry; exact Hok1]. }
      intros k Hk. unfold gmap_set. geom. apply mem_get_set_ne; lia.
    + intros Hle. lia.
Qed.

Lemma write_loop_zero n img gi :
  write_loop n f img glist dir name ext type enc (ceil_div L 2304) gi 0
  = WL_Done img.
Proof. destruct n; reflexivity. Qed.

Lemma gmap_entry_outside j :
  0 <= j < ceil_div L 2304 ->
  forall j', 0 <= j' < ceil_div L 2304 ->
    ~ (goff j' <= granule_map_off + gr j < goff j' + 2304) /\
    (j <> j' -> granule_map_off + gr j <> granule_map_off + gr j') /\
    ~ (dirent_off dir <= granule_map_off + gr j < dirent_off dir + 16).
Proof.
  intros Hj j' Hj'. pose proof (Hgl j Hj) as Hg. pose proof (Hgl j' Hj') as Hg'.
  pose proof (granule_region _ Hg') as Hreg. unfold dirent_off. geom.
  split; [lia|]. split; [|lia].
  intros Hne Heq. apply Hne. apply Hinj; try assumption.
  apply val_inj. lia.
Qed.

Lemma granule_data_outside j k :
  0 <= j < ceil_div L 2304 -> goff j <= k < goff j + 2304 ->
  forall j', 0 <= j' < ceil_div L 2304 ->
    (j <> j' -> ~ (goff j' <= k < goff j' + 2304)) /\
    k <> granule_map_off + gr j' /\
    ~ (dirent_off dir <= k < dirent_off dir + 16).
Proof.
  intros Hj Hk j' Hj'. pose proof (Hgl j Hj) as Hg. pose proof (Hgl j' Hj') as Hg'.
  pose proof (granule_region _ Hg) as Hreg. unfold dirent_off. geom.
  split; [|lia]. intros Hne.
  assert (Hgne : gr j <> gr j').
  { intros Heq. apply Hne. apply Hinj; try assumption. apply val_inj. exact Heq. }
  pose proof (granule_disjoint _ _ Hg Hg' Hgne). lia.
Qed.

Lemma write_loop_ReadFailed n : forall img gi resid img',
  image_ok img -> 0 <= gi -> resid = L - gi * 2304 -> 0 <= resid ->
  write_loop n f img glist dir name ext type enc (ceil_div L 2304) gi resid
  = WL_ReadFailed img' ->
  image_ok img' /\
  forall off, 0 <= off ->
    (forall j, gi <= j < ceil_div L 2304 ->
       ~ (goff j <= off < goff j + 2304) /\ off <> granule_map_off + gr j) ->
    mem_get img' off = mem_get img off.
Proof.
  induction n as [|n IH]; intros img gi resid img' Hok Hgi Hres Hpos;
    cbn [write_loop]; destruct (Z.eqb_spec resid 0) as [Hz|Hnz];
    try discriminate.
  assert (Hpos' : 0 < resid) by lia.
  destruct (granule_position L gi resid Hgi Hres Hpos') as (Hlt & Hlast).
  pose proof (cursz_of_spec resid Hpos') as (Hc1 & Hc2 & Hc3 & Hc4).
  destruct (write_body _ _ _ _ _ _ _ _ _ _ _) as [img1|img1|] eqn:Eb;
    [| |discriminate].
  - apply write_body_Next in Eb as (Hok1 & Hfr1 & _); try assumption.
    destruct (Z.le_gt_cases resid 2304) as [Hle|Hgt].
    + rewrite Hc3 by assumption. rewrite Z.sub_diag, write_loop_zero.
      discriminate.
    + rewrite Hc4 by assumption. intros Hrun.
      apply IH in Hrun as (Hok' & Hfr'); [|assumption|lia|lia|lia].
      split; [exact Hok'|]. intros off Hoff Hout.
      rewrite Hfr' by (try assumption; intros j Hj; apply Hout; lia).
      destruct (Hout gi ltac:(lia)) as [Ha Hb].
      apply Hfr1; [assumption|assumption|assumption|lia].
  - intros [= <-].
    apply write_body_ReadFailed in Eb as (Hok1 & Hfr1); try assumption.
    split; [exact Hok1|]. intros off Hoff Hout.
    destruct (Hout gi ltac:(lia)) as [Ha Hb]. apply Hfr1; assumption.
Qed.

Lemma write_loop_Done n : forall img gi resid img',
  image_ok img -> 0 <= gi -> resid = L - gi * 2304 -> 0 <= resid ->
  write_loop n f img glist dir name ext type enc (ceil_div L 2304) gi resid
  = WL_Done img' ->
  image_ok img' /\
  (forall off, 0 <= off ->
     (forall j, gi <= j < ceil_div L 2304 ->
        ~ (goff j <= off < goff j + 2304) /\ off <> granule_map_off + gr j) ->
     (0 < resid -> ~ (dirent_off dir <= off < dirent_off dir + 16)) ->
     mem_get img' off = mem_get img off) /\
  (forall j, gi <= j < ceil_div L 2304 ->
     gmap_get img' (gr j) =
       (if j + 1 <? ceil_div L 2304 then glist_get glist (j + 1)
        else u8 (Z.lor GMAP_LAST (ceil_div (L - j * 2304) 256))) /\
     exists d, in_pread f (cursz_of (L - j * 2304)) (j * 2304) = Some d /\
               (Z.to_nat (cursz_of (L - j * 2304)) <= length d)%nat /\
               mem_read img' (goff j) (cursz_of (L - j * 2304))
               = take (Z.to_nat (cursz_of (L - j * 2304))) d) /\
  (0 < resid ->
     d_type img' dir = type /\
     d_first_granule img' dir = glist_get glist 0 /\
     d_last_bytes img' dir =
       cocofs_dir_set_lastbytes
         (if (L - (ceil_div L 2304 - 1) * 2304) mod 256 =? 0 then 256
          else (L - (ceil_div L 2304 - 1) * 2304) mod 256)).
Proof.
  induction n as [|n IH]; intros img gi resid img' Hok Hgi Hres Hpos;
    cbn [write_loop]; destruct (Z.eqb_spec resid 0) as [Hz|Hnz];
    try discriminate.
  1,2: intros [= <-]; split; [exact Hok|]; split; [reflexivity|];
    assert (Hn : ceil_div L 2304 = gi)
      by (replace L with (gi * 2304) by lia; unfold ceil_div;
          rewrite Z.div_mul, Z.mod_mul by lia; cbn; lia);
    split; [intros j Hj; lia|lia].
  assert (Hpos' : 0 < resid) by lia.
  destruct (granule_position L gi resid Hgi Hres Hpos') as (Hlt & Hlast).
  pose proof (cursz_of_spec resid Hpos') as (Hc1 & Hc2 & Hc3 & Hc4).
  destruct (write_body _ _ _ _ _ _ _ _ _ _ _) as [img1|img1|] eqn:Eb;
    [|discriminate|discriminate].
  apply write_body_Next in Eb as (Hok1 & Hfr1 & Hent1 & Hdat1 & Hdir1);
    try assumption.
  destruct (Z.le_gt_cases resid 2304) as [Hle|Hgt].
  { (* the last granule: the loop ends with what the body has built *)
    rewrite Hc3 by assumption. rewrite Z.sub_diag, write_loop_zero.
    intros [= <-]. assert (Hgi1 : gi = ceil_div L 2304 - 1) by lia.
    split; [exact Hok1|]. split; [|split].
    - intros off Hoff Hout Hd. destruct (Hout gi ltac:(lia)) as [Ha Hb].
      apply Hfr1; auto.
    - intros j Hj. assert (j = gi) as -> by lia. split.
      + rewrite Hent1. subst resid.
        destruct (Z.leb_spec (L - gi * 2304) 2304);
          destruct (Z.ltb_spec (gi + 1) (ceil_div L 2304)); try lia;
          reflexivity.
      + subst resid. exact Hdat1.
    - intros _. rewrite <- Hgi1, <- Hres. apply Hdir1. exact Hle. }
  rewrite Hc4 by assumption. intros Hrun.
  apply IH in Hrun as (Hok' & Hfr' & Hch' & Hdir'); [|assumption|lia|lia|lia].
  assert (Hsame : forall off, 0 <= off ->
            (forall j, gi + 1 <= j < ceil_div L 2304 ->
               ~ (goff j <= off < goff j + 2304) /\
               off <> granule_map_off + gr j) ->
            ~ (dirent_off dir <= off < dirent_off dir + 16) ->
            mem_get img' off = mem_get img1 off).
  { intros off Hoff Hout Hd. apply Hfr'; auto. }
  split; [exact Hok'|]. split; [|split].
  - intros off Hoff Hout Hd. rewrite Hsame; try assumption.
    + destruct (Hout gi ltac:(lia)) as [Ha Hb]. apply Hfr1; auto.
    + intros j Hj. apply Hout. lia.
    + auto.
  - intros j Hj. destruct (decide (j = gi)) as [->|Hne].
    + split.
      * unfold gmap_get. rewrite Hsame.
        -- fold (gmap_get img1 (gr gi)). rewrite Hent1. subst resid.
           destruct (Z.leb_spec (L - gi * 2304) 2304);
             destruct (Z.ltb_spec (gi + 1) (ceil_div L 2304)); try lia;
             reflexivity.
        -- pose proof (Hgl gi ltac:(lia)). geom. lia.
        -- intros j Hj'.
           destruct (gmap_entry_outside gi ltac:(lia) j ltac:(lia))
             as (Ha & Hb & _).
           split; [exact Ha|]. apply Hb. lia.
        -- destruct (gmap_entry_outside gi ltac:(lia) gi ltac:(lia))
             as (_ & _ & Hc). exact Hc.
      * destruct Hdat1 as (d & Hd & Hlen & Hrd). subst resid.
        exists d. split; [exact Hd|]. split; [exact Hlen|].
        rewrite <- Hrd. apply mem_read_ext.
        -- pose proof (Hgl gi ltac:(lia)) as Hg.
           pose proof (granule_region _ Hg). lia.
        -- unfold image_ok in *. congruence.
        -- intros k Hk. apply Hsame.
           ++ pose proof (Hgl gi ltac:(lia)) as Hg.
              pose proof (granule_region _ Hg). lia.
           ++ intros j Hj'.
              destruct (granule_data_outside gi k ltac:(lia) ltac:(lia)
                          j ltac:(lia)) as (Ha & Hb & _).
              split; [apply Ha; lia|exact Hb].
           ++ destruct (granule_data_outside gi k ltac:(lia) ltac:(lia)
                          gi ltac:(lia)) as (_ & _ & Hc). exact Hc.
    + apply Hch'. lia.
  - intros _. apply Hdir'. lia.
Qed.

(** The asserts of the body hold, and a full read lets it fall through. *)
Lemma write_body_progress img gi resid :
  image_ok img -> 0 <= gi -> resid = L - gi * 2304 -> 0 < resid ->
  val (gmap_get img (gr gi)) = GMAP_ALLOCATED ->
  match write_body f img glist dir name ext type enc (ceil_div L 2304)
                   gi resid with
  | WB_Next _ => True
  | WB_ReadFailed _ =>
      forall d, in_pread f (cursz_of resid) (gi * 2304) = Some d ->
                (length d < Z.to_nat (cursz_of resid))%nat
  | WB_Crashed => False
  end.
Proof.
  intros Hok Hgi Hres Hpos Halloc. unfold write_body.
  destruct (granule_position L gi resid Hgi Hres Hpos) as (Hlt & Hlast).
  pose proof (cursz_of_spec resid Hpos) as (Hc1 & Hc2 & Hc3 & Hc4).
  rewrite Halloc, Z.eqb_refl. cbn [negb].
  unfold cocofs_pread. geom.
  destruct (in_pread f (cursz_of resid) (gi * 2304)) as [d|] eqn:Ed.
  2:{ destruct (Z.eqb_spec (-1) (cursz_of resid)); [lia|]. cbn [negb].
      intros d' Hd'. discriminate. }
  destruct (Z.eqb_spec (Z.of_nat (length (take (Z.to_nat (cursz_of resid)) d)))
                       (cursz_of resid)) as [Hrv|Hrv]; cbn [negb].
  2:{ intros d' [= <-]. rewrite length_take in Hrv. lia. }
  destruct (Z.leb_spec resid 2304) as [Hle|Hgt].
  - pose proof (nsec_bounds resid ltac:(lia)) as Hnsec.
    rewrite (val_u8_small (ceil_div resid 256)) by lia.
    destruct (Z.eqb_spec (gi + 1) (ceil_div L 2304)); [|lia]. cbn [negb].
    destruct (Z.leb_spec (ceil_div resid 256) 9); [|lia]. cbn [negb].
    pose proof (Z.mod_pos_bound resid 256 ltac:(lia)).
    destruct (Z.eqb_spec (resid mod 256) 0);
      [destruct (Z.leb_spec 256 256)|destruct (Z.leb_spec (resid mod 256) 256)];
      try lia; cbn [negb]; exact I.
  - destruct (Z.ltb_spec (gi + 1) (ceil_div L 2304)); [|lia]. exact I.
Qed.

Lemma write_loop_progress n : forall img gi resid,
  image_ok img -> 0 <= gi -> resid = L - gi * 2304 -> 0 <= resid ->
  ceil_div L 2304 <= gi + Z.of_nat n ->
  (forall j, gi <= j < ceil_div L 2304 ->
             val (gmap_get img (gr j)) = GMAP_ALLOCATED) ->
  match write_loop n f img glist dir name ext type enc (ceil_div L 2304)
                   gi resid with
  | WL_Done _ => True
  | WL_ReadFailed _ =>
      (exists j d, gi <= j < ceil_div L 2304 /\
         in_pread f (cursz_of (L - j * 2304)) (j * 2304) = Some d /\
         (length d < Z.to_nat (cursz_of (L - j * 2304)))%nat) \/
      (exists j, gi <= j < ceil_div L 2304 /\
         in_pread f (cursz_of (L - j * 2304)) (j * 2304) = None)
  | WL_Crashed => False
  end.
Proof.
  induction n as [|n IH]; intros img gi resid Hok Hgi Hres Hpos Hfuel Halloc;
    cbn [write_loop]; destruct (Z.eqb_spec resid 0) as [Hz|Hnz];
    try exact I.
  - assert (Hpos' : 0 < resid) by lia.
    destruct (granule_position L gi resid Hgi Hres Hpos') as (Hlt & _). lia.
  - assert (Hpos' : 0 < resid) by lia.
    destruct (granule_position L gi resid Hgi Hres Hpos') as (Hlt & Hlast).
    pose proof (cursz_of_spec resid Hpos') as (Hc1 & Hc2 & Hc3 & Hc4).
    pose proof (write_body_progress img gi resid Hok Hgi Hres Hpos'
                  (Halloc gi ltac:(lia))) as Hprog.
    destruct (write_body _ _ _ _ _ _ _ _ _ _ _) as [img1|img1|] eqn:Eb;
      [| |contradiction].
    + apply write_body_Next in Eb as (Hok1 & Hfr1 & _); try assumption.
      destruct (Z.le_gt_cases resid 2304) as [Hle|Hgt].
      * rewrite Hc3 by assumption. rewrite Z.sub_diag, write_loop_zero.
        exact I.
      * rewrite Hc4 by assumption.
        specialize (IH img1 (gi + 1) (resid - 2304) Hok1 ltac:(lia)
                       ltac:(lia) ltac:(lia) ltac:(lia)).
        assert (Halloc1 : forall j, gi + 1 <= j < ceil_div L 2304 ->
                  val (gmap_get img1 (gr j)) = GMAP_ALLOCATED).
        { intros j Hj. rewrite <- (Halloc j ltac:(lia)). f_equal.
          unfold gmap_get.
          destruct (gmap_entry_outside j ltac:(lia) gi ltac:(lia))
            as (Ha & Hb & _).
          pose proof (Hgl j ltac:(lia)).
          apply Hfr1; [geom; lia|exact Ha|apply Hb; lia|lia]. }
        specialize (IH Halloc1).
        destruct (write_loop _ _ _ _ _ _ _ _ _ _ _ _); try assumption.
        destruct IH as [(j & d & Hj & Hd)|(j & Hj & Hd)].
        -- left. exists j, d. split; [lia|exact Hd].
        -- right. exists j. split; [lia|exact Hd].
    + subst resid.
      destruct (in_pread f (cursz_of (L - gi * 2304)) (gi * 2304)) as [d|] eqn:Ed.
      * left. exists gi, d. split; [lia|]. split; [exact Ed|].
        apply Hprog. reflexivity.
      * right. exists gi. split; [lia|exact Ed].
Qed.

End DataLoop.

(** ** Walking a well-formed chain *)

Section Chain.

Variable glist : list byte.
Variables k nsec : Z.

Hypothesis Hnsec : 1 <= nsec <= 9.
Hypothesis Hgl : forall j, 0 <= j < k -> 0 <= val (glist_get glist j) < 68.
Hypothesis Hinj : forall i j,
    0 <= i < k -> 0 <= j < k -> glist_get glist i = glist_get glist j -> i = j.

Local Abbreviation gr j := (val (glist_get glist j)).
Local Abbreviation goff j := (cocofs_granule_to_offset (val (glist_get glist j))).

Lemma chain_entry_cases j :
  0 <= j < k ->
  let b := chain_entry glist k nsec j in
  gmap_entry_is_valid b = true /\ (val b =? GMAP_FREE) = false /\
  (j + 1 < k -> GMAP_IS_LAST (val b) = false /\ b = glist_get glist (j + 1)) /\
  (j + 1 = k -> GMAP_IS_LAST (val b) = true /\ GMAP_LAST_NSEC (val b) = nsec).
Proof.
  intros Hj b. unfold b, chain_entry.
  destruct (Z.ltb_spec (j + 1) k) as [Hlt|Hge].
  - pose proof (Hgl (j + 1) ltac:(lia)) as Hg.
    destruct (link_byte (glist_get glist (j + 1)) ltac:(lia)) as (H1 & H2 & H3).
    repeat split; try assumption; lia.
  - destruct (terminal_byte nsec Hnsec) as (H1 & H2 & H3 & H4).
    repeat split; try assumption; lia.
Qed.

(** [cocofs_rm]'s loop frees the chain from granule number [lo] on. *)
Lemma rm_loop_chain (m : nat) : forall lo fs fuel,
  k - lo = Z.of_nat (S m) -> 0 <= lo ->
  image_ok (image_data fs) ->
  (forall j, lo <= j < k ->
     gmap_get (image_data fs) (gr j) = chain_entry glist k nsec j) ->
  (S m <= fuel)%nat ->
  exists fs',
    rm_loop fuel fs (glist_get glist lo) = Some (None, fs') /\
    image_ok (image_data fs') /\
    free_granules fs' = u32 (free_granules fs + Z.of_nat (S m)) /\
    (forall j, lo <= j < k -> val (gmap_get (image_data fs') (gr j)) = GMAP_FREE) /\
    (forall off, 0 <= off ->
       (forall j, lo <= j < k -> off <> granule_map_off + gr j) ->
       mem_get (image_data fs') off = mem_get (image_data fs) off).
Proof.
  induction m as [|m IH]; intros lo fs fuel Hm Hlo Hok Hch Hfuel;
    (destruct fuel as [|fuel]; [lia|]); cbn [rm_loop];
    pose proof (Hgl lo ltac:(lia)) as Hg;
    (destruct (Z.leb_spec COCOFS_NGRANULES (gr lo)) as [Hbad|_];
       [geom; lia|]);
    rewrite (Hch lo ltac:(lia));
    destruct (chain_entry_cases lo ltac:(lia)) as (Hv & Hnf & Hlink & Hterm);
    rewrite Hv, Hnf; cbn [negb orb];
    set (fs1 := {| image_data := gmap_set (image_data fs) (gr lo) (u8 GMAP_FREE);
                   free_granules := u32 (free_granules fs + 1) |});
    assert (Hok1 : image_ok (image_data fs1))
      by (apply image_ok_gmap_set; exact Hok);
    assert (Hfree1 : val (gmap_get (image_data fs1) (gr lo)) = GMAP_FREE)
      by (cbn [fs1 image_data]; rewrite gmap_get_set_eq by assumption;
          reflexivity).
  - destruct (Hterm ltac:(lia)) as (Hl & _). rewrite Hl.
    exists fs1. split; [reflexivity|]. split; [exact Hok1|].
    split; [reflexivity|]. split.
    + intros j Hj. assert (j = lo) as -> by lia. exact Hfree1.
    + intros off Hoff Hne. specialize (Hne lo ltac:(lia)).
      cbn [fs1 image_data]. unfold gmap_set. geom.
      apply mem_get_set_ne; lia.
  - destruct (Hlink ltac:(lia)) as (Hl & Hb). rewrite Hl, Hb.
    assert (Hfr1 : forall off, 0 <= off -> off <> granule_map_off + gr lo ->
              mem_get (image_data fs1) off = mem_get (image_data fs) off).
    { intros off Hoff Hne. cbn [fs1 image_data]. unfold gmap_set. geom.
      apply mem_get_set_ne; lia. }
    assert (Hsep : forall j, lo + 1 <= j < k ->
              granule_map_off + gr j <> granule_map_off + gr lo).
    { intros j Hj Heq.
      assert (j = lo); [|lia].
      apply Hinj; [lia|lia|]. apply val_inj. lia. }
    destruct (IH (lo + 1) fs1 fuel ltac:(lia) ltac:(lia) Hok1)
      as (fs' & Hrun & Hok' & Hcnt & Hfreed & Hfr'); [|lia|].
    { intros j Hj. rewrite <- (Hch j ltac:(lia)). unfold gmap_get.
      pose proof (Hgl j ltac:(lia)).
      apply Hfr1; [geom; lia|apply Hsep; exact Hj]. }
    exists fs'. split; [exact Hrun|]. split; [exact Hok'|]. split; [|split].
    + rewrite Hcnt. cbn [fs1 free_granules]. unfold u32.
      rewrite Zplus_mod_idemp_l. f_equal. lia.
    + intros j Hj. destruct (decide (j = lo)) as [->|Hne].
      * rewrite <- Hfree1. f_equal. unfold gmap_get. apply Hfr'.
        -- geom. lia.
        -- intros j Hj' Heq. symmetry in Heq. exact (Hsep j Hj' Heq).
      * apply Hfreed. lia.
    + intros off Hoff Hne. rewrite Hfr'.
      * apply Hfr1; [exact Hoff|]. apply Hne. lia.
      * exact Hoff.
      * intros j Hj. apply Hne. lia.
Qed.

(** [cocofs_copyout]'s loop writes the full granules of the chain from
    granule number [lo] on and stops at the last one. *)
Lemma copyout_loop_chain (img : image) (content : list byte) (m : nat) :
  image_ok img ->
  (forall j, 0 <= j < k -> gmap_get img (gr j) = chain_entry glist k nsec j) ->
  (forall j, 0 <= j -> j + 1 < k ->
     mem_read img (goff j) 2304
     = take (Z.to_nat 2304) (drop (Z.to_nat (j * 2304)) content)) ->
  forall lo o fuel,
  k - 1 - lo = Z.of_nat m -> 0 <= lo ->
  out_room o = None -> (m < fuel)%nat ->
  copyout_loop fuel img o (glist_get glist lo) 0 =
  Some (CO_Break nsec (glist_get glist (k - 1))
          {| out_open := out_open o;
             out_data := out_data o ++
               take (Z.to_nat (Z.of_nat m * 2304))
                    (drop (Z.to_nat (lo * 2304)) content);
             out_room := None |}).
Proof.
  intros Hok Hch Hdata.
  induction m as [|m IH]; intros lo o fuel Hm Hlo Hroom Hfuel;
    (destruct fuel as [|fuel]; [lia|]); cbn [copyout_loop];
    pose proof (Hgl lo ltac:(lia)) as Hg;
    change (COCOFS_NGRANULES <? 0) with false; cbv iota;
    (destruct (Z.leb_spec COCOFS_NGRANULES (gr lo)) as [Hbad|_];
       [geom; lia|]);
    rewrite (Hch lo ltac:(lia));
    destruct (chain_entry_cases lo ltac:(lia)) as (Hv & Hnf & Hlink & Hterm);
    rewrite Hv, Hnf; cbn [negb orb].
  - destruct (Hterm ltac:(lia)) as (Hl & Hn). rewrite Hl, Hn.
    replace (k - 1) with lo by lia. do 2 f_equal.
    change (Z.to_nat (Z.of_nat 0 * 2304)) with 0%nat.
    rewrite take_0, app_nil_r. destruct o; cbn in *. congruence.
  - destruct (Hlink ltac:(lia)) as (Hl & Hb). rewrite Hl, Hb.
    unfold sys_write. rewrite Hroom. geom.
    pose proof (granule_region _ Hg) as Hreg.
    rewrite length_mem_read by (unfold image_ok in Hok; geom; lia).
    change (Z.of_nat (Z.to_nat 2304) =? 2304) with true. cbn [negb].
    rewrite (IH (lo + 1)) by (cbn [out_room]; lia || reflexivity).
    cbn [out_open out_data]. do 3 f_equal.
    rewrite <- app_assoc. f_equal.
    rewrite Hdata by lia.
    replace (Z.to_nat ((lo + 1) * 2304))
      with (Z.to_nat (lo * 2304) + Z.to_nat 2304)%nat by lia.
    rewrite <- drop_drop, take_take_drop. f_equal. lia.
Qed.

End Chain.

(** ** The add-file operation as a whole *)

Lemma alloc_loop_Some_count (n : nat) : forall fs last glist gi r,
  image_ok (image_data fs) -> 0 <= last < 68 ->
  alloc_loop n fs last glist gi = Some r ->
  Z.of_nat n <= count_free (image_data fs).
Proof.
  induction n as [|n IH]; intros fs last glist gi r Hok Hlast Hrun.
  - pose proof (count_free_range _ Hok). lia.
  - cbn [alloc_loop] in Hrun.
    destruct (cocofs_galloc fs last) as [[fs' g]|] eqn:Eg; [|discriminate].
    unfold cocofs_galloc in Eg.
    apply galloc_loop_Some in Eg as (Hg & Hfree & ->); [|exact Hlast].
    apply IH in Hrun; cbn [image_data];
      [|apply image_ok_gmap_set; exact Hok|exact Hg].
    cbn [image_data] in Hrun.
    rewrite count_free_alloc in Hrun; try assumption; [lia|].
    rewrite val_u8_small; geom; lia.
Qed.

Lemma ceil_div_le_self (a : Z) : 0 <= a -> 0 <= ceil_div a 2304 <= a.
Proof.
  intros H. unfold ceil_div.
  pose proof (Z.div_mod a 2304 ltac:(lia)).
  pose proof (Z.mod_pos_bound a 2304 ltac:(lia)).
  destruct (Z.eqb_spec (a mod 2304) 0); lia.
Qed.

(** The capacity check, read back: the length is a non-negative
    [unsigned int] and so is the granule count. *)
Lemma capacity_check_passed (fs : cocofs) (L : Z) :
  - 2 ^ 63 <= L < 2 ^ 63 ->
  (u32 (free_granules fs * COCOFS_BYTES_PER_GRANULE) <? L mod 2 ^ 64) = false ->
  0 <= L < 2 ^ 32 /\ u32 L = L /\
  u32 (ceil_div L COCOFS_BYTES_PER_GRANULE) = ceil_div L 2304 /\
  L <= u32 (free_granules fs * 2304).
Proof.
  intros Hrange Hcheck. apply Z.ltb_ge in Hcheck. geom.
  assert (Hu : 0 <= u32 (free_granules fs * 2304) < 2 ^ 32).
  { unfold u32, UINT_MOD. apply Z.mod_pos_bound. lia. }
  assert (Hst : 0 <= L).
  { destruct (Z.le_gt_cases 0 L) as [|Hneg]; [assumption|]. exfalso.
    assert (L mod 2 ^ 64 = L + 2 ^ 64)
      by (symmetry; apply (Z.mod_unique _ _ (-1)); lia).
    lia. }
  rewrite Z.mod_small in Hcheck by lia.
  pose proof (ceil_div_le_self L Hst).
  split; [lia|]. rewrite !u32_small by lia. auto.
Qed.

(** A successful add leaves the state described by [copyin_post]. *)
Lemma cocofs_copyin_success (fs : cocofs) (f : infile) (name ext : list byte)
      (type enc : byte) (fs' : cocofs) :
  fs_ok fs -> infile_ok f ->
  cocofs_copyin fs f name ext type enc = Returned None fs' ->
  exists dir glist L, copyin_post fs fs' f dir glist L.
Proof.
  intros [Hok Hcnt] Hf. unfold cocofs_copyin.
  destruct (in_open f); cbn [negb]; [|discriminate].
  destruct (in_fstat f) as [L|] eqn:EL; [|discriminate].
  destruct (_ <? _) eqn:Echeck; [discriminate|].
  destruct (capacity_check_passed fs L (Hf L EL) Echeck)
    as (HL & HuL & Huk & Hcap).
  rewrite HuL, Huk.
  destruct (Z.leb_spec (ceil_div L 2304) (free_granules fs)) as [Hk|Hk];
    cbn [negb]; [|discriminate].
  destruct (find_free_dirent _ _ _) as [dir|] eqn:Edir; [|discriminate].
  destruct (alloc_loop _ _ _ _ _) as [[fs1 glist]|] eqn:Ealloc; [|discriminate].
  destruct (write_loop _ _ _ _ _ _ _ _ _ _ _ _) as [img'| |] eqn:Ewrite;
    try discriminate.
  intros [= <-].
  pose proof (ceil_div_le_self L ltac:(lia)) as Hkpos.
  pose proof (alloc_loop_Some_count _ fs 34 _ _ _ Hok ltac:(lia) Ealloc)
    as Hcount.
  pose proof (count_free_range _ Hok) as Hcf.
  rewrite Z2Nat.id in Hcount by lia.
  apply alloc_loop_spec in Ealloc
    as ((Hok1 & Hlen1 & Hgr & Hinj & Hframe) & Hfree1 & _);
    [|split; assumption|geom; change (68 / 2) with 34; lia|lia
     |rewrite Z2Nat.id by lia; lia
     |rewrite length_replicate; reflexivity].
  rewrite Z.add_0_l, Z2Nat.id in * by lia.
  apply find_free_dirent_Some in Edir as Hdirfacts.
  destruct Hdirfacts as (Hdir & _). geom.
  change (Z.of_nat (Z.to_nat 72)) with 72 in Hdir.
  assert (Hgl : forall j, 0 <= j < ceil_div L 2304 ->
                  0 <= val (glist_get glist j) < 68).
  { intros j Hj. apply (Hgr j Hj). }
  apply (write_loop_Done f glist dir name ext type enc L ltac:(lia) Hgl Hinj)
    in Ewrite as (Hok' & _ & Hchain & Hdirent);
    [|exact Hok1|lia|lia|lia].
  exists dir, glist, L. unfold copyin_post. cbn [image_data free_granules]. geom.
  split; [exact EL|]. split; [lia|]. split; [lia|]. split; [lia|].
  split; [exact Edir|]. split; [exact Hok'|].
  split. { rewrite Hfree1. unfold UINT_MOD in Hcnt. apply u32_small. lia. }
  split. { intros j Hj. destruct (Hgr j Hj) as (H1 & H2 & _). auto. }
  split; [exact Hinj|]. split.
  - intros j Hj. destruct (Hchain j ltac:(lia)) as (Hent & Hdat).
    split; [|exact Hdat]. rewrite Hent. unfold chain_entry.
    destruct (Z.ltb_spec (j + 1) (ceil_div L 2304)); [reflexivity|].
    replace j with (ceil_div L 2304 - 1) by lia. reflexivity.
  - intros HLpos. destruct (Hdirent HLpos) as (_ & H1 & H2). auto.
Qed.

(** When the counter agrees with the map the operation never dies, and
    it fails in the data loop only on a read that falls short. *)
Lemma cocofs_copyin_total (fs : cocofs) (f : infile) (name ext : list byte)
      (type enc : byte) :
  fs_ok fs -> counter_consistent fs -> infile_ok f ->
  match cocofs_copyin fs f name ext type enc with
  | Crashed => False
  | Returned (Some CI_READ) _ =>
      exists L j, in_fstat f = Some L /\ 0 <= j < ceil_div L 2304 /\
        forall d, in_pread f (cursz_of (L - j * 2304)) (j * 2304) = Some d ->
                  (length d < Z.to_nat (cursz_of (L - j * 2304)))%nat
  | Returned _ _ => True
  end.
Proof.
  intros [Hok Hcnt] Hcons Hf. unfold cocofs_copyin.
  destruct (in_open f); cbn [negb]; [|exact I].
  destruct (in_fstat f) as [L|] eqn:EL; [|exact I].
  destruct (_ <? _) eqn:Echeck; [exact I|].
  destruct (capacity_check_passed fs L (Hf L EL) Echeck)
    as (HL & HuL & Huk & Hcap).
  rewrite HuL, Huk.
  pose proof (count_free_range _ Hok) as Hcf.
  unfold counter_consistent in Hcons.
  rewrite u32_small in Hcap by lia.
  pose proof (ceil_div_bounds L (free_granules fs) ltac:(lia)) as Hk.
  destruct (Z.leb_spec (ceil_div L 2304) (free_granules fs)); [|lia].
  cbn [negb].
  destruct (find_free_dirent _ _ _) as [dir|] eqn:Edir; [|exact I].
  destruct (alloc_loop_succeeds (Z.to_nat (ceil_div L 2304)) fs 34
              (replicate (Z.to_nat COCOFS_NGRANULES) xff) 0 Hok
              ltac:(lia) ltac:(lia)) as (fs1 & glist & Ealloc).
  change (COCOFS_NGRANULES / 2) with 34. rewrite Ealloc.
  apply alloc_loop_spec in Ealloc
    as ((Hok1 & Hlen1 & Hgr & Hinj & Hframe) & Hfree1 & _);
    [|split; assumption|lia|lia|rewrite Z2Nat.id by lia; lia
     |rewrite length_replicate; reflexivity].
  rewrite Z.add_0_l, Z2Nat.id in * by lia.
  apply find_free_dirent_Some in Edir as (Hdir & _). geom.
  change (Z.of_nat (Z.to_nat 72)) with 72 in Hdir.
  assert (Hgl : forall j, 0 <= j < ceil_div L 2304 ->
                  0 <= val (glist_get glist j) < 68).
  { intros j Hj. apply (Hgr j Hj). }
  pose proof (write_loop_progress f glist dir name ext type enc L
                ltac:(lia) Hgl Hinj (Z.to_nat 68) (image_data fs1) 0 L Hok1
                ltac:(lia) ltac:(lia) ltac:(lia) ltac:(lia)) as Hprog.
  destruct (write_loop _ _ _ _ _ _ _ _ _ _ _ _) as [img'|img'|].
  - exact I.
  - destruct Hprog as [(j & d & Hj & Hd & Hshort)|(j & Hj & Hd)].
    + intros j' Hj'. apply (Hgr j' Hj').
    + exists L, j. split; [reflexivity|]. split; [lia|].
      intros d' Hd'. congruence.
    + exists L, j. split; [reflexivity|]. split; [lia|].
      intros d' Hd'. congruence.
  - apply Hprog. intros j Hj. apply (Hgr j Hj).
Qed.

(** Reading a regular file never falls short. *)
Lemma regular_file_reads (content : list byte) (j : Z) :
  0 <= j -> 0 < Z.of_nat (length content) - j * 2304 ->
  let c := cursz_of (Z.of_nat (length content) - j * 2304) in
  in_pread (regular_file content) c (j * 2304)
  = Some (take (Z.to_nat c) (drop (Z.to_nat (j * 2304)) content)) /\
  length (take (Z.to_nat c) (drop (Z.to_nat (j * 2304)) content)) = Z.to_nat c.
Proof.
  intros Hj Hpos c. split; [reflexivity|].
  destruct (cursz_of_spec _ Hpos) as (Hc1 & Hc2 & _).
  rewrite length_take, length_drop. unfold c. lia.
Qed.

(** Which failure is reported tells which step failed. *)
Lemma cocofs_copyin_error_inv (fs : cocofs) (f : infile) (name ext : list byte)
      (type enc : byte) (e : copyin_error) (fs' : cocofs) :
  cocofs_copyin fs f name ext type enc = Returned (Some e) fs' ->
  match e with
  | CI_OPEN => in_open f = false
  | CI_STAT => in_open f = true /\ in_fstat f = None
  | CI_NOSPC =>
      in_open f = true /\ exists L, in_fstat f = Some L /\
        (u32 (free_granules fs * COCOFS_BYTES_PER_GRANULE) <? L mod 2 ^ 64)
        = true
  | CI_NODIR =>
      in_open f = true /\ exists L, in_fstat f = Some L /\
        (u32 (free_granules fs * COCOFS_BYTES_PER_GRANULE) <? L mod 2 ^ 64)
        = false /\
        find_free_dirent (Z.to_nat COCOFS_DIR_TRACK_NENTRIES)
                         (image_data fs) 0 = None
  | CI_READ =>
      in_open f = true /\ exists L, in_fstat f = Some L /\
        (u32 (free_granules fs * COCOFS_BYTES_PER_GRANULE) <? L mod 2 ^ 64)
        = false
  end.
Proof.
  unfold cocofs_copyin.
  destruct (in_open f); cbn [negb]; [|intros [= <- <-]; reflexivity].
  destruct (in_fstat f) as [L|]; [|intros [= <- <-]; auto].
  destruct (_ <? _) eqn:Echeck; [intros [= <- <-]; eauto|].
  destruct (negb _); [discriminate|].
  destruct (find_free_dirent _ _ _) eqn:Edir; [|intros [= <- <-]; eauto].
  destruct (alloc_loop _ _ _ _ _) as [[? ?]|]; [|discriminate].
  destruct (write_loop _ _ _ _ _ _ _ _ _ _ _ _); try discriminate.
  intros [= <- <-]. eauto.
Qed.

Lemma cocofs_copyin_regular_succeeds (fs : cocofs) (content name ext : list byte)
      (type enc : byte) :
  fs_ok fs -> counter_consistent fs ->
  Z.of_nat (length content) <= free_granules fs * 2304 ->
  (exists i, 0 <= i < COCOFS_DIR_TRACK_NENTRIES /\
             val (d_type (image_data fs) i) = COCOFS_DIRENT_TYPE_FREE) ->
  exists fs', cocofs_copyin fs (regular_file content) name ext type enc
              = Returned None fs'.
Proof.
  intros Hfs Hcons Hcap (i & Hi & Hslot).
  assert (Hf : infile_ok (regular_file content)).
  { intros L [= <-]. destruct Hfs as [_ Hcnt]. unfold UINT_MOD in Hcnt. lia. }
  pose proof (cocofs_copyin_total fs (regular_file content) name ext type enc
                Hfs Hcons Hf) as Htot.
  destruct (cocofs_copyin fs (regular_file content) name ext type enc)
    as [[e|] fs'|] eqn:Erun; [|eauto|contradiction].
  exfalso. destruct Hfs as [Hok Hcnt]. unfold UINT_MOD in Hcnt.
  pose proof (count_free_range _ Hok) as Hcf.
  unfold counter_consistent in Hcons.
  apply cocofs_copyin_error_inv in Erun.
  destruct e; cbn [regular_file in_open in_fstat] in Erun.
  - discriminate.
  - destruct Erun; discriminate.
  - destruct Erun as (_ & L & [= <-] & Hchk). geom.
    rewrite u32_small, Z.mod_small in Hchk by lia.
    apply Z.ltb_lt in Hchk. lia.
  - destruct Erun as (_ & L & _ & _ & Edir).
    apply (find_free_dirent_None _ _ _ Edir i); [geom; lia|exact Hslot].
  - destruct Htot as (L & j & [= <-] & Hj & Hshort).
    pose proof (ceil_div_bounds (Z.of_nat (length content)) (free_granules fs)
                  ltac:(lia)) as Hk.
    assert (Hres : 0 < Z.of_nat (length content) - j * 2304).
    { unfold ceil_div in Hj.
      pose proof (Z.div_mod (Z.of_nat (length content)) 2304 ltac:(lia)).
      pose proof (Z.mod_pos_bound (Z.of_nat (length content)) 2304 ltac:(lia)).
      destruct (Z.eqb_spec (Z.of_nat (length content) mod 2304) 0); lia. }
    destruct (regular_file_reads content j ltac:(lia) Hres) as (Hrd & Hlen).
    specialize (Hshort _ Hrd). lia.
Qed.

(** ** A freshly formatted image *)

Lemma format_image_ok : image_ok (image_data cocofs_format).
Proof. unfold image_ok, cocofs_format. cbn [image_data]. apply length_replicate. Qed.

Lemma format_fs_ok : fs_ok cocofs_format.
Proof.
  split; [exact format_image_ok|].
  unfold cocofs_format, UINT_MOD. cbn [free_granules]. geom. lia.
Qed.

Lemma format_mem_get (off : Z) :
  0 <= off < COCOFS_TOTALSIZE -> mem_get (image_data cocofs_format) off = xff.
Proof.
  intros H. unfold mem_get, cocofs_format. cbn [image_data].
  rewrite lookup_replicate_2 by lia. reflexivity.
Qed.

Lemma format_count_free : count_free (image_data cocofs_format) = 68.
Proof.
  unfold count_free, granule_map_bytes, mem_read, cocofs_format.
  cbn [image_data].
  rewrite drop_replicate, take_replicate.
  replace (Z.to_nat COCOFS_NGRANULES `min`
           (Z.to_nat COCOFS_TOTALSIZE - Z.to_nat granule_map_off))%nat
    with 68%nat by (geom; lia).
  reflexivity.
Qed.

Lemma format_counter_consistent : counter_consistent cocofs_format.
Proof. unfold counter_consistent. rewrite format_count_free. reflexivity. Qed.

Lemma format_slot_free (i : Z) :
  0 <= i < COCOFS_DIR_TRACK_NENTRIES ->
  val (d_type (image_data cocofs_format) i) = COCOFS_DIRENT_TYPE_FREE.
Proof.
  intros H. unfold d_type. rewrite format_mem_get; [reflexivity|].
  unfold dirent_off. geom. lia.
Qed.

(** ** Adding a file, then removing it *)

Lemma last_resid_bounds (L : Z) :
  0 < L ->
  1 <= ceil_div L 2304 /\
  0 < L - (ceil_div L 2304 - 1) * 2304 <= 2304.
Proof.
  intros H. unfold ceil_div.
  pose proof (Z.div_mod L 2304 ltac:(lia)).
  pose proof (Z.mod_pos_bound L 2304 ltac:(lia)).
  destruct (Z.eqb_spec (L mod 2304) 0); lia.
Qed.

(** C8.  A successful add of a file of [L > 0] bytes, needing
    [k = ceil(L / 2304)] granules, leaves the free-granule counter at
    [f - k]; removing the directory entry it wrote then succeeds and brings
    the counter back to [f]. *)
Theorem granule_accounting (fs : cocofs) (f : infile) (name ext : list byte)
        (type enc : byte) (L : Z) (fs1 : cocofs) :
  fs_ok fs -> infile_ok f ->
  in_fstat f = Some L -> 1 <= ceil_div L COCOFS_BYTES_PER_GRANULE ->
  cocofs_copyin fs f name ext type enc = Returned None fs1 ->
  free_granules fs1 = free_granules fs - ceil_div L COCOFS_BYTES_PER_GRANULE /\
  exists dir,
    find_free_dirent (Z.to_nat COCOFS_DIR_TRACK_NENTRIES) (image_data fs) 0
    = Some dir /\
    forall fuel, (68 <= fuel)%nat ->
      exists fs2, cocofs_rm fuel fs1 dir = Some (None, fs2) /\
                  free_granules fs2 = free_granules fs.
Proof.
  intros Hfs Hf HL Hk Hrun. geom.
  destruct (cocofs_copyin_success _ _ _ _ _ _ _ Hfs Hf Hrun)
    as (dir & glist & L' & HL' & HLpos & Hk68 & Hkfree & Hdir & Hok1 & Hfree1
        & Hgr & Hinj & Hchain & Hdirent).
  assert (L' = L) as -> by congruence.
  assert (HLpos' : 0 < L).
  { destruct (Z.eq_dec L 0) as [->|]; [|lia]. vm_compute in Hk. congruence. }
  destruct (last_resid_bounds L HLpos') as (_ & Hresid).
  pose proof (nsec_bounds _ Hresid) as Hnsec.
  destruct (Hdirent HLpos') as (Hfirst & _).
  split; [exact Hfree1|]. exists dir. split; [exact Hdir|].
  intros fuel Hfuel. unfold cocofs_rm. rewrite Hfirst.
  destruct (rm_loop_chain glist (ceil_div L 2304) _ Hnsec
              (fun j Hj => proj1 (Hgr j Hj)) Hinj
              (Z.to_nat (ceil_div L 2304 - 1)) 0 fs1 fuel
              ltac:(lia) ltac:(lia) Hok1
              (fun j Hj => proj1 (Hchain j Hj)) ltac:(lia))
    as (fs' & Hrm & _ & Hcnt & _).
  rewrite Hrm. eexists. split; [reflexivity|]. cbn [free_granules].
  rewrite Hcnt, Hfree1. destruct Hfs as [_ Hrange]. unfold UINT_MOD in Hrange.
  rewrite u32_small by lia. lia.
Qed.

(** ** Adding a file, then copying it out *)

Lemma last_nbytes_eq (r : Z) :
  0 < r <= 2304 ->
  ceil_div r 256 * 256
  - (256 - (if r mod 256 =? 0 then 256 else r mod 256)) = r.
Proof.
  intros H. unfold ceil_div.
  pose proof (Z.div_mod r 256 ltac:(lia)).
  pose proof (Z.mod_pos_bound r 256 ltac:(lia)).
  destruct (Z.eqb_spec (r mod 256) 0); lia.
Qed.

(** Copying out the file a successful add has written gives back the
    bytes the add has read, whatever the state was before. *)
Lemma copyin_post_copyout (fs fs' : cocofs) (content : list byte) (dir : Z)
      (glist : list byte) (o : outfile) (fuel : nat) :
  copyin_post fs fs' (regular_file content) dir glist
              (Z.of_nat (length content)) ->
  (1 <= length content)%nat ->
  out_open o = true -> out_room o = None -> (68 <= fuel)%nat ->
  cocofs_copyout fuel fs' dir o =
  Some (None, {| out_open := true; out_data := out_data o ++ content;
                 out_room := None |}).
Proof.
  set (L := Z.of_nat (length content)).
  intros (HL & HLpos & Hk68 & Hkfree & Hdir & Hok1 & Hfree1
          & Hgr & Hinj & Hchain & Hdirent) Hlen Hopen Hroom Hfuel.
  assert (HLpos' : 0 < L) by (unfold L; lia).
  destruct (last_resid_bounds L HLpos') as (Hk1 & Hresid).
  pose proof (nsec_bounds _ Hresid) as Hnsec.
  destruct (Hdirent HLpos') as (Hfirst & Hlast).
  set (k := ceil_div L 2304) in *.
  set (r := L - (k - 1) * 2304) in *.
  assert (Hgl : forall j, 0 <= j < k -> 0 <= val (glist_get glist j) < 68)
    by (intros j Hj; apply (Hgr j Hj)).
  (* what the granules hold *)
  assert (Hdata : forall j, 0 <= j < k ->
            mem_read (image_data fs')
                     (cocofs_granule_to_offset (val (glist_get glist j)))
                     (cursz_of (L - j * 2304))
            = take (Z.to_nat (cursz_of (L - j * 2304)))
                   (drop (Z.to_nat (j * 2304)) content)).
  { intros j Hj. destruct (Hchain j Hj) as (_ & d & Hd & _ & Hrd).
    assert (Hres : 0 < L - j * 2304) by (unfold r in Hresid; lia).
    destruct (regular_file_reads content j ltac:(lia) Hres) as (Hrf & _).
    fold L in Hrf. cbv zeta in Hrf. rewrite Hrf in Hd. injection Hd as <-.
    rewrite Hrd, take_take. f_equal. lia. }
  unfold cocofs_copyout. rewrite Hopen. cbn [negb]. rewrite Hfirst.
  rewrite (copyout_loop_chain glist k _ Hnsec Hgl (image_data fs') content
             (Z.to_nat (k - 1)) Hok1 (fun j Hj => proj1 (Hchain j Hj)));
    [| |lia|lia|exact Hroom|lia].
  2:{ intros j Hj0 Hj1. pose proof (Hdata j ltac:(lia)) as Hdj.
      destruct (cursz_of_spec (L - j * 2304) ltac:(unfold r in Hresid; lia))
        as (_ & _ & _ & Hc).
      rewrite Hc in Hdj by (unfold r in Hresid; lia). exact Hdj. }
  geom.
  destruct (Z.ltb_spec (ceil_div r 256) 1); [lia|].
  destruct (Z.ltb_spec 9 (ceil_div r 256)); [lia|]. cbn [orb].
  rewrite Hlast.
  pose proof (Z.mod_pos_bound r 256 ltac:(lia)) as Hmod.
  set (lb := if r mod 256 =? 0 then 256 else r mod 256).
  assert (Hlb : 0 < lb <= 256)
    by (unfold lb; destruct (Z.eqb_spec (r mod 256) 0); lia).
  rewrite lastbytes_roundtrip by lia.
  destruct (Z.ltb_spec 256 lb); [lia|].
  pose proof (last_nbytes_eq r Hresid) as Hnb. fold lb in Hnb.
  rewrite Hnb. rewrite u32_small by lia.
  specialize (Hdata (k - 1) ltac:(lia)). fold r in Hdata.
  destruct (cursz_of_spec r ltac:(lia)) as (_ & _ & Hc & _).
  rewrite Hc in Hdata by lia. rewrite Hdata.
  unfold sys_write. cbn [out_room out_data out_open].
  assert (Hlen' : Z.of_nat (length (take (Z.to_nat r)
                    (drop (Z.to_nat ((k - 1) * 2304)) content))) = r).
  { rewrite length_take, length_drop. unfold r, L. lia. }
  rewrite Hlen', Z.eqb_refl. cbn [negb]. do 3 f_equal; [exact Hopen|].
  rewrite <- app_assoc. f_equal.
  change (Z.to_nat (0 * 2304)) with 0%nat. rewrite drop_0.
  replace (Z.to_nat (Z.of_nat (Z.to_nat (k - 1)) * 2304))
    with (Z.to_nat ((k - 1) * 2304)) by lia.
  rewrite take_take_drop. apply take_ge. unfold r, L in *. lia.
Qed.

(** C5.  On a freshly formatted image, adding a file of [L] bytes with
    [1 <= L <= 68 * 2304] succeeds, and copying the entry out again writes
    exactly those [L] bytes to a new output file. *)
Theorem format_copyin_copyout_roundtrip (content name ext : list byte)
        (type enc : byte) (o : outfile) (fuel : nat) :
  1 <= Z.of_nat (length content) <= COCOFS_NGRANULES * COCOFS_BYTES_PER_GRANULE ->
  out_open o = true -> out_data o = [] -> out_room o = None ->
  (68 <= fuel)%nat ->
  exists fs' o',
    cocofs_copyin cocofs_format (regular_file content) name ext type enc
    = Returned None fs' /\

    cocofs_copyout fuel fs' 0 o = Some (None, o') /\
    out_data o' = content.
Proof.
  intros HL Hopen Hdata Hroom Hfuel. geom.
  assert (Hslot : exists i, 0 <= i < COCOFS_DIR_TRACK_NENTRIES /\
            val (d_type (image_data cocofs_format) i) = COCOFS_DIRENT_TYPE_FREE).
  { exists 0. split; [geom; lia|]. apply format_slot_free. geom. lia. }
  destruct (cocofs_copyin_regular_succeeds cocofs_format content name ext
              type enc format_fs_ok format_counter_consistent
              ltac:(cbn [cocofs_format free_granules]; geom; lia) Hslot)
    as (fs' & Hrun).
  assert (Hf : infile_ok (regular_file content)) by (intros L [= <-]; lia).
  destruct (cocofs_copyin_success _ _ _ _ _ _ _ format_fs_ok Hf Hrun)
    as (dir & glist & L & Hpost).
  assert (L = Z.of_nat (length content)) as ->.
  { destruct Hpost as (HL' & _). cbn in HL'. congruence. }
  assert (dir = 0) as ->.
  { destruct Hpost as (_ & _ & _ & _ & Hdir & _).
    apply find_free_dirent_Some in Hdir as (Hr & _ & Hbefore).
    destruct (Z.eq_dec dir 0) as [|Hne]; [assumption|]. exfalso.
    apply (Hbefore 0); [lia|]. apply format_slot_free. geom. lia. }
  exists fs'. eexists. split; [exact Hrun|]. split.
  - apply (copyin_post_copyout _ _ _ _ _ _ _ Hpost); try assumption. lia.
  - cbn [out_data]. rewrite Hdata. reflexivity.
Qed.

(** ** A failed add *)

Lemma mem_get_lookup img k :
  0 <= k -> (Z.to_nat k < length img)%nat ->
  img !! Z.to_nat k = Some (mem_get img k).
Proof.
  intros Hk Hlt. unfold mem_get.
  destruct (lookup_lt_is_Some_2 img _ Hlt) as [x Hx]. rewrite Hx. reflexivity.
Qed.

Lemma mem_read_replicate img off n b :
  0 <= off -> 0 <= n -> (Z.to_nat (off + n) <= length img)%nat ->
  (forall k, off <= k < off + n -> mem_get img k = b) ->
  mem_read img off n = replicate (Z.to_nat n) b.
Proof.
  intros Hoff Hn Hlen Hall. apply list_eq. intros i.
  rewrite mem_read_lookup. destruct (decide (i < Z.to_nat n)%nat).
  - rewrite lookup_replicate_2 by assumption.
    replace (Z.to_nat off + i)%nat with (Z.to_nat (off + Z.of_nat i)) by lia.
    rewrite mem_get_lookup by lia. f_equal. apply Hall. lia.
  - symmetry. apply lookup_replicate_None. lia.
Qed.

Lemma mem_get_of_read img off n k b :
  0 <= off -> off <= k < off + n ->
  mem_read img off n = replicate (Z.to_nat n) b ->
  (Z.to_nat (off + n) <= length img)%nat ->
  mem_get img k = b.
Proof.
  intros Hoff Hk Hrd Hlen.
  assert (H : mem_read img off n !! Z.to_nat (k - off) = Some b).
  { rewrite Hrd. apply lookup_replicate_2. lia. }
  rewrite mem_read_lookup in H.
  destruct (decide (Z.to_nat (k - off) < Z.to_nat n)%nat); [|discriminate].
  replace (Z.to_nat off + Z.to_nat (k - off))%nat with (Z.to_nat k) in H by lia.
  unfold mem_get. rewrite H. reflexivity.
Qed.

(** Inside the directory track, a failed add changes at most the slot it
    had claimed, which it fills with 0xFF. *)
Lemma cocofs_copyin_failure_track (fs : cocofs) (f : infile)
      (name ext : list byte) (type enc : byte) (e : copyin_error)
      (fs' : cocofs) :
  fs_ok fs -> infile_ok f ->
  cocofs_copyin fs f name ext type enc = Returned (Some e) fs' ->
  free_granules fs' = free_granules fs /\
  image_ok (image_data fs') /\
  (e <> CI_READ -> fs' = fs) /\
  (e = CI_READ ->
   exists dir,
     find_free_dirent (Z.to_nat COCOFS_DIR_TRACK_NENTRIES)
                      (image_data fs) 0 = Some dir /\
     (forall k, dirent_off dir <= k < dirent_off dir + SIZEOF_DIRENT ->
                mem_get (image_data fs') k = xff) /\
     (forall k, 78336 <= k < 82944 ->
                ~ (dirent_off dir <= k < dirent_off dir + SIZEOF_DIRENT) ->
                mem_get (image_data fs') k = mem_get (image_data fs) k)).
Proof.
  intros [Hok Hcnt] Hf. unfold cocofs_copyin.
  destruct (in_open f); cbn [negb];
    [|intros [= <- <-]; split; [reflexivity|]; split; [exact Hok|];
      split; [reflexivity|discriminate]].
  assert (Hsame : forall e0, Returned (Some e0)
             (rollback (image_data fs) None
                (mem_read (image_data fs) granule_map_off COCOFS_NGRANULES)
                (free_granules fs)) = Returned (Some e) fs' ->
           e0 <> CI_READ ->
           free_granules fs' = free_granules fs /\
           image_ok (image_data fs') /\ (e <> CI_READ -> fs' = fs) /\
           (e = CI_READ ->
            exists dir,
              find_free_dirent (Z.to_nat COCOFS_DIR_TRACK_NENTRIES)
                               (image_data fs) 0 = Some dir /\
              (forall k, dirent_off dir <= k < dirent_off dir + SIZEOF_DIRENT ->
                         mem_get (image_data fs') k = xff) /\
              (forall k, 78336 <= k < 82944 ->
                 ~ (dirent_off dir <= k < dirent_off dir + SIZEOF_DIRENT) ->
                 mem_get (image_data fs') k = mem_get (image_data fs) k))).
  { intros e0. rewrite rollback_unchanged. intros [= <- <-] Hne.
    split; [reflexivity|]. split; [exact Hok|]. split; [reflexivity|].
    intros He. contradiction. }
  destruct (in_fstat f) as [L|] eqn:EL; [|intros H; apply (Hsame _ H); discriminate].
  destruct (_ <? _) eqn:Echeck; [intros H; apply (Hsame _ H); discriminate|].
  destruct (capacity_check_passed fs L (Hf L EL) Echeck)
    as (HL & HuL & Huk & Hcap).
  rewrite HuL, Huk.
  destruct (Z.leb_spec (ceil_div L 2304) (free_granules fs)) as [Hk|Hk];
    cbn [negb]; [|discriminate].
  destruct (find_free_dirent _ _ _) as [dir|] eqn:Edir;
    [|intros H; apply (Hsame _ H); discriminate].
  destruct (alloc_loop _ _ _ _ _) as [[fs1 glist]|] eqn:Ealloc; [|discriminate].
  destruct (write_loop _ _ _ _ _ _ _ _ _ _ _ _) as [img'|img'|] eqn:Ewrite;
    try discriminate.
  intros [= <- <-]. clear Hsame.
  pose proof (ceil_div_le_self L ltac:(lia)) as Hkpos.
  pose proof (alloc_loop_Some_count _ fs 34 _ _ _ Hok ltac:(lia) Ealloc)
    as Hcount.
  pose proof (count_free_range _ Hok) as Hcf.
  rewrite Z2Nat.id in Hcount by lia.
  apply alloc_loop_spec in Ealloc
    as ((Hok1 & Hlen1 & Hgr & Hinj & Hframe) & Hfree1 & _);
    [|split; assumption|geom; change (68 / 2) with 34; lia|lia
     |rewrite Z2Nat.id by lia; lia
     |rewrite length_replicate; reflexivity].
  rewrite Z.add_0_l, Z2Nat.id in * by lia.
  apply find_free_dirent_Some in Edir as Hdirfacts.
  destruct Hdirfacts as (Hdir & _). geom.
  change (Z.of_nat (Z.to_nat 72)) with 72 in Hdir.
  assert (Hgl : forall j, 0 <= j < ceil_div L 2304 ->
                  0 <= val (glist_get glist j) < 68).
  { intros j Hj. apply (Hgr j Hj). }
  apply (write_loop_ReadFailed f glist dir name ext type enc L ltac:(lia)
           Hgl) in Ewrite as (Hok' & Hfr'); [|exact Hok1|lia|lia|lia].
  unfold rollback. cbn [image_data free_granules]. geom.
  set (orig := mem_read (image_data fs) 78592 68).
  assert (Horig : length orig = 68%nat).
  { unfold orig. apply length_mem_read; try lia.
    unfold image_ok in Hok. geom. lia. }
  split; [reflexivity|].
  split; [apply image_ok_mem_write, image_ok_memset; exact Hok'|].
  split; [congruence|].
  intros _. exists dir. split; [reflexivity|].
  unfold dirent_off. geom.
  (* bytes of the track that lie neither in the map nor in the slot *)
  assert (Hkeep : forall k, 78336 <= k < 82944 ->
            ~ (78592 <= k < 78592 + 68) ->
            mem_get img' k = mem_get (image_data fs) k).
  { intros k0 Hk0 Hnm. rewrite Hfr'; [|lia|].
    - apply Hframe; [lia|]. intros j Hj. pose proof (Hgl j Hj). lia.
    - intros j Hj. pose proof (Hgl j ltac:(lia)) as Hg.
      pose proof (granule_region _ Hg). lia. }
  split.
  - intros k Hin. rewrite mem_get_write_out by lia. unfold memset.
    rewrite mem_get_write_in.
    + rewrite lookup_replicate_2; [reflexivity|]. lia.
    + lia.
    + rewrite length_replicate. lia.
    + rewrite length_replicate. unfold image_ok in Hok'. geom. lia.
  - intros k Hk' Hout.
    destruct (decide (78592 <= k < 78592 + 68)) as [Hmap|Hnmap].
    + rewrite mem_get_write_in by
        (try lia; rewrite length_memset; unfold image_ok in Hok'; geom; lia).
      unfold orig. rewrite mem_read_lookup.
      destruct (decide (Z.to_nat (k - 78592) < Z.to_nat 68)%nat); [|lia].
      replace (Z.to_nat 78592 + Z.to_nat (k - 78592))%nat with (Z.to_nat k)
        by lia.
      reflexivity.
    + rewrite mem_get_write_out by lia.
      rewrite mem_get_memset_out by lia.
      apply Hkeep; assumption.
Qed.

(** A failed add leaves the Granule Map as it was. *)
Lemma cocofs_copyin_failure_map (fs : cocofs) (f : infile)
      (name ext : list byte) (type enc : byte) (e : copyin_error)
      (fs' : cocofs) :
  fs_ok fs -> infile_ok f ->
  cocofs_copyin fs f name ext type enc = Returned (Some e) fs' ->
  granule_map_bytes (image_data fs') = granule_map_bytes (image_data fs).
Proof.
  intros Hfs Hf Hrun.
  destruct (cocofs_copyin_failure_track _ _ _ _ _ _ _ _ Hfs Hf Hrun)
    as (Hfree & Hok' & Hother & Hread).
  destruct Hfs as [Hok Hcnt].
  assert (Hcase : e = CI_READ \/ e <> CI_READ)
    by (destruct e; (left; reflexivity) || (right; discriminate)).
  destruct Hcase as [He|He]; [|rewrite (Hother He); reflexivity].
  destruct (Hread He) as (dir & Hdir & Hff & Hkeep).
  apply find_free_dirent_Some in Hdir as (Hd & _).
  unfold dirent_off in *. geom.
  change (Z.of_nat (Z.to_nat 72)) with 72 in Hd.
  unfold image_ok in *. unfold granule_map_bytes. geom.
  apply mem_read_ext; [lia|congruence|]. intros k Hk. apply Hkeep; lia.
Qed.

(** C1 (as amended).  After a failed add the free-granule counter and all
    68 bytes of the Granule Map have their values from before the attempt.
    After a failure other than a failed read every directory slot is
    byte-for-byte unchanged.  After a failed read the slot the add had
    claimed (the lowest slot with type byte 0xFF) holds 32 bytes 0xFF and
    every other slot is byte-for-byte unchanged; so the whole directory is
    unchanged whenever that slot held this erased pattern before. *)
Theorem cocofs_copyin_failure_rollback (fs : cocofs) (f : infile)
        (name ext : list byte) (type enc : byte) (e : copyin_error)
        (fs' : cocofs) :
  fs_ok fs -> infile_ok f ->
  cocofs_copyin fs f name ext type enc = Returned (Some e) fs' ->
  free_granules fs' = free_granules fs /\
  granule_map_bytes (image_data fs') = granule_map_bytes (image_data fs) /\
  (e <> CI_READ ->
   forall i, 0 <= i < COCOFS_DIR_TRACK_NENTRIES ->
     dirent_bytes (image_data fs') i = dirent_bytes (image_data fs) i) /\
  (e = CI_READ ->
   exists dir,
     find_free_dirent (Z.to_nat COCOFS_DIR_TRACK_NENTRIES)
                      (image_data fs) 0 = Some dir /\
     0 <= dir < COCOFS_DIR_TRACK_NENTRIES /\
     dirent_bytes (image_data fs') dir
     = replicate (Z.to_nat SIZEOF_DIRENT) xff /\
     forall i, 0 <= i < COCOFS_DIR_TRACK_NENTRIES -> i <> dir ->
       dirent_bytes (image_data fs') i = dirent_bytes (image_data fs) i) /\
  ((forall i, find_free_dirent (Z.to_nat COCOFS_DIR_TRACK_NENTRIES)
                               (image_data fs) 0 = Some i ->
              dirent_bytes (image_data fs) i
              = replicate (Z.to_nat SIZEOF_DIRENT) xff) ->
   directory_bytes (image_data fs') = directory_bytes (image_data fs)).
Proof.
  intros Hfs Hf Hrun.
  destruct (cocofs_copyin_failure_track _ _ _ _ _ _ _ _ Hfs Hf Hrun)
    as (Hfree & Hok' & Hother & Hread).
  destruct Hfs as [Hok Hcnt]. split; [exact Hfree|].
  assert (Hcase : e = CI_READ \/ e <> CI_READ)
    by (destruct e; (left; reflexivity) || (right; discriminate)).
  destruct Hcase as [He|He].
  2:{ rewrite (Hother He). split; [reflexivity|]. split; [auto|].
      split; [intros H; contradiction|auto]. }
  destruct (Hread He) as (dir & Hdir & Hff & Hkeep).
  apply find_free_dirent_Some in Hdir as Hdirfacts.
  destruct Hdirfacts as (Hd & _). unfold dirent_off in *. geom.
  change (Z.of_nat (Z.to_nat 72)) with 72 in Hd.
  unfold image_ok in *. geom.
  assert (Hlen : length (image_data fs) = length (image_data fs')) by congruence.
  split; [|split; [|split]].
  - unfold granule_map_bytes. geom.
    apply mem_read_ext; [lia|congruence|]. intros k Hk. apply Hkeep; lia.
  - intros Hne. contradiction.
  - intros _. exists dir. split; [exact Hdir|]. split; [lia|]. split.
    + unfold dirent_bytes, dirent_off. geom.
      apply mem_read_replicate; [lia|lia|lia|]. intros k Hk. apply Hff. lia.
    + intros i Hi Hne. unfold dirent_bytes, dirent_off. geom.
      apply mem_read_ext; [lia|congruence|]. intros k Hk.
      apply Hkeep; lia.
  - intros Herased. specialize (Herased dir Hdir).
    unfold dirent_bytes, dirent_off, directory_bytes in *. geom.
    apply mem_read_ext; [lia|congruence|]. intros k Hk.
    destruct (decide (78848 + dir * 32 <= k < 78848 + dir * 32 + 32))
      as [Hin|Hout].
    + rewrite Hff by exact Hin. symmetry.
      apply (mem_get_of_read _ (78848 + dir * 32) 32 k xff); try lia.
      exact Herased.
    + apply Hkeep; lia.
Qed.

(** ** Removing a file from an arbitrary map *)

Lemma count_free_release img g :
  image_ok img -> 0 <= g < 68 ->
  val (gmap_get img g) <> GMAP_FREE ->
  count_free (gmap_set img g (u8 GMAP_FREE)) = count_free img + 1.
Proof.
  intros Hok Hg Hnf. unfold count_free.
  rewrite granule_map_bytes_set by assumption.
  set (l := granule_map_bytes img).
  assert (Hl : l !! Z.to_nat g = Some (gmap_get img g)).
  { unfold l. rewrite granule_map_bytes_lookup by (assumption || lia).
    rewrite Z2Nat.id by lia. reflexivity. }
  pose proof (filter_length_insert (fun b => val b = GMAP_FREE)
    (<[Z.to_nat g := u8 GMAP_FREE]> l) (Z.to_nat g) (u8 GMAP_FREE)
    (gmap_get img g)) as H.
  rewrite list_insert_insert_eq, (list_insert_id l _ _ Hl) in H.
  rewrite list_lookup_insert_eq in H
    by (unfold l; rewrite length_granule_map_bytes by assumption; lia).
  specialize (H eq_refl eq_refl Hnf). lia.
Qed.

(** Every run of the loop of [cocofs_rm] ends before the fuel does when
    the fuel exceeds the number of granules in use; it frees [n] granules
    and touches nothing else. *)
Lemma rm_loop_general (fuel : nat) : forall fs g,
  fs_ok fs -> 68 - count_free (image_data fs) < Z.of_nat fuel ->
  exists r fs' n,
    rm_loop fuel fs g = Some (r, fs') /\
    fs_ok fs' /\ 0 <= n /\
    free_granules fs' = u32 (free_granules fs + n) /\
    count_free (image_data fs') = count_free (image_data fs) + n /\
    (forall off, 0 <= off ->
       ~ (granule_map_off <= off < granule_map_off + COCOFS_NGRANULES) ->
       mem_get (image_data fs') off = mem_get (image_data fs) off) /\
    (forall g', 0 <= g' < 68 ->
       gmap_get (image_data fs') g' = gmap_get (image_data fs) g' \/
       (val (gmap_get (image_data fs) g') <> GMAP_FREE /\
        val (gmap_get (image_data fs') g') = GMAP_FREE)) /\
    (n = 0 -> fs' = fs) /\
    (r = None -> 1 <= n) /\
    (head_invalid (image_data fs) g -> n = 0 /\ r <> None).
Proof.
  induction fuel as [|fuel IH]; intros fs g [Hok Hcnt] Hfuel.
  { pose proof (count_free_range _ Hok). lia. }
  cbn [rm_loop]. unfold head_invalid.
  assert (Hstop : forall e : rm_error,
    exists r fs' n,
      Some (Some e, fs) = Some (r, fs') /\ fs_ok fs' /\ 0 <= n /\
      free_granules fs' = u32 (free_granules fs + n) /\
      count_free (image_data fs') = count_free (image_data fs) + n /\
      (forall off, 0 <= off ->
         ~ (granule_map_off <= off < granule_map_off + COCOFS_NGRANULES) ->
         mem_get (image_data fs') off = mem_get (image_data fs) off) /\
      (forall g', 0 <= g' < 68 ->
         gmap_get (image_data fs') g' = gmap_get (image_data fs) g' \/
         (val (gmap_get (image_data fs) g') <> GMAP_FREE /\
          val (gmap_get (image_data fs') g') = GMAP_FREE)) /\
      (n = 0 -> fs' = fs) /\ (r = None -> 1 <= n) /\
      (COCOFS_NGRANULES <= val g \/
       gmap_entry_is_valid (gmap_get (image_data fs) (val g)) = false \/
       val (gmap_get (image_data fs) (val g)) = GMAP_FREE ->
       n = 0 /\ r <> None)).
  { intros e. exists (Some e), fs, 0.
    split; [reflexivity|]. split; [split; assumption|]. split; [lia|].
    split; [rewrite Z.add_0_r; unfold UINT_MOD in Hcnt; rewrite u32_small; lia|].
    split; [lia|]. split; [auto|]. split; [auto|]. split; [auto|].
    split; [discriminate|]. intros _. split; [reflexivity|discriminate]. }
  destruct (Z.leb_spec COCOFS_NGRANULES (val g)) as [Hbad|Hg]; [apply Hstop|].
  destruct (gmap_entry_is_valid (gmap_get (image_data fs) (val g))) eqn:Hv;
    cbn [negb orb]; [|apply Hstop].
  destruct (Z.eqb_spec (val (gmap_get (image_data fs) (val g))) GMAP_FREE)
    as [Hf|Hnf]; [apply Hstop|].
  clear Hstop. pose proof (val_range g) as Hgr. geom.
  set (fs1 := {| image_data := gmap_set (image_data fs) (val g) (u8 255);
                 free_granules := u32 (free_granules fs + 1) |}).
  assert (Hok1 : image_ok (image_data fs1))
    by (apply image_ok_gmap_set; exact Hok).
  assert (Hfs1 : fs_ok fs1).
  { split; [exact Hok1|]. cbn [fs1 free_granules]. unfold u32.
    apply Z.mod_pos_bound. unfold UINT_MOD. lia. }
  assert (Hcf1 : count_free (image_data fs1) = count_free (image_data fs) + 1)
    by (apply (count_free_release _ _ Hok); [lia|exact Hnf]).
  assert (Hfr1 : forall off, 0 <= off -> off <> 78592 + val g ->
            mem_get (image_data fs1) off = mem_get (image_data fs) off).
  { intros off Hoff Hne. cbn [fs1 image_data]. unfold gmap_set. geom.
    apply mem_get_set_ne; lia. }
  assert (Hg1 : forall g', 0 <= g' < 68 ->
            gmap_get (image_data fs1) g' = gmap_get (image_data fs) g' \/
            (val (gmap_get (image_data fs) g') <> 255 /\
             val (gmap_get (image_data fs1) g') = 255)).
  { intros g' Hg'. destruct (decide (g' = val g)) as [->|Hne].
    - right. split; [exact Hnf|]. cbn [fs1 image_data].
      rewrite gmap_get_set_eq by (assumption || lia). reflexivity.
    - left. unfold gmap_get. geom. apply Hfr1; lia. }
  destruct (GMAP_IS_LAST (val (gmap_get (image_data fs) (val g)))).
  - exists None, fs1, 1. split; [reflexivity|]. split; [exact Hfs1|].
    split; [lia|]. split; [reflexivity|]. split; [exact Hcf1|].
    split; [intros off Hoff Hout; apply Hfr1; lia|].
    split; [exact Hg1|]. split; [lia|]. split; [lia|].
    intros [H|[H|H]]; [lia|congruence|contradiction].
  - destruct (IH fs1 (gmap_get (image_data fs) (val g)) Hfs1 ltac:(lia))
      as (r & fs' & n & Hrun & Hfs' & Hn & Hfree' & Hcf' & Hfr' & Hg' & _ & Hr & _).
    exists r, fs', (n + 1). split; [exact Hrun|]. split; [exact Hfs'|].
    split; [lia|]. split; [|split; [lia|split; [|split; [|split; [lia|split]]]]].
    + rewrite Hfree'. cbn [fs1 free_granules]. unfold u32.
      rewrite Zplus_mod_idemp_l. f_equal. lia.
    + intros off Hoff Hout. rewrite Hfr' by (geom; lia). apply Hfr1; lia.
    + intros g' Hgg. destruct (Hg' g' Hgg) as [Heq|[Hwas Hnow]];
        destruct (Hg1 g' Hgg) as [Heq1|[Hwas1 Hnow1]].
      * left. congruence.
      * right. split; [exact Hwas1|]. rewrite Heq. exact Hnow1.
      * right. split; [rewrite <- Heq1; exact Hwas|exact Hnow].
      * right. split; [exact Hwas1|exact Hnow].
    + intros Hnone. lia.
    + intros [H|[H|H]]; [lia|congruence|contradiction].
Qed.





(** ** The concrete states *)

Lemma count_free_frame img img' :
  image_ok img -> image_ok img' ->
  (forall k, granule_map_off <= k < granule_map_off + COCOFS_NGRANULES ->
             mem_get img' k = mem_get img k) ->
  count_free img' = count_free img.
Proof.
  intros Hok Hok' Hsame. unfold count_free, granule_map_bytes.
  do 3 f_equal. geom. apply mem_read_ext; [lia| |exact Hsame].
  unfold image_ok in *. congruence.
Qed.

Ltac concrete_len :=
  cbn [image_data]; unfold gmap_set;
  rewrite ?length_mem_set, ?length_mem_write;
  unfold cocofs_format; cbn [image_data]; rewrite length_replicate.

Ltac concrete_get :=
  cbn [image_data];
  unfold gmap_get, gmap_set, d_type, d_first_granule, dirent_off; geom;
  repeat (rewrite mem_get_set_ne by lia);
  repeat (rewrite mem_get_write_out by (cbn [length]; lia));
  lazymatch goal with
  | |- ?x = ?x => reflexivity
  | |- mem_get (image_data cocofs_format) _ = _ =>
      rewrite format_mem_get by (geom; lia); reflexivity
  | |- mem_get (mem_set ?i ?o ?b) ?o' = _ =>
      replace o' with o by lia;
      rewrite mem_get_set_eq; [reflexivity | lia | concrete_len; geom; lia]
  end.

Lemma stale_slot_fs_ok : fs_ok stale_slot_fs.
Proof.
  split.
  - unfold image_ok, stale_slot_fs. concrete_len. reflexivity.
  - unfold stale_slot_fs, UINT_MOD. cbn [free_granules]. geom. lia.
Qed.

Lemma stale_slot_fs_consistent : counter_consistent stale_slot_fs.
Proof.
  unfold counter_consistent.
  rewrite (count_free_frame (image_data cocofs_format)).
  - rewrite format_count_free. reflexivity.
  - exact format_image_ok.
  - apply stale_slot_fs_ok.
  - intros k Hk. unfold stale_slot_fs. geom. concrete_get.
Qed.

Lemma stale_slot_fs_free : free_granules stale_slot_fs = 68.
Proof. reflexivity. Qed.

Lemma stale_slot_fs_type : d_type (image_data stale_slot_fs) 0 = xff.
Proof. unfold stale_slot_fs. concrete_get. Qed.

Lemma stale_slot_fs_name : mem_get (image_data stale_slot_fs) (dirent_off 0) = x00.
Proof. unfold stale_slot_fs. concrete_get. Qed.

(** On [stale_slot_fs] the add of [unreadable_file] gets as far as the
    read, which fails. *)
Lemma stale_slot_read_fails (name ext : list byte) (type enc : byte) :
  exists fs', cocofs_copyin stale_slot_fs unreadable_file name ext type enc
              = Returned (Some CI_READ) fs'.
Proof.
  assert (Hf : infile_ok unreadable_file) by (intros L [= <-]; lia).
  pose proof (cocofs_copyin_total stale_slot_fs unreadable_file name ext
                type enc stale_slot_fs_ok stale_slot_fs_consistent Hf) as Htot.
  destruct (cocofs_copyin stale_slot_fs unreadable_file name ext type enc)
    as [[e|] fs'|] eqn:Erun; [| |contradiction].
  - pose proof (cocofs_copyin_error_inv _ _ _ _ _ _ _ _ Erun) as Hinv.
    destruct e; cbn [unreadable_file in_open in_fstat] in Hinv.
    + discriminate.
    + destruct Hinv; discriminate.
    + destruct Hinv as (_ & L & [= <-] & Hchk).
      rewrite stale_slot_fs_free in Hchk. vm_compute in Hchk. discriminate.
    + destruct Hinv as (_ & L & _ & _ & Hnone). exfalso.
      apply (find_free_dirent_None _ _ _ Hnone 0); [geom; lia|].
      rewrite stale_slot_fs_type. reflexivity.
    + eauto.
  - exfalso.
    destruct (cocofs_copyin_success _ _ _ _ _ _ _ stale_slot_fs_ok Hf Erun)
      as (dir & glist & L & HL & _ & _ & _ & _ & _ & _ & _ & _ & Hchain & _).
    injection HL as <-.
    destruct (Hchain 0 ltac:(vm_compute; split; congruence)) as (_ & d & Hd & _).
    discriminate.
Qed.

(** C1, as stated, fails: on [stale_slot_fs] the add of [unreadable_file]
    fails in the read, and afterwards directory slot 0 is not what it was:
    its first byte was 0x00 and is now 0xFF. *)
Lemma copyin_failure_changes_free_slot :
  exists fs',
    cocofs_copyin stale_slot_fs unreadable_file name_A ext_blank x01 x00
    = Returned (Some CI_READ) fs' /\
    dirent_bytes (image_data fs') 0 <> dirent_bytes (image_data stale_slot_fs) 0.
Proof.
  destruct (stale_slot_read_fails name_A ext_blank x01 x00) as (fs' & Hrun).
  exists fs'. split; [exact Hrun|].
  assert (Hf : infile_ok unreadable_file) by (intros L [= <-]; lia).
  destruct (cocofs_copyin_failure_track _ _ _ _ _ _ _ _ stale_slot_fs_ok Hf Hrun)
    as (_ & Hok' & _ & Hread).
  destruct (Hread eq_refl) as (dir & Hdir & Hff & _).
  assert (dir = 0) as ->.
  { apply find_free_dirent_Some in Hdir as (Hr & _ & Hbefore).
    destruct (Z.eq_dec dir 0) as [|Hne]; [assumption|]. exfalso.
    apply (Hbefore 0); [lia|]. rewrite stale_slot_fs_type. reflexivity. }
  specialize (Hff (dirent_off 0) ltac:(unfold dirent_off; geom; lia)).
  pose proof stale_slot_fs_name as Hname.
  pose proof (proj1 stale_slot_fs_ok) as Hok0.
  clear Hrun Hread Hdir. revert Hname Hok0.
  generalize (image_data stale_slot_fs). intros img0 Hname Hok0 Heq.
  assert (Hget : forall img, image_ok img ->
            dirent_bytes img 0 !! 0%nat = Some (mem_get img (dirent_off 0))).
  { intros img Hok. unfold dirent_bytes. rewrite mem_read_lookup.
    destruct (decide (0 < Z.to_nat SIZEOF_DIRENT)%nat); [|geom; lia].
    rewrite Nat.add_0_r. apply mem_get_lookup.
    - unfold dirent_off. geom. lia.
    - unfold image_ok in Hok. unfold dirent_off. geom. lia. }
  pose proof (Hget _ Hok') as H1.
  pose proof (Hget _ Hok0) as H2.
  rewrite Heq, H2, Hname, Hff in H1. discriminate.
Qed.

(** ** A chain that breaks at its second step *)








(** ** A chain that is a cycle *)

(** [cocofs_stat]'s loop leaves after [n] more iterations at the latest. *)
Lemma stat_loop_steps (n : nat) : forall img c g s,
  let '(_, _, c') := stat_loop n img c g s in c <= c' <= c + Z.of_nat n.
Proof.
  induction n as [|n IH]; intros img c g s; cbn [stat_loop]; [lia|].
  destruct (_ || _); [lia|]. destruct (GMAP_IS_LAST _); [lia|].
  specialize (IH img (c + 1) (gmap_get img (val g))
                 (u32 (s + COCOFS_SEC_PER_GRANULE * COCOFS_BYTES_PER_SEC))).
  destruct (stat_loop _ _ _ _ _) as [[? ?] c']. lia.
Qed.

Lemma stat_loop_self_link (img : image) (n : nat) : forall c s,
  gmap_get img 0 = x00 -> 0 <= s -> s + Z.of_nat n * 2304 < 2 ^ 32 ->
  stat_loop n img c x00 s = (s + Z.of_nat n * 2304, 0, c + Z.of_nat n).
Proof.
  induction n as [|n IH]; intros c s H0 Hs Hbound; cbn [stat_loop].
  - f_equal; [f_equal|]; lia.
  - change (val x00) with 0. rewrite H0.
    change (gmap_entry_is_valid x00) with true.
    change (val x00) with 0.
    change (0 =? GMAP_FREE) with false. change (GMAP_IS_LAST 0) with false.
    cbn [negb orb]. geom. change (9 * 256) with 2304.
    rewrite u32_small by lia. rewrite IH by (assumption || lia).
    f_equal; [f_equal|]; lia.
Qed.

Lemma copyout_loop_self_link (img : image) :
  image_ok img -> gmap_get img 0 = x00 ->
  forall fuel o, out_room o = None -> copyout_loop fuel img o x00 0 = None.
Proof.
  intros Hok H0. induction fuel as [|fuel IH]; intros o Hroom;
    cbn [copyout_loop]; [reflexivity|].
  change (COCOFS_NGRANULES <? 0) with false.
  change (val x00) with 0. change (COCOFS_NGRANULES <=? 0) with false.
  cbv iota. rewrite H0.
  change (gmap_entry_is_valid x00) with true. change (val x00) with 0.
  change (0 =? GMAP_FREE) with false. change (GMAP_IS_LAST 0) with false.
  cbn [negb orb]. unfold sys_write. rewrite Hroom.
  rewrite length_mem_read.
  - change (Z.of_nat (Z.to_nat COCOFS_BYTES_PER_GRANULE)
            =? COCOFS_BYTES_PER_GRANULE) with true.
    cbn [negb]. apply IH. reflexivity.
  - rewrite granule_to_offset_eq by lia. cbn. lia.
  - geom. lia.
  - rewrite granule_to_offset_eq by lia. unfold image_ok in Hok. geom.
    change (34 <=? 0) with false. cbv iota. lia.
Qed.

Lemma cyclic_fs_image_ok : image_ok (image_data cyclic_fs).
Proof. unfold image_ok, cyclic_fs. concrete_len. reflexivity. Qed.

Lemma cyclic_fs_first : d_first_granule (image_data cyclic_fs) 0 = x00.
Proof. unfold cyclic_fs. concrete_get. Qed.

Lemma cyclic_fs_head : gmap_get (image_data cyclic_fs) 0 = x00.
Proof. unfold cyclic_fs. concrete_get. Qed.

(** C2.  On [cyclic_fs], whose granule 0 links to itself, the chain loop
    of [cocofs_copyout] never stops while the output device takes the
    data: whatever fuel it is given runs out, the cycle test on [loopcnt]
    never fires because [loopcnt] is never incremented.  [cocofs_stat]
    does stop after its 69 iterations, but reports nothing: it returns
    69 granules' worth of bytes as the size. *)
Theorem copyout_cycle_not_detected :
  (forall fuel, cocofs_copyout fuel cyclic_fs 0 fresh_output = None) /\
  stat_loop (Z.to_nat (COCOFS_NGRANULES + 1)) (image_data cyclic_fs) 0
            (d_first_granule (image_data cyclic_fs) 0) 0
  = (69 * 2304, 0, 69) /\
  st_size (cocofs_stat cyclic_fs 0) = 69 * 2304.
Proof.
  assert (Hstat : stat_loop (Z.to_nat (COCOFS_NGRANULES + 1))
                    (image_data cyclic_fs) 0
                    (d_first_granule (image_data cyclic_fs) 0) 0
                  = (69 * 2304, 0, 69)).
  { rewrite cyclic_fs_first.
    rewrite stat_loop_self_link; [reflexivity|exact cyclic_fs_head|lia|].
    vm_compute. reflexivity. }
  split; [|split].
  - intros fuel. unfold cocofs_copyout.
    change (out_open fresh_output) with true. cbn [negb].
    rewrite cyclic_fs_first.
    rewrite (copyout_loop_self_link _ cyclic_fs_image_ok cyclic_fs_head);
      reflexivity.
  - exact Hstat.
  - unfold cocofs_stat. cbn [st_size]. unfold stat_size. rewrite Hstat.
    reflexivity.
Qed.

(** ** The theorems at concrete inputs *)

Lemma format_free : free_granules cocofs_format = 68.
Proof. reflexivity. Qed.

Lemma unreadable_file_ok : infile_ok unreadable_file.
Proof. intros L [= <-]. lia. Qed.

Lemma regular_file_ok (content : list byte) :
  Z.of_nat (length content) < 2 ^ 63 -> infile_ok (regular_file content).
Proof. intros H L [= <-]. lia. Qed.

(** A failed read on an image whose free slot 0 holds a stale name byte. *)
Lemma cocofs_copyin_failure_rollback_witness :
  exists fs',
    (fs_ok stale_slot_fs /\ infile_ok unreadable_file /\
     cocofs_copyin stale_slot_fs unreadable_file name_A ext_blank x01 x00
     = Returned (Some CI_READ) fs') /\
    (free_granules fs' = free_granules stale_slot_fs /\
     granule_map_bytes (image_data fs')
     = granule_map_bytes (image_data stale_slot_fs) /\
     (CI_READ <> CI_READ ->
      forall i, 0 <= i < COCOFS_DIR_TRACK_NENTRIES ->
        dirent_bytes (image_data fs') i
        = dirent_bytes (image_data stale_slot_fs) i) /\
     (CI_READ = CI_READ ->
      exists dir,
        find_free_dirent (Z.to_nat COCOFS_DIR_TRACK_NENTRIES)
                         (image_data stale_slot_fs) 0 = Some dir /\
        0 <= dir < COCOFS_DIR_TRACK_NENTRIES /\
        dirent_bytes (image_data fs') dir
        = replicate (Z.to_nat SIZEOF_DIRENT) xff /\
        forall i, 0 <= i < COCOFS_DIR_TRACK_NENTRIES -> i <> dir ->
          dirent_bytes (image_data fs') i
          = dirent_bytes (image_data stale_slot_fs) i) /\
     ((forall i, find_free_dirent (Z.to_nat COCOFS_DIR_TRACK_NENTRIES)
                                  (image_data stale_slot_fs) 0 = Some i ->
                 dirent_bytes (image_data stale_slot_fs) i
                 = replicate (Z.to_nat SIZEOF_DIRENT) xff) ->
      directory_bytes (image_data fs')
      = directory_bytes (image_data stale_slot_fs))).
Proof.
  destruct (stale_slot_read_fails name_A ext_blank x01 x00) as (fs' & Hrun).
  exists fs'. split.
  - split; [exact stale_slot_fs_ok|]. split; [exact unreadable_file_ok|].
    exact Hrun.
  - exact (cocofs_copyin_failure_rollback stale_slot_fs unreadable_file
             name_A ext_blank x01 x00 CI_READ fs'
             stale_slot_fs_ok unreadable_file_ok Hrun).
Defined.


(** A file of one granule and one byte, on a fresh image. *)
Lemma format_copyin_copyout_roundtrip_witness :
  (1 <= Z.of_nat (length one_granule_plus_one)
   <= COCOFS_NGRANULES * COCOFS_BYTES_PER_GRANULE /\
   out_open fresh_output = true /\ out_data fresh_output = [] /\
   out_room fresh_output = None /\ (68 <= 68)%nat) /\
  exists fs' o',
    cocofs_copyin cocofs_format (regular_file one_granule_plus_one)
                  name_A ext_blank x01 x00 = Returned None fs' /\
    cocofs_copyout 68 fs' 0 fresh_output = Some (None, o') /\
    out_data o' = one_granule_plus_one.
Proof.
  assert (HL : 1 <= Z.of_nat (length one_granule_plus_one)
               <= COCOFS_NGRANULES * COCOFS_BYTES_PER_GRANULE).
  { unfold one_granule_plus_one. rewrite length_replicate. geom. lia. }
  split.
  - split; [exact HL|]. repeat split. lia.
  - exact (format_copyin_copyout_roundtrip one_granule_plus_one name_A
             ext_blank x01 x00 fresh_output 68 HL eq_refl eq_refl eq_refl
             (le_n 68)).
Defined.

(** The first allocation on a fresh image, started in the middle. *)
Lemma cocofs_galloc_succeeds_witness :
  (image_ok (image_data cocofs_format) /\
   0 <= 34 < COCOFS_NGRANULES /\
   (exists g0, 0 <= g0 < COCOFS_NGRANULES /\
               val (gmap_get (image_data cocofs_format) g0) = GMAP_FREE)) /\
  exists k g fs',
    0 <= k /\ k + 1 <= COCOFS_NGRANULES /\
    g = (34 + k) mod COCOFS_NGRANULES /\
    (forall j, 0 <= j < k ->
       val (gmap_get (image_data cocofs_format) ((34 + j) mod COCOFS_NGRANULES))
       <> GMAP_FREE) /\
    cocofs_galloc cocofs_format 34 = Some (fs', g) /\
    0 <= g < COCOFS_NGRANULES /\
    val (gmap_get (image_data cocofs_format) g) = GMAP_FREE /\
    val (gmap_get (image_data fs') g) = GMAP_ALLOCATED /\
    (forall off, 0 <= off -> off <> granule_map_off + g ->
       mem_get (image_data fs') off = mem_get (image_data cocofs_format) off) /\
    free_granules fs' = u32 (free_granules cocofs_format - 1).
Proof.
  assert (Hlast : 0 <= 34 < COCOFS_NGRANULES) by (geom; lia).
  assert (Hex : exists g0, 0 <= g0 < COCOFS_NGRANULES /\
                  val (gmap_get (image_data cocofs_format) g0) = GMAP_FREE).
  { exists 0. split; [geom; lia|]. unfold gmap_get.
    rewrite format_mem_get by (geom; lia). reflexivity. }
  split.
  - split; [exact format_image_ok|]. split; [exact Hlast|exact Hex].
  - exact (proj1 (cocofs_galloc_succeeds cocofs_format 34 format_image_ok
                    Hlast Hex)).
Defined.

(** Two bytes fit on a fresh image: no capacity error. *)
Lemma cocofs_copyin_capacity_witness :
  (0 <= free_granules cocofs_format /\
   free_granules cocofs_format * COCOFS_BYTES_PER_GRANULE < UINT_MOD /\
   in_open (regular_file [x48; x49]) = true /\
   in_fstat (regular_file [x48; x49]) = Some 2 /\ 0 <= 2 < 2 ^ 63) /\
  ((exists fs', cocofs_copyin cocofs_format (regular_file [x48; x49])
                  name_A ext_blank x01 x00
                = Returned (Some CI_NOSPC) fs') <->
   free_granules cocofs_format < ceil_div 2 COCOFS_BYTES_PER_GRANULE) /\
  (free_granules cocofs_format < ceil_div 2 COCOFS_BYTES_PER_GRANULE <->
   free_granules cocofs_format * COCOFS_BYTES_PER_GRANULE < 2) /\
  (forall fs', cocofs_copyin cocofs_format (regular_file [x48; x49])
                 name_A ext_blank x01 x00
               = Returned (Some CI_NOSPC) fs' -> fs' = cocofs_format).
Proof.
  assert (H1 : 0 <= free_granules cocofs_format)
    by (rewrite format_free; lia).
  assert (H2 : free_granules cocofs_format * COCOFS_BYTES_PER_GRANULE < UINT_MOD)
    by (rewrite format_free; unfold UINT_MOD; geom; lia).
  assert (H3 : 0 <= 2 < 2 ^ 63) by lia.
  split.
  - split; [exact H1|]. split; [exact H2|]. split; [reflexivity|].
    split; [reflexivity|exact H3].
  - exact (cocofs_copyin_capacity cocofs_format (regular_file [x48; x49])
             name_A ext_blank x01 x00 2 H1 H2 eq_refl eq_refl H3).
Defined.

(** A file of 5000 bytes on a fresh image: three granules go, and come
    back. *)
Lemma granule_accounting_witness :
  exists fs1,
    (fs_ok cocofs_format /\ infile_ok (regular_file five_thousand_bytes) /\
     in_fstat (regular_file five_thousand_bytes) = Some 5000 /\
     1 <= ceil_div 5000 COCOFS_BYTES_PER_GRANULE /\
     cocofs_copyin cocofs_format (regular_file five_thousand_bytes)
                   name_A ext_blank x01 x00 = Returned None fs1) /\
    (free_granules fs1
     = free_granules cocofs_format - ceil_div 5000 COCOFS_BYTES_PER_GRANULE /\
     exists dir,
       find_free_dirent (Z.to_nat COCOFS_DIR_TRACK_NENTRIES)
                        (image_data cocofs_format) 0 = Some dir /\
       forall fuel, (68 <= fuel)%nat ->
         exists fs2, cocofs_rm fuel fs1 dir = Some (None, fs2) /\
                     free_granules fs2 = free_granules cocofs_format).
Proof.
  assert (Hlen : Z.of_nat (length five_thousand_bytes) = 5000).
  { unfold five_thousand_bytes. rewrite length_replicate. lia. }
  assert (Hf : infile_ok (regular_file five_thousand_bytes))
    by (apply regular_file_ok; rewrite Hlen; lia).
  assert (Hstat : in_fstat (regular_file five_thousand_bytes) = Some 5000)
    by (cbn [regular_file in_fstat]; rewrite Hlen; reflexivity).
  assert (Hk : 1 <= ceil_div 5000 COCOFS_BYTES_PER_GRANULE)
    by (vm_compute; discriminate).
  destruct (cocofs_copyin_regular_succeeds cocofs_format five_thousand_bytes
              name_A ext_blank x01 x00 format_fs_ok format_counter_consistent)
    as (fs1 & Hrun).
  { rewrite format_free, Hlen. lia. }
  { exists 0. split; [geom; lia|]. apply format_slot_free. geom. lia. }
  exists fs1. split.
  - split; [exact format_fs_ok|]. split; [exact Hf|]. split; [exact Hstat|].
    split; [exact Hk|exact Hrun].
  - exact (granule_accounting cocofs_format (regular_file five_thousand_bytes)
             name_A ext_blank x01 x00 5000 fs1 format_fs_ok Hf Hstat Hk Hrun).
Defined.

(** The empty file on a fresh image. *)
Lemma cocofs_copyin_empty_file_witness :
  (0 <= free_granules cocofs_format /\
   in_open (regular_file []) = true /\ in_fstat (regular_file []) = Some 0 /\
   (exists i, 0 <= i < COCOFS_DIR_TRACK_NENTRIES /\
              val (d_type (image_data cocofs_format) i)
              = COCOFS_DIRENT_TYPE_FREE)) /\
  cocofs_copyin cocofs_format (regular_file []) name_A ext_blank x01 x00
  = Returned None cocofs_format.
Proof.
  assert (H1 : 0 <= free_granules cocofs_format)
    by (rewrite format_free; lia).
  assert (Hslot : exists i, 0 <= i < COCOFS_DIR_TRACK_NENTRIES /\
                    val (d_type (image_data cocofs_format) i)
                    = COCOFS_DIRENT_TYPE_FREE).
  { exists 0. split; [geom; lia|]. apply format_slot_free. geom. lia. }
  split.
  - split; [exact H1|]. split; [reflexivity|]. split; [reflexivity|exact Hslot].
  - exact (cocofs_copyin_empty_file cocofs_format (regular_file [])
             name_A ext_blank x01 x00 H1 eq_refl eq_refl Hslot).
Defined.

Lemma mem_read_set_out img k b off n :
  0 <= off -> 0 <= k -> k < off \/ off + n <= k ->
  mem_read (mem_set img k b) off n = mem_read img off n.
Proof.
  intros Hoff Hk Hout. apply mem_read_ext; [exact Hoff|apply length_mem_set|].
  intros j Hj. apply mem_get_set_ne; lia.
Qed.

Lemma mem_read_write_out img k data off n :
  0 <= off -> 0 <= k ->
  k + Z.of_nat (length data) <= off \/ off + n <= k ->
  mem_read (mem_write img k data) off n = mem_read img off n.
Proof.
  intros Hoff Hk Hout. apply mem_read_ext; [exact Hoff|apply length_mem_write|].
  intros j Hj. apply mem_get_write_out; lia.
Qed.

Lemma odd_type_fs_type : d_type (image_data odd_type_fs) 0 = x04.
Proof. unfold odd_type_fs. concrete_get. Qed.

Lemma odd_type_fs_name : d_name (image_data odd_type_fs) 0 = take 8 name_A.
Proof.
  unfold odd_type_fs, d_name, dirent_off. cbn [image_data]. geom.
  rewrite mem_read_set_out by lia.
  rewrite mem_read_write_out by (cbn [length]; lia).
  pose proof (mem_read_write_eq (image_data cocofs_format)
                (78848 + 0 * 32 + 0) name_A ltac:(lia)) as Hrw.
  change (Z.of_nat (length name_A)) with 8 in Hrw. apply Hrw.
  unfold cocofs_format. cbn [image_data]. rewrite length_replicate.
  unfold name_A, ext_blank. cbn [length]. geom. lia.
Qed.

Lemma odd_type_fs_ext : d_ext (image_data odd_type_fs) 0 = take 3 ext_blank.
Proof.
  unfold odd_type_fs, d_ext, dirent_off. cbn [image_data]. geom.
  rewrite mem_read_set_out by lia.
  pose proof (mem_read_write_eq
                (mem_write (image_data cocofs_format) (78848 + 0 * 32 + 0) name_A)
                (78848 + 0 * 32 + 8) ext_blank ltac:(lia)) as Hrw.
  change (Z.of_nat (length ext_blank)) with 3 in Hrw. apply Hrw.
  rewrite length_mem_write.
  unfold cocofs_format. cbn [image_data]. rewrite length_replicate.
  unfold name_A, ext_blank. cbn [length]. geom. lia.
Qed.

(** On [odd_type_fs] the lookup of ["A       "."   "] finds slot 0, whose
    type byte is 0x04, and the listing does not show that slot. *)
Lemma cocofs_lookup_raw_spec_witness :
  cocofs_lookup_raw odd_type_fs name_A ext_blank = Some 0 /\
  val (d_type (image_data odd_type_fs) 0) = 4 /\
  forall s, (0, s) ∉ cocofs_enumerate_directory odd_type_fs.
Proof.
  assert (Hm : lookup_matches (image_data odd_type_fs) name_A ext_blank 0).
  { unfold lookup_matches. rewrite odd_type_fs_type.
    split; [vm_compute; discriminate|].
    split; [exact odd_type_fs_name|exact odd_type_fs_ext]. }
  assert (Hi : 0 <= 0 < COCOFS_DIR_TRACK_NENTRIES) by (geom; lia).
  assert (Ht : COCOFS_DIRENT_TYPE_TEXT < val (d_type (image_data odd_type_fs) 0))
    by (rewrite odd_type_fs_type; vm_compute; reflexivity).
  destruct (cocofs_lookup_raw_spec odd_type_fs name_A ext_blank)
    as (_ & _ & Hthird).
  destruct (Hthird 0 Hi Hm Ht) as ((j & Hj & Hfound) & Hunlisted).
  assert (j = 0) as -> by lia.
  split; [exact Hfound|]. split; [|exact Hunlisted].
  rewrite odd_type_fs_type. reflexivity.
Defined.

(** ** The counter agrees with the map in the states the program builds *)

Lemma mem_read_succ img off (n : nat) :
  0 <= off -> (Z.to_nat off < length img)%nat ->
  mem_read img off (Z.of_nat (S n))
  = mem_get img off :: mem_read img (off + 1) (Z.of_nat n).
Proof.
  intros Hoff Hlt. unfold mem_read. rewrite !Nat2Z.id.
  rewrite (drop_S img (mem_get img off) (Z.to_nat off))
    by (apply mem_get_lookup; assumption).
  cbn [take]. replace (Z.to_nat (off + 1)) with (S (Z.to_nat off)) by lia.
  reflexivity.
Qed.

Lemma load_count_spec (n : nat) : forall img i acc,
  image_ok img -> 0 <= i -> i + Z.of_nat n <= 68 ->
  0 <= acc -> acc + Z.of_nat n < 2 ^ 32 ->
  load_count n img i acc
  = acc + Z.of_nat (length (filter (fun b => val b = GMAP_FREE)
                              (mem_read img (granule_map_off + i) (Z.of_nat n)))).
Proof.
  induction n as [|n IH]; intros img i acc Hok Hi Hbound Hacc Hover.
  - cbn [load_count]. unfold mem_read.
    change (Z.to_nat (Z.of_nat 0)) with 0%nat. rewrite take_0.
    cbn [filter list_filter length]. lia.
  - cbn [load_count]. rewrite mem_read_succ
      by (unfold image_ok in Hok; geom; lia).
    fold (gmap_get img i).
    destruct (Z.eqb_spec (val (gmap_get img i)) GMAP_FREE) as [Hf|Hnf].
    + rewrite (filter_cons_True (fun b => val b = GMAP_FREE) _ _ Hf).
      cbn [length].
      rewrite u32_small by lia. rewrite IH by (assumption || lia).
      replace (granule_map_off + (i + 1)) with (granule_map_off + i + 1) by lia.
      lia.
    + rewrite (filter_cons_False (fun b => val b = GMAP_FREE) _ _ Hnf).
      rewrite IH by (assumption || lia).
      replace (granule_map_off + (i + 1)) with (granule_map_off + i + 1) by lia.
      reflexivity.
Qed.

(** [cocofs_load] computes the counter from the map. *)
Lemma load_consistent (data : list byte) :
  fs_ok (cocofs_load data) /\ counter_consistent (cocofs_load data).
Proof.
  set (img := mem_write (replicate (Z.to_nat COCOFS_TOTALSIZE) x00) 0
                (take (Z.to_nat COCOFS_TOTALSIZE) data)).
  assert (Hok : image_ok img).
  { unfold image_ok, img. rewrite length_mem_write. apply length_replicate. }
  assert (Hcount : load_count (Z.to_nat COCOFS_NGRANULES) img 0 0
                   = count_free img).
  { rewrite load_count_spec by (assumption || (geom; lia)).
    unfold count_free, granule_map_bytes. geom.
    change (Z.of_nat (Z.to_nat 68)) with 68.
    replace (78592 + 0) with 78592 by lia. lia. }
  pose proof (count_free_range _ Hok) as Hr.
  unfold cocofs_load. fold img. split.
  - split; [exact Hok|]. cbn [free_granules]. rewrite Hcount.
    unfold UINT_MOD. lia.
  - unfold counter_consistent. cbn [free_granules image_data]. exact Hcount.
Qed.

(** [cocofs_rm] keeps the counter in step with the map, whether it
    succeeds or fails. *)
Lemma rm_consistent (fs : cocofs) (dir : Z) (fuel : nat) r fs' :
  fs_ok fs -> counter_consistent fs -> 0 <= dir < COCOFS_DIR_TRACK_NENTRIES ->
  cocofs_rm fuel fs dir = Some (r, fs') ->
  fs_ok fs' /\ counter_consistent fs'.
Proof.
  intros Hfs Hcons Hdir. pose proof Hfs as [Hok Hcnt].
  pose proof (count_free_range _ Hok) as Hcf.
  unfold cocofs_rm.
  destruct (rm_loop fuel fs (d_first_granule (image_data fs) dir))
    as [[r1 fs1]|] eqn:Erun; [|destruct fuel; discriminate].
  assert (Hgen : fs_ok fs1 /\ counter_consistent fs1).
  { (* more fuel gives the same run *)
    assert (Hmono : forall fuel fs g res,
              rm_loop fuel fs g = Some res -> rm_loop (S fuel) fs g = Some res).
    { clear. induction fuel as [|fuel IH]; intros fs g res; [discriminate|].
      intros H. cbn [rm_loop] in H. change (rm_loop (S (S fuel)) fs g)
        with (if COCOFS_NGRANULES <=? val g
              then Some (Some RM_INVALID_GRANULE, fs)
              else
                let gn := gmap_get (image_data fs) (val g) in
                if negb (gmap_entry_is_valid gn) || (val gn =? GMAP_FREE)
                then Some (Some RM_INVALID_GMAP_ENTRY, fs)
                else
                  let fs' := {| image_data :=
                                  gmap_set (image_data fs) (val g) (u8 GMAP_FREE);
                                free_granules := u32 (free_granules fs + 1) |} in
                  if GMAP_IS_LAST (val gn) then Some (None, fs')
                  else rm_loop (S fuel) fs' gn).
      destruct (_ <=? _); [exact H|]. cbv zeta in *.
      destruct (_ || _); [exact H|]. destruct (GMAP_IS_LAST _); [exact H|].
      apply IH. exact H. }
    assert (Hmore : forall k fuel fs g res,
              rm_loop fuel fs g = Some res ->
              rm_loop (k + fuel) fs g = Some res).
    { induction k as [|k IHk]; intros; [assumption|].
      cbn [Nat.add]. apply Hmono. apply IHk. assumption. }
    destruct (rm_loop_general (69 + fuel) fs
                (d_first_granule (image_data fs) dir) Hfs ltac:(lia))
      as (r2 & fs2 & n & Hrun2 & Hfs2 & Hn & Hfree & Hcount & _).
    rewrite (Hmore 69%nat _ _ _ _ Erun) in Hrun2. injection Hrun2 as <- <-.
    split; [exact Hfs2|]. unfold counter_consistent in *.
    pose proof (count_free_range _ (proj1 Hfs2)) as Hcf1.
    rewrite Hfree, Hcount, Hcons. apply u32_small. lia. }
  destruct Hgen as [[Hok1 Hcnt1] Hcons1].
  destruct r1 as [e|]; intros [= <- <-]; [split; [split|]; assumption|].
  assert (Hok2 : image_ok (memset (image_data fs1) (dirent_off dir) xff
                                  SIZEOF_DIRENT))
    by (apply image_ok_memset; exact Hok1).
  split; [split; [exact Hok2|exact Hcnt1]|].
  unfold counter_consistent in *. cbn [free_granules image_data].
  rewrite Hcons1. symmetry. apply count_free_frame; [exact Hok1|exact Hok2|].
  intros k Hk. unfold dirent_off in *. geom.
  apply mem_get_memset_out; lia.
Qed.

Lemma filter_length_ext {A} (P : A -> Prop) `{!forall x, Decision (P x)}
      (l1 : list A) : forall l2 : list A,
  length l1 = length l2 ->
  (forall (i : nat) x y, l1 !! i = Some x -> l2 !! i = Some y -> (P x <-> P y)) ->
  length (filter P l1) = length (filter P l2).
Proof.
  induction l1 as [|a l1 IH]; intros [|b l2] Hlen Hsame; try discriminate;
    [reflexivity|].
  pose proof (Hsame 0%nat a b eq_refl eq_refl) as Hab.
  assert (Hrest : length (filter P l1) = length (filter P l2)).
  { apply IH; [cbn in Hlen; lia|]. intros i x y Hx Hy.
    apply (Hsame (S i) x y); assumption. }
  destruct (decide (P a)) as [Ha|Ha].
  - rewrite (filter_cons_True P a l1 Ha).
    rewrite (filter_cons_True P b l2 (proj1 Hab Ha)). cbn [length]. lia.
  - rewrite (filter_cons_False P a l1 Ha).
    rewrite (filter_cons_False P b l2 (fun H => Ha (proj2 Hab H))). exact Hrest.
Qed.

(** The count depends only on which entries are Free. *)
Lemma count_free_ext img img' :
  image_ok img -> image_ok img' ->
  (forall g, 0 <= g < 68 ->
     (val (gmap_get img' g) = GMAP_FREE <-> val (gmap_get img g) = GMAP_FREE)) ->
  count_free img' = count_free img.
Proof.
  intros Hok Hok' Hsame. unfold count_free. f_equal.
  apply filter_length_ext.
  - rewrite !length_granule_map_bytes by assumption. reflexivity.
  - intros i x y Hx Hy.
    assert (Hi : (i < 68)%nat).
    { apply lookup_lt_Some in Hx.
      rewrite length_granule_map_bytes in Hx by assumption. exact Hx. }
    rewrite granule_map_bytes_lookup in Hx, Hy by assumption.
    injection Hx as <-. injection Hy as <-. apply Hsame. lia.
Qed.

Lemma alloc_loop_count (n : nat) : forall fs last glist gi fs1 glist1,
  image_ok (image_data fs) -> 0 <= last < 68 ->
  alloc_loop n fs last glist gi = Some (fs1, glist1) ->
  count_free (image_data fs1) = count_free (image_data fs) - Z.of_nat n.
Proof.
  induction n as [|n IH]; intros fs last glist gi fs1 glist1 Hok Hlast Hrun.
  - cbn [alloc_loop] in Hrun. injection Hrun as <- <-. lia.
  - cbn [alloc_loop] in Hrun.
    destruct (cocofs_galloc fs last) as [[fs' g]|] eqn:Eg; [|discriminate].
    unfold cocofs_galloc in Eg.
    apply galloc_loop_Some in Eg as (Hg & Hfree & ->); [|exact Hlast].
    apply IH in Hrun; cbn [image_data];
      [|apply image_ok_gmap_set; exact Hok|exact Hg].
    cbn [image_data] in Hrun. rewrite Hrun.
    rewrite count_free_alloc; try assumption; [lia|].
    rewrite val_u8_small; geom; lia.
Qed.

Lemma in_glist_dec (glist : list byte) (k : nat) (g : Z) :
  (exists j, 0 <= j < Z.of_nat k /\ val (glist_get glist j) = g) \/
  (forall j, 0 <= j < Z.of_nat k -> val (glist_get glist j) <> g).
Proof.
  induction k as [|k [IH|IH]].
  - right. intros j Hj. lia.
  - left. destruct IH as (j & Hj & Hg). exists j. split; [lia|exact Hg].
  - destruct (Z.eq_dec (val (glist_get glist (Z.of_nat k))) g) as [Heq|Hne].
    + left. exists (Z.of_nat k). split; [lia|exact Heq].
    + right. intros j Hj. destruct (Z.eq_dec j (Z.of_nat k)) as [->|];
        [exact Hne|]. apply IH. lia.
Qed.

(** [cocofs_copyin] keeps the counter in step with the map. *)
Lemma copyin_consistent (fs : cocofs) (f : infile) (name ext : list byte)
      (type enc : byte) r fs' :
  fs_ok fs -> counter_consistent fs -> infile_ok f ->
  cocofs_copyin fs f name ext type enc = Returned r fs' ->
  fs_ok fs' /\ counter_consistent fs'.
Proof.
  intros Hfs Hcons Hf Hrun. pose proof Hfs as [Hok Hcnt].
  pose proof (count_free_range _ Hok) as Hcf.
  destruct r as [e|].
  { destruct (cocofs_copyin_failure_track _ _ _ _ _ _ _ _ Hfs Hf Hrun)
      as (Hfree & Hok' & _).
    pose proof (cocofs_copyin_failure_map _ _ _ _ _ _ _ _ Hfs Hf Hrun)
      as Hmap.
    split; [split; [exact Hok'|rewrite Hfree; exact Hcnt]|].
    unfold counter_consistent, count_free in *. rewrite Hmap, Hfree.
    exact Hcons. }
  revert Hrun. unfold cocofs_copyin.
  destruct (in_open f); cbn [negb]; [|discriminate].
  destruct (in_fstat f) as [L|] eqn:EL; [|discriminate].
  destruct (_ <? _) eqn:Echeck; [discriminate|].
  destruct (capacity_check_passed fs L (Hf L EL) Echeck)
    as (HL & HuL & Huk & Hcap).
  rewrite HuL, Huk.
  destruct (Z.leb_spec (ceil_div L 2304) (free_granules fs)) as [Hk|Hk];
    cbn [negb]; [|discriminate].
  destruct (find_free_dirent _ _ _) as [dir|] eqn:Edir; [|discriminate].
  destruct (alloc_loop _ _ _ _ _) as [[fs1 glist]|] eqn:Ealloc; [|discriminate].
  destruct (write_loop _ _ _ _ _ _ _ _ _ _ _ _) as [img'| |] eqn:Ewrite;
    try discriminate.
  intros [= <-].
  pose proof (ceil_div_le_self L ltac:(lia)) as Hkpos.
  pose proof (alloc_loop_Some_count _ fs 34 _ _ _ Hok ltac:(lia) Ealloc)
    as Hcount.
  pose proof (alloc_loop_count _ fs 34 _ _ _ _ Hok ltac:(lia) Ealloc) as Hc1.
  rewrite Z2Nat.id in Hcount, Hc1 by lia.
  apply alloc_loop_spec in Ealloc
    as ((Hok1 & Hlen1 & Hgr & Hinj & Hframe) & Hfree1 & _);
    [|split; assumption|geom; change (68 / 2) with 34; lia|lia
     |rewrite Z2Nat.id by lia; lia
     |rewrite length_replicate; reflexivity].
  rewrite Z.add_0_l, Z2Nat.id in * by lia.
  apply find_free_dirent_Some in Edir as Hdirfacts.
  destruct Hdirfacts as (Hdir & _). geom.
  change (Z.of_nat (Z.to_nat 72)) with 72 in Hdir.
  assert (Hgl : forall j, 0 <= j < ceil_div L 2304 ->
                  0 <= val (glist_get glist j) < 68).
  { intros j Hj. apply (Hgr j Hj). }
  apply (write_loop_Done f glist dir name ext type enc L ltac:(lia) Hgl Hinj)
    in Ewrite as (Hok' & Hfr' & Hchain & _);
    [|exact Hok1|lia|lia|lia].
  unfold UINT_MOD in Hcnt. unfold counter_consistent in *.
  cbn [image_data free_granules].
  assert (Hf1 : free_granules fs1 = free_granules fs - ceil_div L 2304)
    by (rewrite Hfree1; apply u32_small; lia).
  split; [split; [exact Hok'|cbn [free_granules]; unfold UINT_MOD; lia]|].
  rewrite Hf1, Hcons, <- Hc1. symmetry.
  apply count_free_ext; [exact Hok1|exact Hok'|].
  intros g Hg.
  destruct (in_glist_dec glist (Z.to_nat (ceil_div L 2304)) g)
    as [(j & Hj & Hgj)|Hnot]; rewrite Z2Nat.id in * by lia.
  - subst g. destruct (Hchain j ltac:(lia)) as (Hent & _).
    destruct (Hgr j Hj) as (_ & _ & Halloc).
    rewrite Hent, Halloc. geom. split; [|lia]. intros Hfree.
    exfalso. destruct (Z.ltb_spec (j + 1) (ceil_div L 2304)).
    + pose proof (Hgl (j + 1) ltac:(lia)). lia.
    + assert (HLp : 0 < L).
      { destruct (Z.eq_dec L 0) as [->|]; [|lia].
        change (ceil_div 0 2304) with 0 in Hj. lia. }
      destruct (last_resid_bounds L HLp) as (_ & Hres).
      assert (j = ceil_div L 2304 - 1) as -> by lia.
      pose proof (nsec_bounds _ Hres) as Hns.
      destruct (terminal_byte _ Hns) as (_ & Hnf & _).
      geom. apply Z.eqb_neq in Hnf. contradiction.
  - unfold gmap_get. rewrite Hfr'; [reflexivity|geom; lia| |].
    + intros j Hj. pose proof (Hgl j ltac:(lia)) as Hgj.
      pose proof (granule_region _ Hgj).
      specialize (Hnot j ltac:(lia)). geom. lia.
    + intros _. unfold dirent_off. geom. lia.
Qed.

(* ===================================================================== *)
(** * Part III: further properties of the engine                          *)
(* ===================================================================== *)

(** ** Where the bytes of the image belong *)

(** X1.  Every byte of the image lies either in the directory track, and
    then in no granule, or in exactly one of the granules 0..67 as
    [cocofs_granule_to_offset] places them. *)
Theorem granule_partition (off : Z) :
  0 <= off < COCOFS_TOTALSIZE ->
  (directory_track_off <= off < directory_track_off + COCOFS_BYTES_PER_TRACK /\
   forall g, 0 <= g < COCOFS_NGRANULES ->
     ~ (cocofs_granule_to_offset g <= off
        < cocofs_granule_to_offset g + COCOFS_BYTES_PER_GRANULE)) \/
  (~ (directory_track_off <= off
      < directory_track_off + COCOFS_BYTES_PER_TRACK) /\
   exists g, 0 <= g < COCOFS_NGRANULES /\
     cocofs_granule_to_offset g <= off
     < cocofs_granule_to_offset g + COCOFS_BYTES_PER_GRANULE /\
     forall g', 0 <= g' < COCOFS_NGRANULES ->
       cocofs_granule_to_offset g' <= off
       < cocofs_granule_to_offset g' + COCOFS_BYTES_PER_GRANULE ->
       g' = g).
Proof.
  intros Hoff. geom.
  change directory_track_off with 78336.
  change COCOFS_BYTES_PER_TRACK with 4608.
  destruct (decide (78336 <= off < 78336 + 4608)) as [Hin|Hout].
  - left. split; [exact Hin|]. intros g Hg.
    pose proof (granule_region g Hg). lia.
  - right. split; [exact Hout|].
    set (g := if off <? 78336 then off / 2304 else off / 2304 - 2).
    pose proof (Z.div_mod off 2304 ltac:(lia)) as Hdm.
    pose proof (Z.mod_pos_bound off 2304 ltac:(lia)) as Hm.
    assert (Hg : 0 <= g < 68 /\
                 cocofs_granule_to_offset g <= off
                 < cocofs_granule_to_offset g + 2304).
    { unfold g. destruct (Z.ltb_spec off 78336).
      - rewrite granule_to_offset_eq by lia.
        destruct (Z.leb_spec 34 (off / 2304)); lia.
      - rewrite granule_to_offset_eq by lia.
        destruct (Z.leb_spec 34 (off / 2304 - 2)); lia. }
    exists g. split; [apply Hg|]. split; [apply Hg|].
    intros g' Hg' Hin'. destruct (decide (g' = g)) as [|Hne]; [assumption|].
    pose proof (granule_disjoint g' g Hg' (proj1 Hg) Hne). lia.
Qed.

(** X2.  A valid Granule Map entry that is not Free is either a
    last-granule marker, [0xC0 + nsec] with [nsec <= 9] as [GMAP_LAST_NSEC]
    reads it, or a link: a byte of at most 68, for which [GMAP_IS_LAST]
    fails. *)
Theorem gmap_entry_classes (b : byte) :
  gmap_entry_is_valid b = true -> val b <> GMAP_FREE ->
  if GMAP_IS_LAST (val b)
  then 0 <= GMAP_LAST_NSEC (val b) <= COCOFS_SEC_PER_GRANULE /\
       val b = GMAP_LAST + GMAP_LAST_NSEC (val b)
  else val b <= COCOFS_NGRANULES.
Proof.
  destruct b; intros Hv Hnf; vm_compute in Hv; try discriminate Hv;
    vm_compute; first [ split; [split; discriminate|reflexivity]
                      | discriminate
                      | exfalso; apply Hnf; reflexivity ].
Qed.

(** ** File names *)

Lemma mapchar_dot c : cocofs_mapchar c = "."%byte <-> c = "."%byte.
Proof. destruct c; vm_compute; split; congruence. Qed.

Lemma mapchar_idemp c : cocofs_mapchar (cocofs_mapchar c) = cocofs_mapchar c.
Proof. destruct c; reflexivity. Qed.

Lemma take_insert_snoc {A} (l : list A) (i : nat) (x : A) :
  (i < length l)%nat -> take (S i) (<[i := x]> l) = take i l ++ [x].
Proof.
  revert i. induction l as [|a l IH]; intros [|i] H; cbn in *; try lia.
  - rewrite take_0. reflexivity.
  - f_equal. apply IH. lia.
Qed.

Lemma conv_name_base_spec (base : list byte) : forall (tail : list byte) i name,
  "."%byte ∉ base -> (tail = [] \/ exists rest, tail = "."%byte :: rest) ->
  length name = 8%nat -> (i <= 8)%nat ->
  conv_name_base (base ++ tail) i name =
  if (i + length base <=? 8)%nat
  then Some (take i name ++ map cocofs_mapchar base
               ++ drop (i + length base) name,
             match tail with [] => [] | _ :: rest => rest end)
  else None.
Proof.
  induction base as [|c base IH]; intros tail i name Hdot Htail Hlen Hi.
  - cbn [app length map]. rewrite Nat.add_0_r.
    destruct (Nat.leb_spec i 8) as [_|]; [|lia].
    rewrite take_drop.
    destruct Htail as [->|(rest & ->)]; cbn [conv_name_base]; [reflexivity|].
    rewrite bool_decide_eq_true_2 by reflexivity. reflexivity.
  - apply not_elem_of_cons in Hdot as [Hc Hdot].
    cbn [app conv_name_base length map].
    rewrite bool_decide_eq_false_2 by congruence.
    destruct (Nat.eqb_spec i 8) as [->|Hne].
    + destruct (Nat.leb_spec (8 + S (length base)) 8); [lia|reflexivity].
    + rewrite IH by (try assumption; rewrite ?length_insert; lia).
      replace (S i + length base)%nat with (i + S (length base))%nat by lia.
      destruct (Nat.leb_spec (i + S (length base)) 8) as [Hle|]; [|reflexivity].
      do 2 f_equal. rewrite take_insert_snoc by lia.
      rewrite <- app_assoc. cbn [app]. do 3 f_equal.
      rewrite drop_insert_lt by lia. reflexivity.
Qed.

Lemma conv_name_ext_spec (rest : list byte) : forall i ext,
  length ext = 3%nat -> (i <= 3)%nat ->
  conv_name_ext rest i ext =
  if (i + length rest <=? 3)%nat
  then Some (take i ext ++ map cocofs_mapchar rest ++ drop (i + length rest) ext)
  else None.
Proof.
  induction rest as [|c rest IH]; intros i ext Hlen Hi.
  - cbn [conv_name_ext length map app]. rewrite Nat.add_0_r.
    destruct (Nat.leb_spec i 3) as [_|]; [|lia]. rewrite take_drop. reflexivity.
  - cbn [conv_name_ext length map].
    destruct (Nat.eqb_spec i 3) as [->|Hne].
    + destruct (Nat.leb_spec (3 + S (length rest)) 3); [lia|reflexivity].
    + rewrite IH by (rewrite ?length_insert; lia).
      replace (S i + length rest)%nat with (i + S (length rest))%nat by lia.
      destruct (Nat.leb_spec (i + S (length rest)) 3) as [Hle|]; [|reflexivity].
      f_equal. rewrite take_insert_snoc by lia.
      rewrite <- app_assoc. cbn [app]. do 3 f_equal.
      rewrite drop_insert_lt by lia. reflexivity.
Qed.

(** X3.  [cocofs_conv_name] in closed form.  A name without a dot is
    accepted when it has at most 8 bytes; [base.rest] is accepted when
    [base] has at most 8 bytes and [rest], everything after the first dot,
    at most 3.  The fields are the bytes mapped by [cocofs_mapchar] and
    padded with blanks to 8 and 3 bytes. *)
Theorem cocofs_conv_name_spec (base rest : list byte) :
  "."%byte ∉ base ->
  cocofs_conv_name base =
    (if (length base <=? 8)%nat
     then Some (pad 8 (map cocofs_mapchar base), replicate 3 " "%byte)
     else None) /\
  cocofs_conv_name (base ++ "."%byte :: rest) =
    (if (length base <=? 8)%nat && (length rest <=? 3)%nat
     then Some (pad 8 (map cocofs_mapchar base),
                pad 3 (map cocofs_mapchar rest))
     else None).
Proof.
  intros Hdot. unfold cocofs_conv_name, pad. split.
  - rewrite <- (app_nil_r base) at 1.
    rewrite (conv_name_base_spec base [] 0 (replicate 8 " "%byte) Hdot
               (or_introl eq_refl) (length_replicate _ _) ltac:(lia)).
    cbn [Nat.add]. destruct (Nat.leb_spec (length base) 8); [|reflexivity].
    cbn [conv_name_ext take app]. rewrite drop_replicate, length_map.
    reflexivity.
  - rewrite (conv_name_base_spec base ("."%byte :: rest) 0
               (replicate 8 " "%byte) Hdot
               (or_intror (ex_intro _ rest eq_refl)) (length_replicate _ _)
               ltac:(lia)).
    cbn [Nat.add]. destruct (Nat.leb_spec (length base) 8); [|reflexivity].
    cbn [andb].
    rewrite (conv_name_ext_spec rest 0 (replicate 3 " "%byte)
               (length_replicate _ _) ltac:(lia)).
    cbn [Nat.add]. destruct (Nat.leb_spec (length rest) 3); [|reflexivity].
    cbn [take app]. rewrite !drop_replicate, !length_map. reflexivity.
Qed.

Lemma conv_name_base_inv (P : byte -> Prop) (full : list byte) :
  (forall c, P (cocofs_mapchar c)) ->
  forall i name name' rest,
  conv_name_base full i name = Some (name', rest) ->
  Forall P name -> Forall P name' /\ length name' = length name.
Proof.
  intros HP. induction full as [|c full IH]; intros i name name' rest;
    cbn [conv_name_base].
  - intros [= <- <-] H. auto.
  - destruct (bool_decide _); [intros [= <- <-] H; auto|].
    destruct (_ =? _)%nat; [discriminate|].
    intros Hrun H. apply IH in Hrun as [H1 H2].
    + split; [exact H1|]. rewrite H2. apply length_insert.
    + destruct (decide (i < length name)%nat) as [Hlt|Hge].
      * apply Forall_insert; [exact H|apply HP].
      * rewrite list_insert_ge by lia. exact H.
Qed.

Lemma conv_name_ext_inv (P : byte -> Prop) (full : list byte) :
  (forall c, P (cocofs_mapchar c)) ->
  forall i ext ext',
  conv_name_ext full i ext = Some ext' ->
  Forall P ext -> Forall P ext' /\ length ext' = length ext.
Proof.
  intros HP. induction full as [|c full IH]; intros i ext ext';
    cbn [conv_name_ext].
  - intros [= <-] H. auto.
  - destruct (_ =? _)%nat; [discriminate|].
    intros Hrun H. apply IH in Hrun as [H1 H2].
    + split; [exact H1|]. rewrite H2. apply length_insert.
    + destruct (decide (i < length ext)%nat) as [Hlt|Hge].
      * apply Forall_insert; [exact H|apply HP].
      * rewrite list_insert_ge by lia. exact H.
Qed.

Lemma cocofs_conv_name_shape (full name ext : list byte) :
  cocofs_conv_name full = Some (name, ext) ->
  length name = 8%nat /\ length ext = 3%nat /\
  Forall upper_only name /\ Forall upper_only ext.
Proof.
  unfold cocofs_conv_name.
  destruct (conv_name_base _ _ _) as [[n r]|] eqn:E1; [|discriminate].
  destruct (conv_name_ext _ _ _) as [e|] eqn:E2; [|discriminate].
  intros [= <- <-].
  apply (conv_name_base_inv upper_only) in E1 as [H1 H2];
    [|intros c; apply mapchar_idemp|apply Forall_replicate; reflexivity].
  apply (conv_name_ext_inv upper_only) in E2 as [H3 H4];
    [|intros c; apply mapchar_idemp|apply Forall_replicate; reflexivity].
  rewrite length_replicate in H2, H4. auto.
Qed.

Lemma conv_name_base_mapchar (full : list byte) : forall i name,
  conv_name_base (map cocofs_mapchar full) i name =
  match conv_name_base full i name with
  | Some (n, r) => Some (n, map cocofs_mapchar r)
  | None => None
  end.
Proof.
  induction full as [|c full IH]; intros i name; cbn [map conv_name_base].
  - reflexivity.
  - destruct (decide (c = "."%byte)) as [->|Hne].
    + rewrite !bool_decide_eq_true_2 by reflexivity. reflexivity.
    + rewrite !bool_decide_eq_false_2
        by (try assumption; rewrite mapchar_dot; assumption).
      destruct (_ =? _)%nat; [reflexivity|].
      rewrite mapchar_idemp. apply IH.
Qed.

Lemma conv_name_ext_mapchar (full : list byte) : forall i ext,
  conv_name_ext (map cocofs_mapchar full) i ext = conv_name_ext full i ext.
Proof.
  induction full as [|c full IH]; intros i ext; cbn [map conv_name_ext].
  - reflexivity.
  - destruct (_ =? _)%nat; [reflexivity|]. rewrite mapchar_idemp. apply IH.
Qed.

Lemma cocofs_conv_name_mapchar (full : list byte) :
  cocofs_conv_name (map cocofs_mapchar full) = cocofs_conv_name full.
Proof.
  unfold cocofs_conv_name. rewrite conv_name_base_mapchar.
  destruct (conv_name_base full 0 _) as [[n r]|]; [|reflexivity].
  rewrite conv_name_ext_mapchar. reflexivity.
Qed.

(** X4.  [cocofs_lookup] does not tell lower-case letters from
    upper-case ones: two names that [cocofs_mapchar] maps to the same bytes
    are looked up alike, in every file system. *)
Theorem cocofs_lookup_ignores_case (fs : cocofs) (s1 s2 : list byte) :
  map cocofs_mapchar s1 = map cocofs_mapchar s2 ->
  cocofs_lookup fs s1 = cocofs_lookup fs s2.
Proof.
  intros H. unfold cocofs_lookup.
  rewrite <- (cocofs_conv_name_mapchar s1), H, cocofs_conv_name_mapchar.
  reflexivity.
Qed.

Lemma upper_only_not_lower c :
  upper_only c -> ~ (val "a"%byte <= val c <= val "z"%byte).
Proof.
  unfold upper_only. destruct c; vm_compute; intros H [H1 H2];
    first [discriminate H | apply H1; reflexivity | apply H2; reflexivity].
Qed.

(** X5.  The slot [cocofs_lookup] returns is in the directory, is not
    free, and has no lower-case letter in its name and extension fields:
    an entry stored with one is never found by name. *)
Theorem cocofs_lookup_never_lowercase (fs : cocofs) (s : list byte) (i : Z) :
  cocofs_lookup fs s = Some i ->
  0 <= i < COCOFS_DIR_TRACK_NENTRIES /\
  val (d_type (image_data fs) i) <> COCOFS_DIRENT_TYPE_FREE /\
  forall c, c ∈ d_name (image_data fs) i ++ d_ext (image_data fs) i ->
            ~ (val "a"%byte <= val c <= val "z"%byte).
Proof.
  unfold cocofs_lookup, cocofs_lookup_raw.
  destruct (cocofs_conv_name s) as [[name ext]|] eqn:E; [|discriminate].
  apply cocofs_conv_name_shape in E as (Hn & He & Hun & Hue).
  intros Hl. apply lookup_raw_from_Some in Hl as (Hi & (Ht & Hdn & Hde) & _).
  split; [geom; change (Z.of_nat (Z.to_nat 72)) with 72 in Hi; lia|].
  split; [exact Ht|]. intros c Hc. apply upper_only_not_lower.
  rewrite Hdn, Hde in Hc. rewrite !take_ge in Hc by lia.
  apply elem_of_app in Hc as [Hc|Hc].
  - rewrite Forall_forall in Hun. apply Hun. exact Hc.
  - rewrite Forall_forall in Hue. apply Hue. exact Hc.
Qed.

(** ** Type and encoding names *)

(** X6.  The name [cocofs_dir_type] prints for a type byte is looked up
    by [str2val_lookup_str] to the very table entry the byte has, and to
    nothing when the byte has none (the [<type 0x..>] form); likewise for
    encodings.  No type name is an encoding name, nor the reverse. *)
Theorem dir_type_names_parse_back (b : byte) :
  str2val_lookup_str cocofs_dir_types (cocofs_dir_type b)
  = str2val_lookup_val cocofs_dir_types b /\
  str2val_lookup_str cocofs_dir_encodings (cocofs_dir_encoding b)
  = str2val_lookup_val cocofs_dir_encodings b /\
  str2val_lookup_str cocofs_dir_encodings (cocofs_dir_type b) = None /\
  str2val_lookup_str cocofs_dir_types (cocofs_dir_encoding b) = None.
Proof. destruct b; vm_compute; repeat split. Qed.

Lemma str2val_lookup_str_elem (tab : list str2val) (s : list byte) e :
  str2val_lookup_str tab s = Some e ->
  e ∈ tab /\ map tolower (s2v_str e) = map tolower s.
Proof.
  induction tab as [|a tab IH]; cbn [str2val_lookup_str]; [discriminate|].
  unfold strcasecmp_eq. destruct (bool_decide_reflect
    (map tolower (s2v_str a) = map tolower s)) as [Heq|Hne].
  - intros [= <-]. split; [apply elem_of_cons; left; reflexivity|exact Heq].
  - intros H. apply IH in H as [H1 H2]. split; [|exact H2].
    apply elem_of_cons; right; exact H1.
Qed.

Lemma dir_types_values e :
  e ∈ cocofs_dir_types -> val (u8 (s2v_val e)) <= COCOFS_DIRENT_TYPE_TEXT.
Proof.
  unfold cocofs_dir_types. intros H.
  repeat (apply elem_of_cons in H as [->|H]; [vm_compute; discriminate|]).
  apply elem_of_nil in H. contradiction.
Qed.

Lemma dir_encodings_values e :
  e ∈ cocofs_dir_encodings ->
  val (u8 (s2v_val e)) = COCOFS_DIRENT_ENC_BINARY \/
  val (u8 (s2v_val e)) = COCOFS_DIRENT_ENC_ASCII.
Proof.
  unfold cocofs_dir_encodings. intros H.
  apply elem_of_cons in H as [->|H]; [left; reflexivity|].
  apply elem_of_cons in H as [->|H]; [right; reflexivity|].
  apply elem_of_nil in H. contradiction.
Qed.

Lemma default_type_and_encoding_ok (ext : list byte) :
  qualifiers_ok (cocofs_default_type_and_encoding ext).1
                (cocofs_default_type_and_encoding ext).2.
Proof.
  unfold cocofs_default_type_and_encoding.
  destruct (str2val_lookup_str _ _) as [e|] eqn:E.
  - apply str2val_lookup_str_elem in E as [H _].
    unfold cocofs_default_types_and_encodings in H.
    repeat (apply elem_of_cons in H as [->|H];
            [split; [vm_compute; discriminate|
                     first [left; reflexivity|right; reflexivity]]|]).
    apply elem_of_nil in H. contradiction.
  - split; [vm_compute; discriminate|left; reflexivity].
Qed.

Lemma parse_qualifier_ok st q st' :
  parse_qualifier st q = inr st' ->
  qualifiers_ok (q_type st) (q_enc st) ->
  qualifiers_ok (q_type st') (q_enc st').
Proof.
  unfold parse_qualifier. intros H [H1 H2].
  destruct (str2val_lookup_str cocofs_dir_types q) as [e|] eqn:E1.
  - destruct (have_type st); [discriminate|]. injection H as <-.
    cbn [q_type q_enc]. split; [|exact H2].
    apply dir_types_values. apply (str2val_lookup_str_elem _ _ _ E1).
  - destruct (str2val_lookup_str cocofs_dir_encodings q) as [e|] eqn:E2;
      [|discriminate].
    destruct (have_enc st); [discriminate|]. injection H as <-.
    cbn [q_type q_enc]. split; [exact H1|].
    apply dir_encodings_values. apply (str2val_lookup_str_elem _ _ _ E2).
Qed.

Lemma parse_qualifiers_ok quals : forall st st',
  parse_qualifiers st quals = inr st' ->
  qualifiers_ok (q_type st) (q_enc st) ->
  qualifiers_ok (q_type st') (q_enc st').
Proof.
  induction quals as [|q quals IH]; intros st st'; cbn [parse_qualifiers].
  - intros [= <-]. auto.
  - destruct (parse_qualifier st q) as [e|st1] eqn:E; [discriminate|].
    intros H Hok. apply (IH _ _ H). apply (parse_qualifier_ok _ _ _ E Hok).
Qed.

(** X7.  Whatever [cocofs_parse_fname] accepts, it returns a name of 8
    bytes and an extension of 3 without lower-case letters, a type among
    Basic, Data, Code, Text (never the Free marker 0xFF), and an encoding
    that is Binary or ASCII. *)
Theorem cocofs_parse_fname_result (fname f name ext : list byte)
        (type enc : byte) :
  cocofs_parse_fname fname = Parsed f name ext type enc ->
  length name = 8%nat /\ length ext = 3%nat /\
  val type <= COCOFS_DIRENT_TYPE_TEXT /\
  (val enc = COCOFS_DIRENT_ENC_BINARY \/ val enc = COCOFS_DIRENT_ENC_ASCII) /\
  (forall c, c ∈ name ++ ext -> ~ (val "a"%byte <= val c <= val "z"%byte)).
Proof.
  unfold cocofs_parse_fname. destruct fname as [|c0 fname0]; [discriminate|].
  destruct (split_qualifiers _) as [f' quals].
  destruct (parse_qualifiers _ quals) as [e|st] eqn:Eq; [discriminate|].
  apply parse_qualifiers_ok in Eq;
    [|split; [vm_compute; discriminate|left; reflexivity]].
  set (cp1 := match strrchr f' "/"%byte with
              | Some k => drop (S k) f' | None => f' end).
  destruct (cocofs_conv_name cp1) as [[n x]|] eqn:Ec; [|discriminate].
  apply cocofs_conv_name_shape in Ec as (Hn & Hx & Hun & Hux).
  assert (Hte : forall t c,
    (if negb (have_type st) && negb (have_enc st)
     then match strchr cp1 "."%byte with
          | Some k => cocofs_default_type_and_encoding (drop (S k) cp1)
          | None => (q_type st, q_enc st)
          end
     else (q_type st, q_enc st)) = (t, c) -> qualifiers_ok t c).
  { intros t c. destruct (_ && _).
    - destruct (strchr cp1 _) as [k|].
      + intros H. pose proof (default_type_and_encoding_ok (drop (S k) cp1)) as Hd.
        rewrite H in Hd. exact Hd.
      + intros [= <- <-]. exact Eq.
    - intros [= <- <-]. exact Eq. }
  match goal with
  | |- context [match ?x with pair _ _ => _ end] =>
      destruct x as [t c] eqn:Etc
  end.
  intros [= <- <- <- <- <-]. destruct (Hte t c eq_refl) as [Ht Hc].
  repeat split; try assumption.
  intros b Hb. apply upper_only_not_lower.
  apply elem_of_app in Hb as [Hb|Hb].
  - rewrite Forall_forall in Hun. apply Hun. exact Hb.
  - rewrite Forall_forall in Hux. apply Hux. exact Hb.
Qed.

(** ** Qualifiers on the command line *)

Lemma find_bracket_found (fname : list byte) (p : nat) : forall j,
  (0 < p)%nat -> fname !! p = Some "["%byte ->
  (forall i, (p < i <= p + j)%nat -> fname !! i <> Some "["%byte) ->
  find_bracket fname (p + j) = p.
Proof.
  induction j as [|j IH]; intros Hp Hat Hno.
  - rewrite Nat.add_0_r. destruct p as [|p]; [lia|]. cbn [find_bracket].
    rewrite bool_decide_eq_true_2 by exact Hat. reflexivity.
  - replace (p + S j)%nat with (S (p + j)) by lia. cbn [find_bracket].
    rewrite bool_decide_eq_false_2 by (apply Hno; lia).
    apply IH; [exact Hp|exact Hat|]. intros i Hi. apply Hno. lia.
Qed.

Lemma split_qualifiers_bracket (base quals : list byte) :
  base <> [] -> "["%byte ∉ quals ->
  split_qualifiers (base ++ "["%byte :: quals ++ ["]"%byte]) =
  (base, match strchr quals ","%byte with
         | Some k => [take k quals; drop (S k) quals]
         | None => [quals]
         end).
Proof.
  intros Hbase Hno. unfold split_qualifiers.
  set (fname := base ++ "["%byte :: quals ++ ["]"%byte]).
  assert (Hlen : length fname = (length base + S (length quals + 1))%nat).
  { unfold fname. rewrite length_app. cbn [length]. rewrite length_app.
    reflexivity. }
  assert (Hb : (0 < length base)%nat) by (destruct base; [congruence|cbn; lia]).
  rewrite Hlen.
  replace (length base + S (length quals + 1) - 1)%nat
    with (length base + S (length quals))%nat by lia.
  assert (Hlast : fname !! (length base + S (length quals))%nat
                  = Some "]"%byte).
  { unfold fname.
    replace (base ++ "["%byte :: quals ++ ["]"%byte])
      with ((base ++ "["%byte :: quals) ++ "]"%byte :: [])
      by (rewrite <- app_assoc; reflexivity).
    apply list_lookup_middle. rewrite length_app. reflexivity. }
  rewrite bool_decide_eq_true_2 by exact Hlast.
  rewrite find_bracket_found; [|exact Hb| |].
  - destruct (Nat.ltb_spec 0 (length base)) as [_|]; [|lia].
    assert (Hq : take (length base + S (length quals) - S (length base))
                   (drop (S (length base)) fname) = quals).
    { unfold fname. rewrite drop_app_ge by lia.
      replace (S (length base) - length base)%nat with 1%nat by lia.
      cbn [drop]. replace (length base + S (length quals) - S (length base))%nat
        with (length quals) by lia.
      apply take_app_length. }
    rewrite Hq. unfold fname. rewrite take_app_length.
    destruct (strchr quals _); reflexivity.
  - unfold fname. rewrite lookup_app_r by lia. rewrite Nat.sub_diag.
    reflexivity.
  - intros i Hi. unfold fname. rewrite lookup_app_r by lia.
    destruct (i - length base)%nat as [|m] eqn:Em; [lia|].
    change (("["%byte :: quals ++ ["]"%byte]) !! S m)
      with ((quals ++ ["]"%byte]) !! m).
    destruct (decide (m < length quals)%nat) as [Hlt|Hge].
    + rewrite lookup_app_l by exact Hlt. intros Hm.
      apply Hno. apply (list_elem_of_lookup_2 _ _ _ Hm).
    + rewrite lookup_app_r by lia.
      destruct (m - length quals)%nat; intros H; vm_compute in H; discriminate H.
Qed.

Lemma strchr_app_sep (q1 q2 : list byte) (c : byte) :
  c ∉ q1 -> strchr (q1 ++ c :: q2) c = Some (length q1).
Proof.
  induction q1 as [|b q1 IH]; intros Hno; cbn [app strchr length].
  - rewrite bool_decide_eq_true_2 by reflexivity. reflexivity.
  - apply not_elem_of_cons in Hno as [Hne Hno].
    rewrite bool_decide_eq_false_2 by congruence. rewrite IH by exact Hno.
    reflexivity.
Qed.

Lemma strchr_none (q : list byte) (c : byte) : c ∉ q -> strchr q c = None.
Proof.
  induction q as [|b q IH]; intros Hno; cbn [strchr]; [reflexivity|].
  apply not_elem_of_cons in Hno as [Hne Hno].
  rewrite bool_decide_eq_false_2 by congruence. rewrite IH by exact Hno.
  reflexivity.
Qed.

Lemma parse_qualifiers_swap (q1 q2 : list byte) :
  parse_qualifiers no_qualifiers [q1; q2]
  = parse_qualifiers no_qualifiers [q2; q1].
Proof.
  cbn [parse_qualifiers]. unfold parse_qualifier, no_qualifiers.
  cbn [have_type have_enc q_type q_enc].
  destruct (str2val_lookup_str cocofs_dir_types q1) as [t1|];
    destruct (str2val_lookup_str cocofs_dir_types q2) as [t2|];
    destruct (str2val_lookup_str cocofs_dir_encodings q1) as [e1|];
    destruct (str2val_lookup_str cocofs_dir_encodings q2) as [e2|];
    reflexivity.
Qed.

Lemma parse_fname_split (fname : list byte) :
  fname <> [] ->
  cocofs_parse_fname fname =
  let '(f, quals) := split_qualifiers fname in
  match parse_qualifiers no_qualifiers quals with
  | inl e => Rejected e
  | inr st =>
      let cp1 := match strrchr f "/"%byte with
                 | Some k => drop (S k) f
                 | None => f
                 end in
      match cocofs_conv_name cp1 with
      | None => Rejected PF_INVALID_NAME
      | Some (name, ext) =>
          let '(type, enc) :=
            if negb (have_type st) && negb (have_enc st) then
              match strchr cp1 "."%byte with
              | Some k => cocofs_default_type_and_encoding (drop (S k) cp1)
              | None => (q_type st, q_enc st)
              end
            else (q_type st, q_enc st) in
          Parsed f name ext type enc
      end
  end.
Proof. destruct fname; [congruence|reflexivity]. Qed.

(** X8.  The two qualifiers of [name[q1,q2]] may come in either order:
    [cocofs_parse_fname] returns the same for both. *)
Theorem cocofs_parse_fname_qualifier_order (base q1 q2 : list byte) :
  base <> [] ->
  "["%byte ∉ q1 -> ","%byte ∉ q1 -> "["%byte ∉ q2 -> ","%byte ∉ q2 ->
  cocofs_parse_fname (base ++ "["%byte :: (q1 ++ ","%byte :: q2) ++ ["]"%byte])
  = cocofs_parse_fname
      (base ++ "["%byte :: (q2 ++ ","%byte :: q1) ++ ["]"%byte]).
Proof.
  intros Hb H1 H1' H2 H2'.
  assert (Hsep : forall a b : list byte, "["%byte ∉ a -> "["%byte ∉ b ->
            "["%byte ∉ a ++ ","%byte :: b).
  { intros a b Ha Hb' Hin. apply elem_of_app in Hin as [Hin|Hin];
      [contradiction|].
    apply elem_of_cons in Hin as [Hin|Hin]; [discriminate|contradiction]. }
  rewrite !parse_fname_split by (destruct base; [congruence|discriminate]).
  rewrite !split_qualifiers_bracket by auto.
  rewrite !strchr_app_sep by assumption.
  rewrite !take_app_length.
  rewrite !drop_app_ge by lia.
  replace (S (length q1) - length q1)%nat with 1%nat by lia.
  replace (S (length q2) - length q2)%nat with 1%nat by lia.
  cbn [drop]. rewrite parse_qualifiers_swap. reflexivity.
Qed.

(** X9.  With one qualifier, [name[q]], an accepted name is cut before
    the bracket, and the file name extension is not consulted: a type
    qualifier leaves the encoding Binary, an encoding qualifier leaves the
    type Data. *)
Theorem cocofs_parse_fname_qualified (base q f name ext : list byte)
        (type enc : byte) :
  base <> [] -> "["%byte ∉ q -> ","%byte ∉ q ->
  cocofs_parse_fname (base ++ "["%byte :: q ++ ["]"%byte])
  = Parsed f name ext type enc ->
  f = base /\
  ((exists tab, str2val_lookup_str cocofs_dir_types q = Some tab /\
                type = u8 (s2v_val tab) /\
                val enc = COCOFS_DIRENT_ENC_BINARY) \/
   (exists tab, str2val_lookup_str cocofs_dir_encodings q = Some tab /\
                enc = u8 (s2v_val tab) /\
                val type = COCOFS_DIRENT_TYPE_DATA)).
Proof.
  intros Hb H1 H2.
  rewrite parse_fname_split by (destruct base; [congruence|discriminate]).
  rewrite split_qualifiers_bracket by assumption.
  rewrite strchr_none by assumption.
  cbn [parse_qualifiers]. unfold parse_qualifier, no_qualifiers.
  cbn [have_type have_enc q_type q_enc].
  destruct (str2val_lookup_str cocofs_dir_types q) as [t|] eqn:Et.
  - cbn [have_type have_enc q_type q_enc negb andb].
    destruct (cocofs_conv_name _) as [[n x]|]; [|discriminate].
    intros [= <- <- <- <- <-]. split; [reflexivity|].
    left. exists t. auto.
  - destruct (str2val_lookup_str cocofs_dir_encodings q) as [e|] eqn:Ee;
      [|discriminate].
    cbn [have_type have_enc q_type q_enc negb andb].
    destruct (cocofs_conv_name _) as [[n x]|]; [|discriminate].
    intros [= <- <- <- <- <-]. split; [reflexivity|].
    right. exists e. auto.
Qed.

(** ** Allocation on a full disk; the counter; saving *)

Lemma galloc_loop_exhausted (n : nat) : forall fs g,
  0 <= g < 68 ->
  (forall x, 0 <= x < 68 -> val (gmap_get (image_data fs) x) <> GMAP_FREE) ->
  galloc_loop n fs g = None.
Proof.
  induction n as [|n IH]; intros fs g Hg Hfull; cbn [galloc_loop];
    [reflexivity|].
  destruct (Z.eqb_spec (val (gmap_get (image_data fs) g)) GMAP_FREE) as [Hf|_].
  - exfalso. apply (Hfull g Hg Hf).
  - rewrite u32_small by lia. geom.
    destruct (Z.eqb_spec (g + 1) 68); apply IH; (lia || exact Hfull).
Qed.

(** X10.  When no entry of the Granule Map is Free, [cocofs_galloc]
    probes all of them and ends in [abort()]. *)
Theorem cocofs_galloc_exhausted (fs : cocofs) (last : Z) :
  0 <= last < COCOFS_NGRANULES ->
  (forall g, 0 <= g < COCOFS_NGRANULES ->
     val (gmap_get (image_data fs) g) <> GMAP_FREE) ->
  cocofs_galloc fs last = None.
Proof.
  intros Hlast Hfull. unfold cocofs_galloc.
  apply galloc_loop_exhausted; [exact Hlast|exact Hfull].
Qed.

(** X11.  The free-granule counter equals the number of Free entries of
    the Granule Map after [cocofs_format] and after [cocofs_load], and
    [cocofs_rm] and [cocofs_copyin] keep it so, whether they succeed or
    fail. *)
Theorem free_granules_invariant :
  (fs_ok cocofs_format /\ counter_consistent cocofs_format) /\
  (forall data, fs_ok (cocofs_load data) /\
                counter_consistent (cocofs_load data)) /\
  (forall fs dir fuel r fs',
     fs_ok fs -> counter_consistent fs ->
     0 <= dir < COCOFS_DIR_TRACK_NENTRIES ->
     cocofs_rm fuel fs dir = Some (r, fs') ->
     fs_ok fs' /\ counter_consistent fs') /\
  (forall fs f name ext type enc r fs',
     fs_ok fs -> counter_consistent fs -> infile_ok f ->
     cocofs_copyin fs f name ext type enc = Returned r fs' ->
     fs_ok fs' /\ counter_consistent fs').
Proof.
  split; [split; [exact format_fs_ok|exact format_counter_consistent]|].
  split; [exact load_consistent|]. split.
  - intros fs dir fuel r fs' H1 H2 H3 H4.
    exact (rm_consistent fs dir fuel r fs' H1 H2 H3 H4).
  - intros fs f name ext type enc r fs' H1 H2 H3 H4.
    exact (copyin_consistent fs f name ext type enc r fs' H1 H2 H3 H4).
Qed.

Lemma list_inserts_all {A} (l k : list A) :
  length k = length l -> list_inserts 0 l k = l.
Proof.
  intros Hlen. apply list_eq. intros i.
  destruct (decide (i < length l)%nat) as [Hlt|Hge].
  - destruct (lookup_lt_is_Some_2 l i Hlt) as [x Hx].
    rewrite Hx. apply list_lookup_inserts_Some. right.
    rewrite Nat.sub_0_r. split; [lia|]. split; [lia|exact Hx].
  - rewrite (lookup_ge_None_2 l) by lia. apply lookup_ge_None_2.
    rewrite length_inserts. lia.
Qed.

(** X12.  Loading what [cocofs_save] has written, when it reports
    success, gives back the file system saved: the same image and, the
    counter being recomputed from the map, the same counter. *)
Theorem cocofs_save_load (fs : cocofs) (d d' : imagefile) :
  fs_ok fs -> counter_consistent fs ->
  cocofs_save fs d = (true, d') ->
  cocofs_load (if_data d') = fs.
Proof.
  intros [Hok _] Hcons. unfold cocofs_save, cocofs_pwrite.
  destruct (if_seek d); cbn [negb].
  2: (intros [= H _]; try (vm_compute in H; discriminate H)).
  destruct (Z.eqb_spec (if_write d COCOFS_TOTALSIZE) COCOFS_TOTALSIZE)
    as [Hrv|]; [|discriminate].
  intros [= <-]. cbn [if_data]. rewrite Hrv, Z.min_id.
  assert (Hfull : take (Z.to_nat COCOFS_TOTALSIZE) (image_data fs)
                  = image_data fs) by (apply take_ge; rewrite Hok; lia).
  rewrite Hfull.
  pose proof (load_consistent
                (image_data fs ++ drop (Z.to_nat COCOFS_TOTALSIZE) (if_data d)))
    as [_ Hc].
  unfold counter_consistent in Hc, Hcons.
  assert (Himg : image_data (cocofs_load
                   (image_data fs
                    ++ drop (Z.to_nat COCOFS_TOTALSIZE) (if_data d)))
                 = image_data fs).
  { unfold cocofs_load. cbn [image_data].
    rewrite take_app_length' by (symmetry; exact Hok).
    unfold mem_write. change (Z.to_nat 0) with 0%nat.
    apply list_inserts_all. rewrite length_replicate. symmetry. exact Hok. }
  rewrite Himg in Hc.
  destruct (cocofs_load _) as [img fr]. cbn [image_data free_granules] in *.
  destruct fs as [img0 fr0]. cbn [image_data free_granules] in *.
  congruence.
Qed.

(** ** What a successful add leaves behind *)

Lemma enumerate_from_intro n fs : forall i0 i,
  i0 <= i < i0 + Z.of_nat n ->
  val (d_type (image_data fs) i) <= COCOFS_DIRENT_TYPE_TEXT ->
  (i, cocofs_stat fs i) ∈ enumerate_from n fs i0.
Proof.
  induction n as [|n IH]; intros i0 i Hi Ht; [lia|].
  cbn [enumerate_from].
  destruct (decide (i = i0)) as [->|Hne].
  - destruct (Z.ltb_spec COCOFS_DIRENT_TYPE_TEXT
                         (val (d_type (image_data fs) i0))); [lia|].
    apply elem_of_cons. left. reflexivity.
  - assert (Hin : (i, cocofs_stat fs i) ∈ enumerate_from n fs (i0 + 1))
      by (apply IH; [lia|exact Ht]).
    destruct (_ <? _); [exact Hin|]. apply elem_of_cons. right. exact Hin.
Qed.

Lemma set_dirent_names img dir name ext type enc first lb :
  image_ok img -> 0 <= dir < 72 ->
  length name = 8%nat -> length ext = 3%nat ->
  let img' := set_dirent img dir name ext type enc first lb in
  d_name img' dir = name /\ d_ext img' dir = ext.
Proof.
  intros Hok Hdir Hn He img'. unfold img', set_dirent, d_name, d_ext.
  rewrite !take_ge by lia.
  set (i1 := mem_write img (dirent_off dir + D_NAME) name).
  set (i2 := mem_write i1 (dirent_off dir + D_EXT) ext).
  assert (H1 : image_ok i1) by (apply image_ok_mem_write; exact Hok).
  assert (H2 : image_ok i2) by (apply image_ok_mem_write; exact H1).
  unfold image_ok, dirent_off in *. geom.
  assert (Hl : length (cocofs_dir_set_lastbytes lb) = 2%nat) by reflexivity.
  split.
  - rewrite mem_read_write_out by lia.
    rewrite !mem_read_set_out by lia.
    unfold i2. rewrite mem_read_write_out by lia.
    pose proof (mem_read_write_eq img (78848 + dir * 32 + 0) name
                  ltac:(lia) ltac:(lia)) as Hrw.
    rewrite Hn in Hrw. exact Hrw.
  - rewrite mem_read_write_out by lia.
    rewrite !mem_read_set_out by lia.
    pose proof (mem_read_write_eq i1 (78848 + dir * 32 + 8) ext
                  ltac:(lia) ltac:(lia)) as Hrw.
    rewrite He in Hrw. exact Hrw.
Qed.

Lemma write_body_Next_shape f img glist dir name ext type enc gn gi resid img' :
  image_ok img -> 0 < resid ->
  write_body f img glist dir name ext type enc gn gi resid = WB_Next img' ->
  image_ok img' /\
  (resid <= 2304 ->
   exists img0 lb, image_ok img0 /\
     img' = set_dirent img0 dir name ext type enc (glist_get glist 0) lb).
Proof.
  intros Hok Hpos. unfold write_body.
  destruct (negb _); [discriminate|].
  destruct (cocofs_pread _ _ _ _ _) as [img1 rv] eqn:Epr.
  assert (Hok1 : image_ok img1).
  { unfold cocofs_pread in Epr. destruct (in_pread _ _ _);
      injection Epr as <- _; [apply image_ok_mem_write|]; exact Hok. }
  destruct (negb (rv =? _)); [discriminate|]. geom.
  destruct (Z.leb_spec resid 2304) as [Hle|Hgt].
  - destruct (negb (gi + 1 =? gn)); [discriminate|].
    destruct (negb (_ <=? 9)); [discriminate|].
    destruct (negb (_ <=? 256)); [discriminate|].
    intros [= <-]. split.
    + apply image_ok_set_dirent. destruct (_ =? 0);
        [|apply image_ok_memset]; apply image_ok_gmap_set; exact Hok1.
    + intros _. eexists _, _. split; [|reflexivity].
      destruct (_ =? 0); [|apply image_ok_memset];
        apply image_ok_gmap_set; exact Hok1.
  - destruct (negb _); [discriminate|]. intros [= <-].
    split; [apply image_ok_gmap_set; exact Hok1|]. lia.
Qed.

Lemma write_loop_Done_dirent f glist dir name ext type enc gn (n : nat) :
  forall img gi resid img',
  image_ok img -> 0 < resid ->
  write_loop n f img glist dir name ext type enc gn gi resid = WL_Done img' ->
  exists img0 lb, image_ok img0 /\
    img' = set_dirent img0 dir name ext type enc (glist_get glist 0) lb.
Proof.
  induction n as [|n IH]; intros img gi resid img' Hok Hpos;
    cbn [write_loop]; destruct (Z.eqb_spec resid 0) as [|_]; try lia;
    [discriminate|].
  destruct (write_body _ _ _ _ _ _ _ _ _ _ _) as [img1| |] eqn:Eb;
    try discriminate.
  apply write_body_Next_shape in Eb as (Hok1 & Hlast); try assumption.
  pose proof (cursz_of_spec resid Hpos) as (Hc1 & Hc2 & Hc3 & Hc4).
  destruct (Z.le_gt_cases resid 2304) as [Hle|Hgt].
  - rewrite Hc3 by assumption. rewrite Z.sub_diag.
    destruct n; cbn [write_loop]; change (0 =? 0) with true; cbv iota;
      intros [= <-]; apply Hlast; exact Hle.
  - rewrite Hc4 by assumption. apply IH; [exact Hok1|lia].
Qed.

Lemma cocofs_copyin_success_frame (fs : cocofs) (f : infile)
      (name ext : list byte) (type enc : byte) (fs' : cocofs) :
  fs_ok fs -> infile_ok f ->
  cocofs_copyin fs f name ext type enc = Returned None fs' ->
  exists dir glist L,
    copyin_post fs fs' f dir glist L /\
    0 <= dir < 72 /\
    (forall off, 0 <= off ->
       (forall j, 0 <= j < ceil_div L 2304 ->
          ~ (cocofs_granule_to_offset (val (glist_get glist j)) <= off
             < cocofs_granule_to_offset (val (glist_get glist j)) + 2304) /\
          off <> granule_map_off + val (glist_get glist j)) ->
       (0 < L -> ~ (dirent_off dir <= off < dirent_off dir + 16)) ->
       mem_get (image_data fs') off = mem_get (image_data fs) off) /\
    (0 < L -> length name = 8%nat -> length ext = 3%nat ->
       d_name (image_data fs') dir = name /\
       d_ext (image_data fs') dir = ext /\
       d_type (image_data fs') dir = type /\
       d_encoding (image_data fs') dir = enc).
Proof.
  intros [Hok Hcnt] Hf. unfold cocofs_copyin.
  destruct (in_open f); cbn [negb]; [|discriminate].
  destruct (in_fstat f) as [L|] eqn:EL; [|discriminate].
  destruct (_ <? _) eqn:Echeck; [discriminate|].
  destruct (capacity_check_passed fs L (Hf L EL) Echeck)
    as (HL & HuL & Huk & Hcap).
  rewrite HuL, Huk.
  destruct (Z.leb_spec (ceil_div L 2304) (free_granules fs)) as [Hk|Hk];
    cbn [negb]; [|discriminate].
  destruct (find_free_dirent _ _ _) as [dir|] eqn:Edir; [|discriminate].
  destruct (alloc_loop _ _ _ _ _) as [[fs1 glist]|] eqn:Ealloc; [|discriminate].
  destruct (write_loop _ _ _ _ _ _ _ _ _ _ _ _) as [img'| |] eqn:Ewrite;
    try discriminate.
  intros [= <-].
  pose proof (ceil_div_le_self L ltac:(lia)) as Hkpos.
  pose proof (alloc_loop_Some_count _ fs 34 _ _ _ Hok ltac:(lia) Ealloc)
    as Hcount.
  pose proof (count_free_range _ Hok) as Hcf.
  rewrite Z2Nat.id in Hcount by lia.
  apply alloc_loop_spec in Ealloc
    as ((Hok1 & Hlen1 & Hgr & Hinj & Hframe) & Hfree1 & _);
    [|split; assumption|geom; change (68 / 2) with 34; lia|lia
     |rewrite Z2Nat.id by lia; lia
     |rewrite length_replicate; reflexivity].
  rewrite Z.add_0_l, Z2Nat.id in * by lia.
  apply find_free_dirent_Some in Edir as Hdirfacts.
  destruct Hdirfacts as (Hdir & _). geom.
  change (Z.of_nat (Z.to_nat 72)) with 72 in Hdir.
  assert (Hgl : forall j, 0 <= j < ceil_div L 2304 ->
                  0 <= val (glist_get glist j) < 68).
  { intros j Hj. apply (Hgr j Hj). }
  pose proof Ewrite as Ewrite2.
  apply (write_loop_Done f glist dir name ext type enc L ltac:(lia) Hgl Hinj)
    in Ewrite as (Hok' & Hfr' & Hchain & Hdirent);
    [|exact Hok1|lia|lia|lia].
  exists dir, glist, L. cbn [image_data free_granules].
  split; [|split; [lia|split]].
  - unfold copyin_post. cbn [image_data free_granules]. geom.
    split; [exact EL|]. split; [lia|]. split; [lia|]. split; [lia|].
    split; [exact Edir|]. split; [exact Hok'|].
    split. { rewrite Hfree1. unfold UINT_MOD in Hcnt. apply u32_small. lia. }
    split. { intros j Hj. destruct (Hgr j Hj) as (H1 & H2 & _). auto. }
    split; [exact Hinj|]. split.
    + intros j Hj. destruct (Hchain j ltac:(lia)) as (Hent & Hdat).
      split; [|exact Hdat]. rewrite Hent. unfold chain_entry.
      destruct (Z.ltb_spec (j + 1) (ceil_div L 2304)); [reflexivity|].
      replace j with (ceil_div L 2304 - 1) by lia. reflexivity.
    + intros HLpos. destruct (Hdirent HLpos) as (_ & H1 & H2). auto.
  - intros off Hoff Hout Hslot.
    rewrite Hfr'; [|exact Hoff| |].
    + apply Hframe; [exact Hoff|]. intros j Hj. apply (Hout j). lia.
    + intros j Hj. apply Hout. lia.
    + intros HLpos. unfold dirent_off in *. geom. apply Hslot. exact HLpos.
  - intros HLpos Hn He.
    apply write_loop_Done_dirent in Ewrite2 as (img0 & lb & Hok0 & ->);
      [|exact Hok1|lia].
    destruct (set_dirent_names img0 dir name ext type enc
                (glist_get glist 0) lb Hok0 ltac:(lia) Hn He) as [H1 H2].
    destruct (set_dirent_fields img0 dir name ext type enc
                (glist_get glist 0) lb Hok0 ltac:(lia)) as (H3 & H4 & _).
    auto.
Qed.

Section ChainStat.

Variable glist : list byte.
Variables k nsec : Z.

Hypothesis Hnsec : 1 <= nsec <= 9.
Hypothesis Hgl : forall j, 0 <= j < k -> 0 <= val (glist_get glist j) < 68.
Hypothesis Hinj : forall i j,
    0 <= i < k -> 0 <= j < k -> glist_get glist i = glist_get glist j -> i = j.

(** [cocofs_stat]'s loop adds one granule per link of the chain and
    stops at its last entry. *)
Lemma stat_loop_chain (img : image) (m : nat) :
  (forall j, 0 <= j < k ->
     gmap_get img (val (glist_get glist j)) = chain_entry glist k nsec j) ->
  forall lo n loopcnt size,
  k - 1 - lo = Z.of_nat m -> 0 <= lo -> (m < n)%nat ->
  0 <= size -> size + Z.of_nat m * 2304 < 2 ^ 32 ->
  stat_loop n img loopcnt (glist_get glist lo) size
  = (size + Z.of_nat m * 2304, nsec, loopcnt + Z.of_nat m).
Proof.
  intros Hch.
  induction m as [|m IH]; intros lo n loopcnt size Hm Hlo Hn Hsz Hov;
    (destruct n as [|n]; [lia|]); cbn [stat_loop];
    rewrite (Hch lo ltac:(lia));
    destruct (chain_entry_cases glist k nsec Hnsec Hgl lo ltac:(lia))
      as (Hv & Hnf & Hlink & Hterm);
    rewrite Hv, Hnf; cbn [negb orb].
  - destruct (Hterm ltac:(lia)) as (Hl & Hn'). rewrite Hl, Hn'.
    f_equal; [f_equal|]; lia.
  - destruct (Hlink ltac:(lia)) as (Hl & Hb). rewrite Hl, Hb. geom.
    rewrite u32_small by (unfold UINT_MOD; lia).
    rewrite (IH (lo + 1)) by lia. f_equal; [f_equal|]; lia.
Qed.

End ChainStat.

Lemma copyin_post_stat_size (fs fs' : cocofs) (f : infile) (dir : Z)
      (glist : list byte) (L : Z) :
  copyin_post fs fs' f dir glist L -> 0 < L ->
  stat_size (image_data fs') dir = L.
Proof.
  intros (HL & HLpos & Hk68 & Hkfree & Hdir & Hok1 & Hfree1
          & Hgr & Hinj & Hchain & Hdirent) HLpos'.
  destruct (last_resid_bounds L HLpos') as (Hk1 & Hresid).
  pose proof (nsec_bounds _ Hresid) as Hnsec.
  destruct (Hdirent HLpos') as (Hfirst & Hlast).
  set (k := ceil_div L 2304) in *.
  set (r := L - (k - 1) * 2304) in *.
  assert (Hgl : forall j, 0 <= j < k -> 0 <= val (glist_get glist j) < 68)
    by (intros j Hj; apply (Hgr j Hj)).
  unfold stat_size. rewrite Hfirst.
  rewrite (stat_loop_chain glist k _ Hnsec Hgl (image_data fs')
             (Z.to_nat (k - 1)) (fun j Hj => proj1 (Hchain j Hj)) 0);
    [|lia|lia|geom; lia|lia|lia].
  destruct (Z.eqb_spec (ceil_div r 256) 0); [lia|].
  rewrite Hlast. geom.
  pose proof (Z.mod_pos_bound r 256 ltac:(lia)) as Hmod.
  set (lb := if r mod 256 =? 0 then 256 else r mod 256).
  assert (Hlb : 0 < lb <= 256)
    by (unfold lb; destruct (Z.eqb_spec (r mod 256) 0); lia).
  rewrite lastbytes_roundtrip by lia.
  destruct (Z.ltb_spec 256 lb); [lia|].
  pose proof (last_nbytes_eq r Hresid) as Hnb. fold lb in Hnb.
  rewrite (u32_small (_ + _)) by (unfold UINT_MOD; lia).
  rewrite u32_small by (unfold UINT_MOD; lia).
  unfold r in *. lia.
Qed.

Lemma granules_kept_read (img img' : image) (g n : Z) :
  image_ok img -> image_ok img' -> granules_kept img img' ->
  0 <= g < COCOFS_NGRANULES -> val (gmap_get img g) <> GMAP_FREE ->
  n <= COCOFS_BYTES_PER_GRANULE ->
  mem_read img' (cocofs_granule_to_offset g) n
  = mem_read img (cocofs_granule_to_offset g) n.
Proof.
  intros Hok Hok' Hk Hg Hnf Hn. destruct (Hk g Hg Hnf) as [_ Hdata].
  pose proof (granule_region g ltac:(geom; lia)) as Hreg.
  apply mem_read_ext; [lia|unfold image_ok in *; congruence|].
  intros off Hoff. apply Hdata. lia.
Qed.

Lemma copyout_loop_kept (img img' : image) (fuel : nat) :
  image_ok img -> image_ok img' -> granules_kept img img' ->
  forall o g loopcnt last_nsec g' o',
  copyout_loop fuel img o g loopcnt = Some (CO_Break last_nsec g' o') ->
  copyout_loop fuel img' o g loopcnt = Some (CO_Break last_nsec g' o') /\
  0 <= val g' < COCOFS_NGRANULES /\ val (gmap_get img (val g')) <> GMAP_FREE.
Proof.
  intros Hok Hok' Hk.
  induction fuel as [|fuel IH]; intros o g loopcnt last_nsec g' o';
    cbn [copyout_loop]; [discriminate|].
  destruct (_ <? loopcnt); [discriminate|].
  destruct (Z.leb_spec COCOFS_NGRANULES (val g)) as [|Hg]; [discriminate|].
  pose proof (val_range g) as Hr.
  destruct (negb (gmap_entry_is_valid (gmap_get img (val g)))) eqn:Ev;
    cbn [orb]; [discriminate|].
  destruct (Z.eqb_spec (val (gmap_get img (val g))) GMAP_FREE) as [|Hnf];
    [discriminate|].
  destruct (Hk (val g) ltac:(lia) Hnf) as [Hent _].
  rewrite Hent, Ev. cbn [orb].
  destruct (Z.eqb_spec (val (gmap_get img (val g))) GMAP_FREE); [lia|].
  destruct (GMAP_IS_LAST _).
  - intros [= <- <- <-]. split; [reflexivity|]. split; [lia|exact Hnf].
  - rewrite (granules_kept_read img img') by (try assumption; lia).
    destruct (sys_write _ _) as [o1 rv]. destruct (negb (rv =? _)); [discriminate|].
    apply IH.
Qed.

Lemma cocofs_copyout_kept (fs fs' : cocofs) (dir : Z) (fuel : nat)
      (o o' : outfile) :
  image_ok (image_data fs) -> image_ok (image_data fs') ->
  granules_kept (image_data fs) (image_data fs') ->
  d_first_granule (image_data fs') dir = d_first_granule (image_data fs) dir ->
  d_last_bytes (image_data fs') dir = d_last_bytes (image_data fs) dir ->
  cocofs_copyout fuel fs dir o = Some (None, o') ->
  cocofs_copyout fuel fs' dir o = Some (None, o').
Proof.
  intros Hok Hok' Hk Hfirst Hlast. unfold cocofs_copyout.
  destruct (negb (out_open o)); [discriminate|].
  rewrite Hfirst, Hlast.
  destruct (copyout_loop fuel (image_data fs) o _ 0) as [[ns g o1|e o1]|] eqn:E;
    try discriminate.
  apply (copyout_loop_kept _ _ _ Hok Hok' Hk) in E as (E' & Hg & Hnf).
  rewrite E'.
  destruct (Z.ltb_spec ns 1) as [|Hns1]; [discriminate|].
  destruct (Z.ltb_spec COCOFS_SEC_PER_GRANULE ns) as [|Hns9]; [discriminate|].
  cbn [orb].
  set (lb := cocofs_dir_lastbytes (d_last_bytes (image_data fs) dir)).
  set (lb' := if COCOFS_BYTES_PER_SEC <? lb then COCOFS_BYTES_PER_SEC else lb).
  assert (Hlb : 0 <= lb).
  { unfold lb, cocofs_dir_lastbytes. apply Z.lor_nonneg. split.
    - apply Z.shiftl_nonneg. pose proof (val_range (default x00
        (d_last_bytes (image_data fs) dir !! 0%nat))). lia.
    - pose proof (val_range (default x00
        (d_last_bytes (image_data fs) dir !! 1%nat))). lia. }
  assert (Hlb' : 0 <= lb' <= 256).
  { unfold lb'. geom. destruct (Z.ltb_spec 256 lb); lia. }
  geom.
  rewrite (granules_kept_read (image_data fs) (image_data fs'))
    by (try assumption; geom; try lia;
        rewrite u32_small by (unfold UINT_MOD; lia); lia).
  auto.
Qed.

Lemma lookup_raw_from_ext (img img' : image) (name ext : list byte) (n : nat)
      (i0 : Z) :
  (forall i, i0 <= i < i0 + Z.of_nat n ->
     (lookup_matches img' name ext i <-> lookup_matches img name ext i)) ->
  lookup_raw_from n img' i0 name ext = lookup_raw_from n img i0 name ext.
Proof.
  intros H.
  destruct (lookup_raw_from n img i0 name ext) as [i|] eqn:E.
  - apply lookup_raw_from_Some in E as (Hi & Hm & Hmin).
    apply lookup_raw_from_Some. split; [exact Hi|]. split.
    + apply H; [exact Hi|exact Hm].
    + intros j Hj Hmj. apply (Hmin j Hj). apply H; [lia|exact Hmj].
  - rewrite lookup_raw_from_None in E. apply lookup_raw_from_None.
    intros j Hj Hmj. apply (E j Hj). apply H; [exact Hj|exact Hmj].
Qed.

(** Bytes 0..15 of a slot other than [dir] lie outside everything an add
    into slot [dir] writes. *)
Lemma other_slot_untouched (img img' : image) (dir i : Z) :
  image_ok img -> image_ok img' -> 0 <= dir < 72 -> 0 <= i < 72 -> i <> dir ->
  (forall off, dirent_off i <= off < dirent_off i + 32 ->
     mem_get img' off = mem_get img off) ->
  d_name img' i = d_name img i /\ d_ext img' i = d_ext img i /\
  d_type img' i = d_type img i /\
  d_first_granule img' i = d_first_granule img i /\
  d_last_bytes img' i = d_last_bytes img i.
Proof.
  intros Hok Hok' Hdir Hi Hne Hfr.
  unfold d_name, d_ext, d_type, d_first_granule, d_last_bytes.
  unfold dirent_off in *. geom. unfold image_ok in *.
  repeat split;
    first [ apply mem_read_ext; [lia|congruence|intros k Hk; apply Hfr; lia]
          | apply Hfr; lia ].
Qed.

(** X13.  After a successful add of a file of at least one byte under a
    name no entry had, with a type other than the Free marker, the name
    is found in the slot the add has claimed, by [cocofs_lookup_raw] and by
    [cocofs_lookup] of any string converted to it; every other name is
    looked up as before. *)
Theorem cocofs_copyin_lookup (fs : cocofs) (f : infile) (name ext : list byte)
        (type enc : byte) (fs' : cocofs) (L : Z) :
  fs_ok fs -> infile_ok f -> in_fstat f = Some L -> 0 < L ->
  length name = 8%nat -> length ext = 3%nat ->
  val type <> COCOFS_DIRENT_TYPE_FREE ->
  cocofs_lookup_raw fs name ext = None ->
  cocofs_copyin fs f name ext type enc = Returned None fs' ->
  exists dir,
    find_free_dirent (Z.to_nat COCOFS_DIR_TRACK_NENTRIES) (image_data fs) 0
    = Some dir /\
    cocofs_lookup_raw fs' name ext = Some dir /\
    (forall s, cocofs_conv_name s = Some (name, ext) ->
               cocofs_lookup fs' s = Some dir) /\
    forall name2 ext2,
      (take 8 name2, take 3 ext2) <> (name, ext) ->
      cocofs_lookup_raw fs' name2 ext2 = cocofs_lookup_raw fs name2 ext2.
Proof.
  intros Hfs Hf HL HLpos Hn He Ht Hnone Hrun.
  unfold cocofs_lookup_raw in Hnone. rewrite lookup_raw_from_None in Hnone.
  destruct (cocofs_copyin_success_frame _ _ _ _ _ _ _ Hfs Hf Hrun)
    as (dir & glist & L' & Hpost & Hdir & Hframe & Hfields).
  pose proof Hpost as (HL' & _ & Hk68 & _ & Edir & Hok' & _ & Hgr & _).
  assert (L' = L) as -> by congruence.
  destruct (Hfields HLpos Hn He) as (Hdn & Hde & Hdt & _).
  destruct Hfs as [Hok _].
  apply find_free_dirent_Some in Edir as Hdf. destruct Hdf as (_ & Hfree & _).
  (* slots other than [dir] read as before *)
  assert (Hother : forall i, 0 <= i < 72 -> i <> dir ->
            forall n2 e2, lookup_matches (image_data fs') n2 e2 i <->
                          lookup_matches (image_data fs) n2 e2 i).
  { intros i Hi Hne n2 e2.
    destruct (other_slot_untouched (image_data fs) (image_data fs') dir i
                Hok Hok' Hdir Hi Hne) as (H1 & H2 & H3 & _).
    { intros off Hoff. unfold dirent_off in *. geom.
      apply Hframe; [lia| |lia].
      intros j Hj. destruct (Hgr j Hj) as (Hg & _).
      pose proof (granule_region _ Hg). lia. }
    unfold lookup_matches. rewrite H1, H2, H3. reflexivity. }
  assert (Hfound : cocofs_lookup_raw fs' name ext = Some dir).
  2:{ exists dir. split; [exact Edir|]. split; [exact Hfound|]. split.
      - intros s Hs. unfold cocofs_lookup. rewrite Hs. exact Hfound.
      - intros n2 e2 Hdiff. unfold cocofs_lookup_raw.
        apply (lookup_raw_from_ext (image_data fs) (image_data fs') n2 e2
                 (Z.to_nat COCOFS_DIR_TRACK_NENTRIES) 0).
        geom. change (Z.of_nat (Z.to_nat 72)) with 72.
        intros i Hi. destruct (decide (i = dir)) as [->|Hne].
        + unfold lookup_matches. rewrite Hdn, Hde. split.
          * intros (_ & H1 & H2). exfalso. apply Hdiff.
            rewrite <- H1, <- H2. reflexivity.
          * intros (H1 & _). geom. contradiction.
        + apply Hother; [lia|exact Hne]. }
  - unfold cocofs_lookup_raw. apply lookup_raw_from_Some.
    geom. change (Z.of_nat (Z.to_nat 72)) with 72 in *.
    split; [lia|]. split.
    + unfold lookup_matches. rewrite Hdn, Hde, Hdt, !take_ge by lia. auto.
    + intros j Hj Hm.
      apply (Hnone j); [lia|].
      apply Hother; [lia|lia|exact Hm].
Qed.

(** X14.  After a successful add of [L >= 1] bytes, [cocofs_stat] of the
    slot claimed reports the size [L], the name and extension with their
    trailing blanks replaced by NULs, and the type and encoding given;
    with a type up to Text the directory listing shows the entry. *)
Theorem cocofs_copyin_stat (fs : cocofs) (f : infile) (name ext : list byte)
        (type enc : byte) (fs' : cocofs) (L : Z) :
  fs_ok fs -> infile_ok f -> in_fstat f = Some L -> 0 < L ->
  length name = 8%nat -> length ext = 3%nat ->
  cocofs_copyin fs f name ext type enc = Returned None fs' ->
  exists dir,
    find_free_dirent (Z.to_nat COCOFS_DIR_TRACK_NENTRIES) (image_data fs) 0
    = Some dir /\
    cocofs_stat fs' dir =
    {| st_size := L;
       st_name := strip_trailing_spaces name ++ [x00];
       st_ext := strip_trailing_spaces ext ++ [x00];
       st_type := type;
       st_encoding := enc |} /\
    (val type <= COCOFS_DIRENT_TYPE_TEXT ->
     (dir, cocofs_stat fs' dir) ∈ cocofs_enumerate_directory fs').
Proof.
  intros Hfs Hf HL HLpos Hn He Hrun.
  destruct (cocofs_copyin_success_frame _ _ _ _ _ _ _ Hfs Hf Hrun)
    as (dir & glist & L' & Hpost & Hdir & _ & Hfields).
  pose proof Hpost as (HL' & _ & _ & _ & Edir & _).
  assert (L' = L) as -> by congruence.
  destruct (Hfields HLpos Hn He) as (Hdn & Hde & Hdt & Hdc).
  exists dir. split; [exact Edir|]. split.
  - unfold cocofs_stat.
    rewrite (copyin_post_stat_size _ _ _ _ _ _ Hpost HLpos), Hdn, Hde, Hdt, Hdc.
    reflexivity.
  - intros Ht.
    assert (Hin : 0 <= dir < 0 + Z.of_nat (Z.to_nat COCOFS_DIR_TRACK_NENTRIES))
      by exact Hdir.
    rewrite <- Hdt in Ht.
    exact (enumerate_from_intro (Z.to_nat COCOFS_DIR_TRACK_NENTRIES) fs' 0 dir
             Hin Ht).
Qed.

(** X15.  A successful add does not disturb the files already there: an
    entry that could be copied out before is copied out after with the
    same result. *)
Theorem cocofs_copyin_keeps_files (fs : cocofs) (f : infile)
        (name ext : list byte) (type enc : byte) (fs' : cocofs)
        (dir2 : Z) (fuel : nat) (o o' : outfile) :
  fs_ok fs -> infile_ok f ->
  cocofs_copyin fs f name ext type enc = Returned None fs' ->
  0 <= dir2 < COCOFS_DIR_TRACK_NENTRIES ->
  val (d_type (image_data fs) dir2) <> COCOFS_DIRENT_TYPE_FREE ->
  cocofs_copyout fuel fs dir2 o = Some (None, o') ->
  cocofs_copyout fuel fs' dir2 o = Some (None, o').
Proof.
  intros Hfs Hf Hrun Hdir2 Hused Hout.
  destruct (cocofs_copyin_success_frame _ _ _ _ _ _ _ Hfs Hf Hrun)
    as (dir & glist & L & Hpost & Hdir & Hframe & _).
  destruct Hpost as (_ & _ & Hk68 & _ & Edir & Hok' & _ & Hgr & _).
  destruct Hfs as [Hok _].
  apply find_free_dirent_Some in Edir as (_ & Hfree & _).
  assert (Hne : dir2 <> dir) by (intros ->; contradiction).
  geom.
  destruct (other_slot_untouched (image_data fs) (image_data fs') dir dir2
              Hok Hok' Hdir Hdir2 Hne) as (_ & _ & _ & Hfirst & Hlast).
  { intros off Hoff. unfold dirent_off in *. geom.
    apply Hframe; [lia| |lia].
    intros j Hj. destruct (Hgr j Hj) as (Hg & _).
    pose proof (granule_region _ Hg). lia. }
  apply (cocofs_copyout_kept fs fs' dir2 fuel o o' Hok Hok'); try assumption.
  intros g Hg Hnf. geom.
  assert (Hother : forall j, 0 <= j < ceil_div L 2304 ->
            val (glist_get glist j) <> g).
  { intros j Hj Heq. destruct (Hgr j Hj) as (_ & Hwas).
    rewrite Heq in Hwas. contradiction. }
  pose proof (granule_region g Hg) as Hreg.
  split.
  - unfold gmap_get. geom. apply Hframe; [lia| |unfold dirent_off; geom; lia].
    intros j Hj. destruct (Hgr j Hj) as (Hgj & _).
    pose proof (granule_region _ Hgj). specialize (Hother j Hj). lia.
  - intros off Hoff.
    apply Hframe; [lia| |unfold dirent_off; geom; lia].
    intros j Hj. destruct (Hgr j Hj) as (Hgj & _).
    pose proof (granule_region _ Hgj) as Hregj.
    pose proof (granule_disjoint _ _ Hgj Hg (Hother j Hj)). lia.
Qed.

(** ** Removing a file and the rest of the directory *)

Lemma rm_loop_more_fuel (k fuel : nat) : forall fs g res,
  rm_loop fuel fs g = Some res -> rm_loop (k + fuel) fs g = Some res.
Proof.
  assert (Hmono : forall fuel fs g res,
            rm_loop fuel fs g = Some res -> rm_loop (S fuel) fs g = Some res).
  { clear. induction fuel as [|fuel IH]; intros fs g res; [discriminate|].
    intros H. cbn [rm_loop] in H. change (rm_loop (S (S fuel)) fs g)
      with (if COCOFS_NGRANULES <=? val g
            then Some (Some RM_INVALID_GRANULE, fs)
            else
              let gn := gmap_get (image_data fs) (val g) in
              if negb (gmap_entry_is_valid gn) || (val gn =? GMAP_FREE)
              then Some (Some RM_INVALID_GMAP_ENTRY, fs)
              else
                let fs' := {| image_data :=
                                gmap_set (image_data fs) (val g) (u8 GMAP_FREE);
                              free_granules := u32 (free_granules fs + 1) |} in
                if GMAP_IS_LAST (val gn) then Some (None, fs')
                else rm_loop (S fuel) fs' gn).
    destruct (_ <=? _); [exact H|]. cbv zeta in *.
    destruct (_ || _); [exact H|]. destruct (GMAP_IS_LAST _); [exact H|].
    apply IH. exact H. }
  induction k as [|k IHk]; intros fs g res H; [exact H|].
  cbn [Nat.add]. apply Hmono. apply IHk. exact H.
Qed.

(** Whatever [cocofs_rm] returns, it has changed map entries only from
    in use to Free, and outside the map only the slot of a successful
    removal, which it fills with 0xFF. *)
Lemma cocofs_rm_frame (fs : cocofs) (dir : Z) (fuel : nat) r fs' :
  fs_ok fs -> 0 <= dir < COCOFS_DIR_TRACK_NENTRIES ->
  cocofs_rm fuel fs dir = Some (r, fs') ->
  image_ok (image_data fs') /\
  (forall off, 0 <= off ->
     ~ (granule_map_off <= off < granule_map_off + COCOFS_NGRANULES) ->
     ~ (dirent_off dir <= off < dirent_off dir + SIZEOF_DIRENT) ->
     mem_get (image_data fs') off = mem_get (image_data fs) off) /\
  (forall g, 0 <= g < 68 ->
     gmap_get (image_data fs') g = gmap_get (image_data fs) g \/
     (val (gmap_get (image_data fs) g) <> GMAP_FREE /\
      val (gmap_get (image_data fs') g) = GMAP_FREE)) /\
  (r = None ->
   forall off, dirent_off dir <= off < dirent_off dir + SIZEOF_DIRENT ->
     mem_get (image_data fs') off = xff) /\
  (r <> None ->
   forall off, dirent_off dir <= off < dirent_off dir + SIZEOF_DIRENT ->
     mem_get (image_data fs') off = mem_get (image_data fs) off).
Proof.
  intros Hfs Hdir. pose proof Hfs as [Hok Hcnt].
  pose proof (count_free_range _ Hok) as Hcf.
  unfold cocofs_rm.
  destruct (rm_loop fuel fs (d_first_granule (image_data fs) dir))
    as [[r1 fs1]|] eqn:Erun; [|destruct fuel; discriminate].
  destruct (rm_loop_general (69 + fuel) fs
              (d_first_granule (image_data fs) dir) Hfs ltac:(lia))
    as (r2 & fs2 & n & Hrun2 & [Hok2 _] & _ & _ & _ & Hframe & Hmap & _).
  rewrite (rm_loop_more_fuel 69 _ _ _ _ Erun) in Hrun2.
  injection Hrun2 as <- <-.
  unfold dirent_off in *. geom. unfold image_ok in *. geom.
  destruct r1 as [e|]; intros [= <- <-].
  - split; [exact Hok2|]. split; [intros off H1 H2 _; apply Hframe; assumption|].
    split; [exact Hmap|]. split; [discriminate|].
    intros _ off Hoff. apply Hframe; lia.
  - cbn [image_data]. split; [rewrite length_memset; exact Hok2|].
    split; [|split; [|split; [|intros H; contradiction]]].
    + intros off H1 H2 H3. rewrite mem_get_memset_out by lia.
      apply Hframe; assumption.
    + intros g Hg. unfold gmap_get. geom.
      rewrite mem_get_memset_out by lia. apply (Hmap g Hg).
    + intros _ off Hoff. unfold memset.
      rewrite mem_get_write_in by (rewrite ?length_replicate; lia).
      rewrite lookup_replicate_2 by lia. reflexivity.
Qed.

(** X16.  After a successful removal the slot holds 32 bytes 0xFF, no
    lookup returns it and the listing does not show it; a name found in
    another slot is still found there, and the name of the removed entry
    is found, if at all, in a later slot that held it before. *)
Theorem cocofs_rm_lookup (fs : cocofs) (dir : Z) (fuel : nat) (fs' : cocofs)
        (name ext : list byte) :
  fs_ok fs -> 0 <= dir < COCOFS_DIR_TRACK_NENTRIES ->
  cocofs_rm fuel fs dir = Some (None, fs') ->
  dirent_bytes (image_data fs') dir = replicate (Z.to_nat SIZEOF_DIRENT) xff /\
  cocofs_lookup_raw fs' name ext <> Some dir /\
  (forall i, i <> dir -> cocofs_lookup_raw fs name ext = Some i ->
             cocofs_lookup_raw fs' name ext = Some i) /\
  (cocofs_lookup_raw fs name ext = Some dir ->
   forall i, cocofs_lookup_raw fs' name ext = Some i ->
             dir < i /\ lookup_matches (image_data fs) name ext i) /\
  (forall s, (dir, s) ∉ cocofs_enumerate_directory fs').
Proof.
  intros Hfs Hdir Hrun. pose proof Hfs as [Hok _].
  destruct (cocofs_rm_frame _ _ _ _ _ Hfs Hdir Hrun)
    as (Hok' & Hframe & _ & Hslot & _).
  specialize (Hslot eq_refl).
  assert (Hn72 : Z.of_nat (Z.to_nat COCOFS_DIR_TRACK_NENTRIES) = 72)
    by reflexivity.
  assert (Hdir' : 0 <= dir < 72) by exact Hdir.
  assert (Hfreed : val (d_type (image_data fs') dir) = COCOFS_DIRENT_TYPE_FREE).
  { unfold d_type. rewrite Hslot; [reflexivity|]. geom. lia. }
  assert (Hother : forall i, 0 <= i < 72 -> i <> dir ->
            (lookup_matches (image_data fs') name ext i <->
             lookup_matches (image_data fs) name ext i)).
  { intros i Hi Hne.
    destruct (other_slot_untouched (image_data fs) (image_data fs') dir i
                Hok Hok' Hdir' Hi Hne) as (H1 & H2 & H3 & _).
    { intros off Hoff. unfold dirent_off in *. geom. apply Hframe; lia. }
    unfold lookup_matches. rewrite H1, H2, H3. reflexivity. }
  assert (Hnot : ~ lookup_matches (image_data fs') name ext dir).
  { unfold lookup_matches. intros (Ht & _). contradiction. }
  assert (Hbytes : dirent_bytes (image_data fs') dir
                   = replicate (Z.to_nat SIZEOF_DIRENT) xff).
  { unfold dirent_bytes, dirent_off in *. geom. unfold image_ok in *. geom.
    apply mem_read_replicate; [lia|lia|lia|]. intros k Hk. apply Hslot. lia. }
  split; [exact Hbytes|]. unfold cocofs_lookup_raw. split; [|split; [|split]].
  4:{ intros s Hin. unfold cocofs_enumerate_directory in Hin.
      apply enumerate_from_elem in Hin as (_ & Hle). geom. lia. }
  - intros H. apply lookup_raw_from_Some in H as (_ & Hm & _). contradiction.
  - intros i Hne H. apply lookup_raw_from_Some in H as (Hi & Hm & Hmin).
    apply lookup_raw_from_Some. rewrite Hn72 in *.
    split; [exact Hi|]. split.
    + apply Hother; [lia|exact Hne|exact Hm].
    + intros j Hj Hmj. destruct (decide (j = dir)) as [->|Hjd];
        [contradiction|].
      apply (Hmin j Hj). apply Hother; [lia|exact Hjd|exact Hmj].
  - intros H i H'. apply lookup_raw_from_Some in H as (_ & Hmd & Hmin).
    apply lookup_raw_from_Some in H' as (Hi & Hm & Hmin').
    rewrite Hn72 in *.
    assert (Hne : i <> dir) by (intros ->; contradiction).
    assert (Hm0 : lookup_matches (image_data fs) name ext i)
      by (apply Hother; [lia|exact Hne|exact Hm]).
    split; [|exact Hm0].
    destruct (Z.lt_trichotomy i dir) as [Hlt|[Heq|Hgt]];
      [|contradiction|exact Hgt].
    exfalso. apply (Hmin i); [lia|exact Hm0].
Qed.


(** ** The states of the examples *)

Lemma copyin_post_rm (fs fs1 : cocofs) (f : infile) (dir : Z)
      (glist : list byte) (L : Z) (fuel : nat) :
  copyin_post fs fs1 f dir glist L -> 0 < L -> (68 <= fuel)%nat ->
  exists fs2, cocofs_rm fuel fs1 dir = Some (None, fs2).
Proof.
  intros (_ & _ & Hk68 & _ & _ & Hok1 & _ & Hgr & Hinj & Hchain & Hdirent)
         HLpos Hfuel.
  destruct (last_resid_bounds L HLpos) as (_ & Hresid).
  pose proof (nsec_bounds _ Hresid) as Hnsec.
  destruct (Hdirent HLpos) as (Hfirst & _).
  unfold cocofs_rm. rewrite Hfirst.
  destruct (rm_loop_chain glist (ceil_div L 2304) _ Hnsec
              (fun j Hj => proj1 (Hgr j Hj)) Hinj
              (Z.to_nat (ceil_div L 2304 - 1)) 0 fs1 fuel
              ltac:(lia) ltac:(lia) Hok1
              (fun j Hj => proj1 (Hchain j Hj)) ltac:(lia))
    as (fs' & Hrm & _).
  rewrite Hrm. eexists. reflexivity.
Qed.

Lemma format_first_free :
  forall dir, find_free_dirent (Z.to_nat COCOFS_DIR_TRACK_NENTRIES)
                (image_data cocofs_format) 0 = Some dir -> dir = 0.
Proof.
  intros dir H. apply find_free_dirent_Some in H as (Hd & _ & Hmin).
  destruct (Z.eq_dec dir 0) as [|Hne]; [assumption|]. exfalso.
  apply (Hmin 0); [lia|]. apply format_slot_free. geom. lia.
Qed.

Lemma format_lookup_none (name ext : list byte) :
  cocofs_lookup_raw cocofs_format name ext = None.
Proof.
  unfold cocofs_lookup_raw. apply lookup_raw_from_None.
  intros j Hj. unfold lookup_matches. intros (Ht & _). apply Ht.
  apply format_slot_free. exact Hj.
Qed.

Lemma two_bytes_file_ok : infile_ok (regular_file two_bytes).
Proof. apply regular_file_ok. cbn. lia. Qed.

(** A fresh image to which a file of two bytes, [A], has been added: the
    file is in slot 0 and can be copied out and removed, slot 1 is free,
    and the counter is right. *)
Lemma one_file_image :
  exists fs1,
    cocofs_copyin cocofs_format (regular_file two_bytes) name_A ext_blank
                  x01 x00 = Returned None fs1 /\
    fs_ok fs1 /\ counter_consistent fs1 /\ free_granules fs1 = 67 /\
    val (d_type (image_data fs1) 0) <> COCOFS_DIRENT_TYPE_FREE /\
    val (d_type (image_data fs1) 1) = COCOFS_DIRENT_TYPE_FREE /\
    d_first_granule (image_data fs1) 1 = xff /\
    cocofs_copyout 68 fs1 0 fresh_output
    = Some (None, {| out_open := true; out_data := two_bytes;
                     out_room := None |}) /\
    exists fs2, cocofs_rm 68 fs1 0 = Some (None, fs2).
Proof.
  destruct (cocofs_copyin_regular_succeeds cocofs_format two_bytes
              name_A ext_blank x01 x00 format_fs_ok format_counter_consistent)
    as (fs1 & Hrun).
  { rewrite format_free. cbn. lia. }
  { exists 0. split; [geom; lia|]. apply format_slot_free. geom. lia. }
  exists fs1. split; [exact Hrun|].
  destruct (copyin_consistent _ _ _ _ _ _ _ _ format_fs_ok
              format_counter_consistent two_bytes_file_ok Hrun)
    as [Hfs1 Hcons1].
  destruct (cocofs_copyin_success_frame _ _ _ _ _ _ _ format_fs_ok
              two_bytes_file_ok Hrun)
    as (dir & glist & L & Hpost & Hdir & Hframe & Hfields).
  pose proof Hpost as (HL & _ & _ & _ & Edir & Hok1 & Hfree & Hgr & _).
  apply format_first_free in Edir as ->.
  vm_compute in HL. injection HL as HL. subst L.
  destruct (Hfields ltac:(lia) eq_refl eq_refl) as (_ & _ & Ht & _).
  destruct (other_slot_untouched (image_data cocofs_format) (image_data fs1)
              0 1 format_image_ok Hok1 ltac:(lia) ltac:(lia) ltac:(lia))
    as (_ & _ & Ht1 & Hf1 & _).
  { intros off Hoff. unfold dirent_off in *. geom.
    apply Hframe; [lia| |lia].
    intros j Hj. destruct (Hgr j Hj) as (Hg & _).
    pose proof (granule_region _ Hg). lia. }
  split; [exact Hfs1|]. split; [exact Hcons1|].
  split; [rewrite Hfree, format_free; reflexivity|].
  split; [rewrite Ht; vm_compute; discriminate|].
  split; [rewrite Ht1; apply format_slot_free; geom; lia|].
  split.
  { rewrite Hf1. unfold d_first_granule, dirent_off. geom.
    apply format_mem_get. geom. lia. }
  split.
  - apply (copyin_post_copyout cocofs_format fs1 two_bytes 0 glist
             fresh_output 68 Hpost); (reflexivity || (cbn; lia)).
  - apply (copyin_post_rm cocofs_format fs1 _ 0 glist 2 68 Hpost); lia.
Qed.

(** ** The theorems at concrete inputs *)

(** Byte 82944, the first byte behind the directory track. *)
Lemma granule_partition_witness :
  0 <= 82944 < COCOFS_TOTALSIZE /\
  ((directory_track_off <= 82944
    < directory_track_off + COCOFS_BYTES_PER_TRACK /\
    forall g, 0 <= g < COCOFS_NGRANULES ->
      ~ (cocofs_granule_to_offset g <= 82944
         < cocofs_granule_to_offset g + COCOFS_BYTES_PER_GRANULE)) \/
   (~ (directory_track_off <= 82944
       < directory_track_off + COCOFS_BYTES_PER_TRACK) /\
    exists g, 0 <= g < COCOFS_NGRANULES /\
      cocofs_granule_to_offset g <= 82944
      < cocofs_granule_to_offset g + COCOFS_BYTES_PER_GRANULE /\
      forall g', 0 <= g' < COCOFS_NGRANULES ->
        cocofs_granule_to_offset g' <= 82944
        < cocofs_granule_to_offset g' + COCOFS_BYTES_PER_GRANULE ->
        g' = g)).
Proof.
  assert (H : 0 <= 82944 < COCOFS_TOTALSIZE) by (geom; lia).
  split; [exact H|exact (granule_partition 82944 H)].
Defined.

(** The marker of a last granule with all nine sectors in use. *)
Lemma gmap_entry_classes_witness :
  (gmap_entry_is_valid xc9 = true /\ val xc9 <> GMAP_FREE) /\
  (if GMAP_IS_LAST (val xc9)
   then 0 <= GMAP_LAST_NSEC (val xc9) <= COCOFS_SEC_PER_GRANULE /\
        val xc9 = GMAP_LAST + GMAP_LAST_NSEC (val xc9)
   else val xc9 <= COCOFS_NGRANULES).
Proof.
  assert (H1 : gmap_entry_is_valid xc9 = true) by reflexivity.
  assert (H2 : val xc9 <> GMAP_FREE) by (vm_compute; discriminate).
  split; [split; assumption|exact (gmap_entry_classes xc9 H1 H2)].
Defined.

Lemma no_dot_in_foo : "."%byte ∉ ["f"; "o"; "o"]%byte.
Proof.
  intros H. repeat (apply elem_of_cons in H as [H|H]; [discriminate H|]).
  apply elem_of_nil in H. exact H.
Qed.

(** The names [foo] and [foo.c]. *)
Lemma cocofs_conv_name_spec_witness :
  ("."%byte ∉ ["f"; "o"; "o"]%byte) /\
  cocofs_conv_name ["f"; "o"; "o"]%byte =
    (if (length ["f"; "o"; "o"]%byte <=? 8)%nat
     then Some (pad 8 (map cocofs_mapchar ["f"; "o"; "o"]%byte),
                replicate 3 " "%byte)
     else None) /\
  cocofs_conv_name (["f"; "o"; "o"]%byte ++ "."%byte :: ["c"%byte]) =
    (if (length ["f"; "o"; "o"]%byte <=? 8)%nat
        && (length ["c"%byte] <=? 3)%nat
     then Some (pad 8 (map cocofs_mapchar ["f"; "o"; "o"]%byte),
                pad 3 (map cocofs_mapchar ["c"%byte]))
     else None).
Proof.
  split; [exact no_dot_in_foo|].
  exact (cocofs_conv_name_spec ["f"; "o"; "o"]%byte ["c"%byte] no_dot_in_foo).
Defined.

(** [a.b] and [A.B] on a fresh image. *)
Lemma cocofs_lookup_ignores_case_witness :
  map cocofs_mapchar ["a"; "."; "b"]%byte
  = map cocofs_mapchar ["A"; "."; "B"]%byte /\
  cocofs_lookup cocofs_format ["a"; "."; "b"]%byte
  = cocofs_lookup cocofs_format ["A"; "."; "B"]%byte.
Proof.
  assert (H : map cocofs_mapchar ["a"; "."; "b"]%byte
              = map cocofs_mapchar ["A"; "."; "B"]%byte) by reflexivity.
  split; [exact H|].
  exact (cocofs_lookup_ignores_case cocofs_format _ _ H).
Defined.

Lemma odd_type_lookup : cocofs_lookup odd_type_fs ["a"%byte] = Some 0.
Proof.
  unfold cocofs_lookup.
  change (cocofs_conv_name ["a"%byte]) with (Some (name_A, ext_blank)).
  unfold cocofs_lookup_raw. apply lookup_raw_from_Some.
  split; [vm_compute; split; [discriminate|reflexivity]|]. split.
  - unfold lookup_matches. rewrite odd_type_fs_type, odd_type_fs_name,
      odd_type_fs_ext. repeat split. vm_compute. discriminate.
  - intros j Hj. lia.
Qed.

(** The entry [A] of the image with the odd type byte, looked up as [a]. *)
Lemma cocofs_lookup_never_lowercase_witness :
  cocofs_lookup odd_type_fs ["a"%byte] = Some 0 /\
  (0 <= 0 < COCOFS_DIR_TRACK_NENTRIES /\
   val (d_type (image_data odd_type_fs) 0) <> COCOFS_DIRENT_TYPE_FREE /\
   forall c, c ∈ d_name (image_data odd_type_fs) 0
                 ++ d_ext (image_data odd_type_fs) 0 ->
             ~ (val "a"%byte <= val c <= val "z"%byte)).
Proof.
  split; [exact odd_type_lookup|].
  exact (cocofs_lookup_never_lowercase odd_type_fs ["a"%byte] 0
           odd_type_lookup).
Defined.

(** [hello.c[ascii,data]]. *)
Lemma cocofs_parse_fname_result_witness :
  cocofs_parse_fname
    ["h"; "e"; "l"; "l"; "o"; "."; "c"; "[";
     "a"; "s"; "c"; "i"; "i"; ","; "d"; "a"; "t"; "a"; "]"]%byte
  = Parsed ["h"; "e"; "l"; "l"; "o"; "."; "c"]%byte
           ["H"; "E"; "L"; "L"; "O"; " "; " "; " "]%byte
           ["C"; " "; " "]%byte x01 xff /\
  (length ["H"; "E"; "L"; "L"; "O"; " "; " "; " "]%byte = 8%nat /\
   length ["C"; " "; " "]%byte = 3%nat /\
   val x01 <= COCOFS_DIRENT_TYPE_TEXT /\
   (val xff = COCOFS_DIRENT_ENC_BINARY \/ val xff = COCOFS_DIRENT_ENC_ASCII) /\
   forall c, c ∈ ["H"; "E"; "L"; "L"; "O"; " "; " "; " "]%byte
                 ++ ["C"; " "; " "]%byte ->
             ~ (val "a"%byte <= val c <= val "z"%byte)).
Proof.
  assert (H : cocofs_parse_fname
                ["h"; "e"; "l"; "l"; "o"; "."; "c"; "[";
                 "a"; "s"; "c"; "i"; "i"; ","; "d"; "a"; "t"; "a"; "]"]%byte
              = Parsed ["h"; "e"; "l"; "l"; "o"; "."; "c"]%byte
                       ["H"; "E"; "L"; "L"; "O"; " "; " "; " "]%byte
                       ["C"; " "; " "]%byte x01 xff) by reflexivity.
  split; [exact H|exact (cocofs_parse_fname_result _ _ _ _ _ _ H)].
Defined.

Lemma not_in_data (c : byte) :
  c = "["%byte \/ c = ","%byte -> c ∉ ["d"; "a"; "t"; "a"]%byte.
Proof.
  intros Hc H.
  repeat (apply elem_of_cons in H as [H|H];
          [destruct Hc as [Hc|Hc]; rewrite Hc in H; discriminate H|]).
  apply elem_of_nil in H. exact H.
Qed.

Lemma not_in_ascii (c : byte) :
  c = "["%byte \/ c = ","%byte -> c ∉ ["a"; "s"; "c"; "i"; "i"]%byte.
Proof.
  intros Hc H.
  repeat (apply elem_of_cons in H as [H|H];
          [destruct Hc as [Hc|Hc]; rewrite Hc in H; discriminate H|]).
  apply elem_of_nil in H. exact H.
Qed.

(** [f[data,ascii]] and [f[ascii,data]]. *)
Lemma cocofs_parse_fname_qualifier_order_witness :
  (["f"%byte] <> [] /\
   ("["%byte ∉ ["d"; "a"; "t"; "a"]%byte) /\
   (","%byte ∉ ["d"; "a"; "t"; "a"]%byte) /\
   ("["%byte ∉ ["a"; "s"; "c"; "i"; "i"]%byte) /\
   (","%byte ∉ ["a"; "s"; "c"; "i"; "i"]%byte)) /\
  cocofs_parse_fname
    (["f"%byte] ++ "["%byte
       :: (["d"; "a"; "t"; "a"]%byte ++ ","%byte
             :: ["a"; "s"; "c"; "i"; "i"]%byte) ++ ["]"%byte])
  = cocofs_parse_fname
      (["f"%byte] ++ "["%byte
         :: (["a"; "s"; "c"; "i"; "i"]%byte ++ ","%byte
               :: ["d"; "a"; "t"; "a"]%byte) ++ ["]"%byte]).
Proof.
  assert (H0 : ["f"%byte] <> []) by discriminate.
  pose proof (not_in_data "["%byte (or_introl eq_refl)) as H1.
  pose proof (not_in_data ","%byte (or_intror eq_refl)) as H2.
  pose proof (not_in_ascii "["%byte (or_introl eq_refl)) as H3.
  pose proof (not_in_ascii ","%byte (or_intror eq_refl)) as H4.
  split; [repeat split; assumption|].
  exact (cocofs_parse_fname_qualifier_order ["f"%byte]
           ["d"; "a"; "t"; "a"]%byte ["a"; "s"; "c"; "i"; "i"]%byte
           H0 H1 H2 H3 H4).
Defined.

(** [x.txt[data]]: the extension would make it ASCII text. *)
Lemma cocofs_parse_fname_qualified_witness :
  (["x"; "."; "t"; "x"; "t"]%byte <> [] /\
   ("["%byte ∉ ["d"; "a"; "t"; "a"]%byte) /\
   (","%byte ∉ ["d"; "a"; "t"; "a"]%byte) /\
   cocofs_parse_fname
     (["x"; "."; "t"; "x"; "t"]%byte ++ "["%byte
        :: ["d"; "a"; "t"; "a"]%byte ++ ["]"%byte])
   = Parsed ["x"; "."; "t"; "x"; "t"]%byte
            ["X"; " "; " "; " "; " "; " "; " "; " "]%byte
            ["T"; "X"; "T"]%byte x01 x00) /\
  (["x"; "."; "t"; "x"; "t"]%byte = ["x"; "."; "t"; "x"; "t"]%byte /\
   ((exists tab,
       str2val_lookup_str cocofs_dir_types ["d"; "a"; "t"; "a"]%byte
       = Some tab /\
       x01 = u8 (s2v_val tab) /\ val x00 = COCOFS_DIRENT_ENC_BINARY) \/
    (exists tab,
       str2val_lookup_str cocofs_dir_encodings ["d"; "a"; "t"; "a"]%byte
       = Some tab /\
       x00 = u8 (s2v_val tab) /\ val x01 = COCOFS_DIRENT_TYPE_DATA))).
Proof.
  assert (H0 : ["x"; "."; "t"; "x"; "t"]%byte <> []) by discriminate.
  pose proof (not_in_data "["%byte (or_introl eq_refl)) as H1.
  pose proof (not_in_data ","%byte (or_intror eq_refl)) as H2.
  assert (H3 : cocofs_parse_fname
                 (["x"; "."; "t"; "x"; "t"]%byte ++ "["%byte
                    :: ["d"; "a"; "t"; "a"]%byte ++ ["]"%byte])
               = Parsed ["x"; "."; "t"; "x"; "t"]%byte
                        ["X"; " "; " "; " "; " "; " "; " "; " "]%byte
                        ["T"; "X"; "T"]%byte x01 x00) by reflexivity.
  split; [repeat split; assumption|].
  exact (cocofs_parse_fname_qualified _ _ _ _ _ _ _ H0 H1 H2 H3).
Defined.

(** ** A disk without a free granule: the image loaded from an empty file *)

Lemma empty_load_mem_get (off : Z) :
  0 <= off < COCOFS_TOTALSIZE ->
  mem_get (image_data (cocofs_load [])) off = x00.
Proof.
  intros Hoff. unfold cocofs_load. cbn [image_data]. rewrite take_nil.
  unfold mem_write. cbn [list_inserts]. unfold mem_get.
  rewrite lookup_replicate_2 by lia. reflexivity.
Qed.

(** The image loaded from an empty file: every map entry is 0x00. *)
Lemma cocofs_galloc_exhausted_witness :
  (0 <= 34 < COCOFS_NGRANULES /\
   forall g, 0 <= g < COCOFS_NGRANULES ->
     val (gmap_get (image_data (cocofs_load [])) g) <> GMAP_FREE) /\
  cocofs_galloc (cocofs_load []) 34 = None.
Proof.
  assert (H1 : 0 <= 34 < COCOFS_NGRANULES) by (geom; lia).
  assert (H2 : forall g, 0 <= g < COCOFS_NGRANULES ->
            val (gmap_get (image_data (cocofs_load [])) g) <> GMAP_FREE).
  { intros g Hg. unfold gmap_get. rewrite empty_load_mem_get by (geom; lia).
    vm_compute. discriminate. }
  split; [split; assumption|].
  exact (cocofs_galloc_exhausted (cocofs_load []) 34 H1 H2).
Defined.

Lemma cocofs_save_succeeds (fs : cocofs) (d : imagefile) :
  if_seek d = true -> if_write d COCOFS_TOTALSIZE = COCOFS_TOTALSIZE ->
  exists d', cocofs_save fs d = (true, d').
Proof.
  intros Hs Hw. unfold cocofs_save, cocofs_pwrite. rewrite Hs, Hw.
  cbn [negb]. rewrite Z.eqb_refl. eexists. reflexivity.
Qed.

(** Saving a fresh image to a file that takes every write. *)
Lemma cocofs_save_load_witness :
  exists d',
    (fs_ok cocofs_format /\ counter_consistent cocofs_format /\
     cocofs_save cocofs_format empty_imagefile = (true, d')) /\
    cocofs_load (if_data d') = cocofs_format.
Proof.
  destruct (cocofs_save_succeeds cocofs_format empty_imagefile
              eq_refl eq_refl) as (d' & E).
  exists d'. split.
  - split; [exact format_fs_ok|]. split; [exact format_counter_consistent|].
    exact E.
  - exact (cocofs_save_load cocofs_format empty_imagefile d' format_fs_ok
             format_counter_consistent E).
Defined.

(** The file [A] of two bytes, added to a fresh image. *)
Lemma cocofs_copyin_lookup_witness :
  exists fs1,
    (fs_ok cocofs_format /\ infile_ok (regular_file two_bytes) /\
     in_fstat (regular_file two_bytes) = Some 2 /\ 0 < 2 /\
     length name_A = 8%nat /\ length ext_blank = 3%nat /\
     val x01 <> COCOFS_DIRENT_TYPE_FREE /\
     cocofs_lookup_raw cocofs_format name_A ext_blank = None /\
     cocofs_copyin cocofs_format (regular_file two_bytes) name_A ext_blank
                   x01 x00 = Returned None fs1) /\
    exists dir,
      find_free_dirent (Z.to_nat COCOFS_DIR_TRACK_NENTRIES)
                       (image_data cocofs_format) 0 = Some dir /\
      cocofs_lookup_raw fs1 name_A ext_blank = Some dir /\
      (forall s, cocofs_conv_name s = Some (name_A, ext_blank) ->
                 cocofs_lookup fs1 s = Some dir) /\
      forall name2 ext2,
        (take 8 name2, take 3 ext2) <> (name_A, ext_blank) ->
        cocofs_lookup_raw fs1 name2 ext2
        = cocofs_lookup_raw cocofs_format name2 ext2.
Proof.
  destruct one_file_image as (fs1 & Hrun & _).
  assert (Ht : val x01 <> COCOFS_DIRENT_TYPE_FREE)
    by (vm_compute; discriminate).
  exists fs1. split.
  - split; [exact format_fs_ok|]. split; [exact two_bytes_file_ok|].
    split; [reflexivity|]. split; [lia|]. split; [reflexivity|].
    split; [reflexivity|]. split; [exact Ht|].
    split; [apply format_lookup_none|exact Hrun].
  - exact (cocofs_copyin_lookup cocofs_format (regular_file two_bytes)
             name_A ext_blank x01 x00 fs1 2 format_fs_ok two_bytes_file_ok
             eq_refl ltac:(lia) eq_refl eq_refl Ht
             (format_lookup_none name_A ext_blank) Hrun).
Defined.

(** The same add, seen by [cocofs_stat] and the listing. *)
Lemma cocofs_copyin_stat_witness :
  exists fs1,
    (fs_ok cocofs_format /\ infile_ok (regular_file two_bytes) /\
     in_fstat (regular_file two_bytes) = Some 2 /\ 0 < 2 /\
     length name_A = 8%nat /\ length ext_blank = 3%nat /\
     cocofs_copyin cocofs_format (regular_file two_bytes) name_A ext_blank
                   x01 x00 = Returned None fs1) /\
    exists dir,
      find_free_dirent (Z.to_nat COCOFS_DIR_TRACK_NENTRIES)
                       (image_data cocofs_format) 0 = Some dir /\
      cocofs_stat fs1 dir =
      {| st_size := 2;
         st_name := strip_trailing_spaces name_A ++ [x00];
         st_ext := strip_trailing_spaces ext_blank ++ [x00];
         st_type := x01;
         st_encoding := x00 |} /\
      (val x01 <= COCOFS_DIRENT_TYPE_TEXT ->
       (dir, cocofs_stat fs1 dir) ∈ cocofs_enumerate_directory fs1).
Proof.
  destruct one_file_image as (fs1 & Hrun & _).
  exists fs1. split.
  - split; [exact format_fs_ok|]. split; [exact two_bytes_file_ok|].
    split; [reflexivity|]. split; [lia|]. split; [reflexivity|].
    split; [reflexivity|exact Hrun].
  - exact (cocofs_copyin_stat cocofs_format (regular_file two_bytes)
             name_A ext_blank x01 x00 fs1 2 format_fs_ok two_bytes_file_ok
             eq_refl ltac:(lia) eq_refl eq_refl Hrun).
Defined.

(** A second file, [B], added to the image that holds [A]. *)
Lemma cocofs_copyin_keeps_files_witness :
  exists fs1 fs2,
    (fs_ok fs1 /\ infile_ok (regular_file two_bytes) /\
     cocofs_copyin fs1 (regular_file two_bytes) name_B ext_blank x01 x00
     = Returned None fs2 /\
     0 <= 0 < COCOFS_DIR_TRACK_NENTRIES /\
     val (d_type (image_data fs1) 0) <> COCOFS_DIRENT_TYPE_FREE /\
     cocofs_copyout 68 fs1 0 fresh_output
     = Some (None, {| out_open := true; out_data := two_bytes;
                      out_room := None |})) /\
    cocofs_copyout 68 fs2 0 fresh_output
    = Some (None, {| out_open := true; out_data := two_bytes;
                     out_room := None |}).
Proof.
  destruct one_file_image
    as (fs1 & _ & Hfs1 & Hcons1 & Hfree1 & Hused & Hslot1 & _ & Hout & _).
  destruct (cocofs_copyin_regular_succeeds fs1 two_bytes name_B ext_blank
              x01 x00 Hfs1 Hcons1) as (fs2 & Hrun).
  { rewrite Hfree1. cbn. lia. }
  { exists 1. split; [geom; lia|exact Hslot1]. }
  assert (Hdir : 0 <= 0 < COCOFS_DIR_TRACK_NENTRIES) by (geom; lia).
  exists fs1, fs2. split.
  - split; [exact Hfs1|]. split; [exact two_bytes_file_ok|].
    split; [exact Hrun|]. split; [exact Hdir|]. split; [exact Hused|exact Hout].
  - exact (cocofs_copyin_keeps_files fs1 (regular_file two_bytes) name_B
             ext_blank x01 x00 fs2 0 68 fresh_output _ Hfs1 two_bytes_file_ok
             Hrun Hdir Hused Hout).
Defined.

(** Removing [A] again. *)
Lemma cocofs_rm_lookup_witness :
  exists fs1 fs2,
    (fs_ok fs1 /\ 0 <= 0 < COCOFS_DIR_TRACK_NENTRIES /\
     cocofs_rm 68 fs1 0 = Some (None, fs2)) /\
    (dirent_bytes (image_data fs2) 0
     = replicate (Z.to_nat SIZEOF_DIRENT) xff /\
     cocofs_lookup_raw fs2 name_A ext_blank <> Some 0 /\
     (forall i, i <> 0 -> cocofs_lookup_raw fs1 name_A ext_blank = Some i ->
                cocofs_lookup_raw fs2 name_A ext_blank = Some i) /\
     (cocofs_lookup_raw fs1 name_A ext_blank = Some 0 ->
      forall i, cocofs_lookup_raw fs2 name_A ext_blank = Some i ->
                0 < i /\ lookup_matches (image_data fs1) name_A ext_blank i) /\
     (forall s, (0, s) ∉ cocofs_enumerate_directory fs2)).
Proof.
  destruct one_file_image as (fs1 & _ & Hfs1 & _ & _ & _ & _ & _ & _ & fs2 & Hrm).
  assert (Hdir : 0 <= 0 < COCOFS_DIR_TRACK_NENTRIES) by (geom; lia).
  exists fs1, fs2. split.
  - split; [exact Hfs1|]. split; [exact Hdir|exact Hrm].
  - exact (cocofs_rm_lookup fs1 0 68 fs2 name_A ext_blank Hfs1 Hdir Hrm).
Defined.

